(** * sticker-smith: price-label sheets

    A shallow embedding of the label generator's TypeScript sources:

    - [src/utils/excelParser.ts]  ([mapDataToProducts]): rows of a sheet to
      products;
    - [src/utils/pdfGenerator.ts] ([generatePDF], [drawLabelToPDF],
      [drawPlaceholderImage]): the 3 x 8 grid of labels on A4 pages, the
      truncation of the designation, the price text and the barcode;
    - the branded variant of [drawLabelToPDF]: the price split into a large
      integer and a small decimal part; and, of the branded variant with
      image and barcode, the whole label ([Branded]);
    - [src/utils/excelParser.ts] ([parseExcelFile], [processImageFiles]):
      the column names offered, the map from references to images;
    - [src/components/ColumnMapper.tsx], [FileUpload.tsx], [LabelPreview.tsx]
      (the label drawn on the canvas, the navigation) and
      [PriceLabelGenerator.tsx]: the state of the component, its handlers
      and the conditions under which each can run.

    Conventions.  A JavaScript number is an IEEE double; the operations the
    sources apply to prices and widths ([Math.floor], [% 1], [toFixed],
    comparisons, [+], [-]) are modelled on the exact rational value of the
    number, type [Q]; [NaN] and the infinities are outside the model.  An
    integer held in a number (a quantity, the floor of a price) is modelled
    by [Z]; it is the value of the number below 2^53 in absolute value, and
    the properties that depend on it are stated in that range.  A
    JavaScript string is a sequence of code units, modelled by [string] with
    one character per code unit.  The jsPDF document is a state that is passed
    explicitly: its graphics state together with the items drawn so far.  A
    text is anchored at its left end, as jsPDF does when no alignment is
    asked for.  The handlers of the component run one at a time, each to its
    end, on the state the component was last rendered with. *)

From Stdlib Require Import List String Ascii ZArith QArith Qround.
From Stdlib Require Import Lia Lqa Bool Arith FinFun.
From Equations Require Import Equations.
From Equations.Prop Require Import Logic.
Import ListNotations.

Local Open Scope Q_scope.
Local Open Scope Z_scope.
Local Open Scope list_scope.
Local Open Scope string_scope.
Local Open Scope nat_scope.

(* ====================================================================== *)
(** * Part I. Definitions *)
(* ====================================================================== *)

(** ** The JavaScript built-ins the sources call *)

Module JS.

(** [a > b] on numbers. *)
Definition gt (a b : Q) : bool := negb (Qle_bool a b).

(** [Math.floor] and [Math.ceil]. *)
Definition floor (x : Q) : Z := Qfloor x.
Definition ceil (x : Q) : Z := Qceiling x.

(** Rounding towards zero, and [x % 1], whose sign is that of [x]. *)
Definition trunc (x : Q) : Z := if Qle_bool 0 x then Qfloor x else Qceiling x.
Definition rem1 (x : Q) : Q := (x - inject_Z (trunc x))%Q.

(** [arr.slice(start, end)] for indices that are not negative: the
    elements from [start] up to, not including, [end], clipped to the array. *)
Definition slice {A : Type} (start end_ : nat) (l : list A) : list A :=
  firstn (end_ - start) (skipn start l).

(** [for (let i = 0; i < arr.length; i++) { ... arr[i] ... }], collecting
    what the body computes from [i] and [arr[i]]. *)
Fixpoint mapiFrom {A B : Type} (i : nat) (f : nat -> A -> B) (l : list A) : list B :=
  match l with
  | [] => []
  | a :: l' => f i a :: mapiFrom (S i) f l'
  end.
Definition mapi {A B : Type} (f : nat -> A -> B) (l : list A) : list B :=
  mapiFrom 0 f l.

(** [s.slice(0, -1)]: the string without its last code unit. *)
Definition dropLast (s : string) : string :=
  substring 0 (String.length s - 1) s.

(** [s.substring(1)]. *)
Definition substringFrom1 (s : string) : string :=
  match s with
  | EmptyString => EmptyString
  | String _ rest => rest
  end.

(** [arr.join(sep)] on strings. *)
Fixpoint join (sep : string) (l : list string) : string :=
  match l with
  | [] => ""
  | [s] => s
  | s :: rest => s ++ sep ++ join sep rest
  end.

(** The decimal digits of an integer that is not negative. *)
Definition digitChar (d : Z) : ascii := ascii_of_nat (48 + Z.to_nat d).

Equations? digits (n : Z) : string by wf (Z.to_nat n) lt :=
  digits n with inspect (n <? 10)%Z := {
    | exist _ true _ := String (digitChar n) "";
    | exist _ false _ := digits (n / 10) ++ String (digitChar (n mod 10)) "" }.
Proof.
  apply Z.ltb_ge in e.
  assert (n / 10 < n)%Z by (apply Z.div_lt; lia).
  assert (0 <= n / 10)%Z by (apply Z.div_pos; lia).
  lia.
Qed.

(** [n.toString()] and [`${n}`] for an integer [n] below 2^53 in absolute
    value, the range in which a double holds every integer and prints all
    its digits. From 2^53 on JavaScript prints the shortest digits that read
    back as the same double, padded with zeros, and from 10^21 on an
    exponent: that range is outside the model, and the properties that
    depend on the digits are stated below 2^53. *)
Definition toStringZ (n : Z) : string :=
  if (n <? 0)%Z then "-" ++ digits (- n) else digits n.

(** [x.toFixed(2)] (ECMAScript, Number.prototype.toFixed, for |x| < 10^21):
    [n] is the integer for which [n / 100 - x] is closest to zero, the
    larger one when there are two; its digits are padded with zeros to three
    and the separator is put before the last two. *)
Fixpoint zeros (k : nat) : string :=
  match k with
  | O => ""
  | S k' => String "0" (zeros k')
  end.

Definition fixed2 (n : Z) : string :=
  let m := if (n =? 0)%Z then "0" else digits n in
  let k := String.length m in
  let m := if k <=? 2 then zeros (3 - k) ++ m else m in
  let k := String.length m in
  substring 0 (k - 2) m ++ "." ++ substring (k - 2) 2 m.

Definition toFixed2 (x : Q) : string :=
  let s := if Qle_bool 0 x then "" else "-" in
  let a := if Qle_bool 0 x then x else (- x)%Q in
  let n := Qfloor (a * 100 + (1 # 2))%Q in
  s ++ fixed2 n.

(** White space and line terminators among the code units below 256, and
    [s.trim()]. *)
Definition isWhiteSpace (c : ascii) : bool :=
  let n := nat_of_ascii c in
  ((9 <=? n) && (n <=? 13)) || (n =? 32) || (n =? 160).

Fixpoint trimStart (s : string) : string :=
  match s with
  | String c rest => if isWhiteSpace c then trimStart rest else s
  | EmptyString => EmptyString
  end.

Fixpoint revString (acc s : string) : string :=
  match s with
  | EmptyString => acc
  | String c rest => revString (String c acc) rest
  end.

Definition trim (s : string) : string :=
  revString "" (trimStart (revString "" (trimStart s))).

(** [parseInt(s)] without a radix: leading white space, a sign, the prefix
    0x or 0X for radix 16, then the longest run of digits; [None] is NaN.
    The result is the integer the digits denote. It is the number
    JavaScript returns as long as it is below 2^53 in absolute value; beyond
    that JavaScript rounds it to a double (of the same sign, never zero, and
    infinite on overflow), which is outside the model: the properties that
    depend on the value read are stated below 2^53. *)
Definition digitValue (radix : Z) (c : ascii) : option Z :=
  let n := Z.of_nat (nat_of_ascii c) in
  let v :=
    if (48 <=? n)%Z && (n <=? 57)%Z then Some (n - 48)%Z
    else if (97 <=? n)%Z && (n <=? 122)%Z then Some (n - 87)%Z
    else if (65 <=? n)%Z && (n <=? 90)%Z then Some (n - 55)%Z
    else None in
  match v with
  | Some d => if (d <? radix)%Z then Some d else None
  | None => None
  end.

Fixpoint parseDigits (radix : Z) (acc : option Z) (s : string) : option Z :=
  match s with
  | String c rest =>
      match digitValue radix c with
      | Some d =>
          parseDigits radix
            (Some (match acc with Some a => a * radix + d | None => d end)%Z) rest
      | None => acc
      end
  | EmptyString => acc
  end.

Definition parseInt (input : string) : option Z :=
  let s := trimStart input in
  let '(sign, s) :=
    match s with
    | String "-" rest => ((-1)%Z, rest)
    | String "+" rest => (1%Z, rest)
    | _ => (1%Z, s)
    end in
  let '(radix, s) :=
    match s with
    | String "0" (String "x" rest) => (16%Z, rest)
    | String "0" (String "X" rest) => (16%Z, rest)
    | _ => (10%Z, s)
    end in
  match parseDigits radix None s with
  | Some n => Some (sign * n)%Z
  | None => None
  end.

(** [arr.indexOf(x)]: the first index whose element is strictly equal to
    [x], or -1. *)
Fixpoint indexOfFrom {A : Type} (same : A -> bool) (i : Z) (l : list A) : Z :=
  match l with
  | [] => (-1)%Z
  | a :: l' => if same a then i else indexOfFrom same (i + 1)%Z l'
  end.
Definition indexOf {A : Type} (same : A -> bool) (l : list A) : Z :=
  indexOfFrom same 0%Z l.

End JS.

(** ** src/types/product.ts *)

Module Product.
Record t : Type := mk {
  codebar : string;
  qte : Z;
  prix : Q;
  designation : string;
  reference : string;
  image : option string
}.
End Product.

Module ColumnMapping.
Record t : Type := mk {
  codebar : string;
  qte : string;
  prix : string;
  designation : string;
  reference : string
}.
End ColumnMapping.

(** ** The truncation of a text to a width (pdfGenerator.ts, [drawLabelToPDF])

<<
    const designationWidth = pdf.getTextWidth(designation);
    if (designationWidth > maxDesignationWidth) {
      while (pdf.getTextWidth(designation + '...') > maxDesignationWidth
             && designation.length > 0) {
        designation = designation.slice(0, -1);
      }
      designation += '...';
    }
>>
    The text measurement of the backend and the width are the parameters. *)

Definition ellipsis : string := "...".

Section TextFitter.

Variable measure : string -> Q.
Variable maxWidth : Q.

Definition loopCond (d : string) : bool :=
  JS.gt (measure (d ++ ellipsis)) maxWidth && (0 <? String.length d).

Equations? truncateLoop (d : string) : string by wf (String.length d) lt :=
  truncateLoop d with inspect (loopCond d) := {
    | exist _ true e := truncateLoop (JS.dropLast d);
    | exist _ false _ := d }.
Proof.
  unfold loopCond in e. apply andb_prop in e. destruct e as [_ e].
  apply Nat.ltb_lt in e. unfold JS.dropLast.
  assert (L : forall n s, n <= String.length s ->
              String.length (substring 0 n s) = n).
  { induction n; destruct s; simpl; intros; try lia.
    rewrite IHn by lia. reflexivity. }
  rewrite L; lia.
Qed.

Definition fitText (text : string) : string :=
  if JS.gt (measure text) maxWidth
  then truncateLoop text ++ ellipsis
  else text.

(** The text to display with its measured width. *)
Definition fit (text : string) : string * Q :=
  let displayString := fitText text in
  (displayString, measure displayString).

End TextFitter.

(** ** The price shown as a large integer and a small decimal part
    (branded variant of [drawLabelToPDF])

<<
    const priceNumber = Math.floor(product.prix).toString();
    ...
    if (product.prix % 1 !== 0) {
      const decimal = (product.prix % 1).toFixed(2).substring(1);
>>  *)

Definition priceNumber (prix : Q) : string := JS.toStringZ (JS.floor prix).

Definition hasDecimal (prix : Q) : bool := negb (Qeq_bool (JS.rem1 prix) 0).

Definition decimal (prix : Q) : string :=
  JS.substringFrom1 (JS.toFixed2 (JS.rem1 prix)).

Record PriceParts : Type := {
  integerPart : string;
  hasFraction : bool;
  fractionPart : string
}.

(** The three parts; no decimal part is computed or drawn for a whole price. *)
Definition decompose (prix : Q) : PriceParts :=
  {| integerPart := priceNumber prix;
     hasFraction := hasDecimal prix;
     fractionPart := if hasDecimal prix then decimal prix else "" |}.

(** The price text of the compact label: [`${product.prix.toFixed(2)} €`]
    without its suffix. *)
Definition priceFixed (prix : Q) : string := JS.toFixed2 prix.

(** ** src/utils/excelParser.ts *)

(** A cell of the sheet as the reader delivers it ([any]): a hole or
    [undefined], [null], a string, a number or a boolean. *)
Inductive Cell : Type :=
| CUndefined
| CNull
| CString (s : string)
| CNumber (x : Q)
| CBoolean (b : bool).

(** [cell === s] for a string [s]. *)
Definition strictEqString (s : string) (cell : Cell) : bool :=
  match cell with
  | CString t => String.eqb t s
  | _ => false
  end.

(** The truth value of a cell, as [||] and [!] take it. *)
Definition truthy (cell : Cell) : bool :=
  match cell with
  | CUndefined | CNull => false
  | CString s => negb (String.eqb s "")
  | CNumber x => negb (Qeq_bool x 0)
  | CBoolean b => b
  end.

(** [cell || dflt] for a string [dflt]. *)
Definition orString (cell : Cell) (dflt : string) : Cell :=
  if truthy cell then cell else CString dflt.

(** [row[i]]: [undefined] outside the row. *)
Definition cellAt (row : list Cell) (i : Z) : Cell :=
  if (i <? 0)%Z then CUndefined else nth (Z.to_nat i) row CUndefined.

(** [cell !== null && cell !== undefined && cell !== ''] *)
Definition hasContent (cell : Cell) : bool :=
  match cell with
  | CNull | CUndefined => false
  | CString s => negb (String.eqb s "")
  | _ => true
  end.

(** What a call returns or throws. *)
Inductive Result (A : Type) : Type :=
| Ok (value : A)
| Throw (message : string).
Arguments Ok {A} value.
Arguments Throw {A} message.

(** The object [indices], with its keys in the order they are written. *)
Inductive Key : Type := Kcodebar | Kqte | Kprix | Kdesignation | Kreference.

Record Indices : Type := {
  i_codebar : Z;
  i_qte : Z;
  i_prix : Z;
  i_designation : Z;
  i_reference : Z
}.

(** [Object.entries(indices)] *)
Definition entries (indices : Indices) : list (Key * Z) :=
  [ (Kcodebar, i_codebar indices); (Kqte, i_qte indices);
    (Kprix, i_prix indices); (Kdesignation, i_designation indices);
    (Kreference, i_reference indices) ]%list.

(** [mapping[key as keyof ColumnMapping]] *)
Definition mappingGet (mapping : ColumnMapping.t) (key : Key) : string :=
  match key with
  | Kcodebar => ColumnMapping.codebar mapping
  | Kqte => ColumnMapping.qte mapping
  | Kprix => ColumnMapping.prix mapping
  | Kdesignation => ColumnMapping.designation mapping
  | Kreference => ColumnMapping.reference mapping
  end.

Definition findIndices (headers : list Cell) (mapping : ColumnMapping.t) : Indices :=
  {| i_codebar := JS.indexOf (strictEqString (ColumnMapping.codebar mapping)) headers;
     i_qte := JS.indexOf (strictEqString (ColumnMapping.qte mapping)) headers;
     i_prix := JS.indexOf (strictEqString (ColumnMapping.prix mapping)) headers;
     i_designation :=
       JS.indexOf (strictEqString (ColumnMapping.designation mapping)) headers;
     i_reference :=
       JS.indexOf (strictEqString (ColumnMapping.reference mapping)) headers |}.

Definition missingColumns (indices : Indices) (mapping : ColumnMapping.t) : list string :=
  map (fun entry => mappingGet mapping (fst entry))
      (filter (fun entry => (snd entry =? -1)%Z) (entries indices)).

(** The rows kept by the first [filter]. *)
Definition nonEmptyRow (row : list Cell) : bool :=
  (0 <? List.length row) && existsb hasContent row.

(** Keeps what the last [filter] keeps: the results that are not [null]. *)
Fixpoint notNull {A : Type} (l : list (option A)) : list A :=
  match l with
  | [] => []
  | Some a :: rest => a :: notNull rest
  | None :: rest => notNull rest
  end%list.

Section ExcelParser.

(** Two built-ins are taken as they are: [parseFloat], with [None] for
    NaN, and the conversion of a number to a string, [String(x)]. *)
Variable parseFloat : string -> option Q.
Variable numberToString : Q -> string.

(** [String(cell)] *)
Definition toStr (cell : Cell) : string :=
  match cell with
  | CUndefined => "undefined"
  | CNull => "null"
  | CString s => s
  | CNumber x => numberToString x
  | CBoolean true => "true"
  | CBoolean false => "false"
  end.

(** [parseInt(String(cell || '1')) || 1] *)
Definition parseQte (cell : Cell) : Z :=
  match JS.parseInt (toStr (orString cell "1")) with
  | Some n => if (n =? 0)%Z then 1%Z else n
  | None => 1%Z
  end.

(** [parseFloat(String(cell || '0')) || 0] *)
Definition parsePrix (cell : Cell) : Q :=
  match parseFloat (toStr (orString cell "0")) with
  | Some x => if Qeq_bool x 0 then 0%Q else x
  | None => 0%Q
  end.

(** The body of the [map] over the rows: a product, or [null] for a row
    that lacks its reference, its barcode or its designation. *)
Definition rowToProduct (indices : Indices) (imageFiles : string -> option string)
    (row : list Cell) : option Product.t :=
  let reference := JS.trim (toStr (orString (cellAt row (i_reference indices)) "")) in
  let codebar := JS.trim (toStr (orString (cellAt row (i_codebar indices)) "")) in
  let designation :=
    JS.trim (toStr (orString (cellAt row (i_designation indices)) "")) in
  let qte := parseQte (cellAt row (i_qte indices)) in
  let prix := parsePrix (cellAt row (i_prix indices)) in
  if String.eqb reference "" || String.eqb codebar "" || String.eqb designation ""
  then None
  else Some {| Product.reference := reference;
               Product.codebar := codebar;
               Product.designation := designation;
               Product.qte := qte;
               Product.prix := prix;
               Product.image := imageFiles reference |}.

Definition mapDataToProducts (data : list (list Cell)) (mapping : ColumnMapping.t)
    (imageFiles : string -> option string) : Result (list Product.t) :=
  if List.length data <? 2 then Ok []%list
  else
    let headers := nth 0 data []%list in
    let dataRows := skipn 1 data in
    let indices := findIndices headers mapping in
    let missing := missingColumns indices mapping in
    if 0 <? List.length missing
    then Throw ("Missing columns: " ++ JS.join ", " missing)
    else Ok (notNull (map (rowToProduct indices imageFiles)
                          (filter nonEmptyRow dataRows))).

End ExcelParser.

(** ** src/utils/pdfGenerator.ts: the grid *)

Definition LABELS_PER_ROW : nat := 3.
Definition LABELS_PER_COLUMN : nat := 8.
Definition LABELS_PER_PAGE : nat := LABELS_PER_ROW * LABELS_PER_COLUMN.

Definition ofNat (n : nat) : Q := inject_Z (Z.of_nat n).

(** A4 in millimetres, and a label of 70 mm by 36 mm. *)
Definition PAGE_WIDTH : Q := 210.
Definition PAGE_HEIGHT : Q := 297.
Definition LABEL_WIDTH : Q := 70.
Definition LABEL_HEIGHT : Q := 36.

Definition MARGIN_X : Q := ((PAGE_WIDTH - ofNat LABELS_PER_ROW * LABEL_WIDTH) / 2)%Q.
Definition MARGIN_Y : Q := ((PAGE_HEIGHT - ofNat LABELS_PER_COLUMN * LABEL_HEIGHT) / 2)%Q.

(** What one turn of the inner loop of [generatePDF] computes before it
    draws: the product, its cell and the corner of the cell. *)
Module Placement.
Record t (A : Type) : Type := mk {
  product : A;
  row : nat;
  col : nat;
  x : Q;
  y : Q
}.
Arguments mk {A} product row col x y.
Arguments product {A} _.
Arguments row {A} _.
Arguments col {A} _.
Arguments x {A} _.
Arguments y {A} _.
End Placement.

Section Layout.

Variable A : Type.

(** [Math.ceil(products.length / LABELS_PER_PAGE)] *)
Definition totalPages (products : list A) : nat :=
  Z.to_nat (JS.ceil (ofNat (List.length products) / ofNat LABELS_PER_PAGE)%Q).

(** [products.slice(startIndex, endIndex)] of the page. *)
Definition pageProducts (products : list A) (page : nat) : list A :=
  let startIndex := page * LABELS_PER_PAGE in
  let endIndex := Nat.min (startIndex + LABELS_PER_PAGE) (List.length products) in
  JS.slice startIndex endIndex products.

(** The inner loop, over the products of one page. *)
Definition placePage (products : list A) : list (Placement.t A) :=
  JS.mapi
    (fun i product =>
       let row := i / LABELS_PER_ROW in
       let col := i mod LABELS_PER_ROW in
       let x := (MARGIN_X + ofNat col * LABEL_WIDTH)%Q in
       let y := (MARGIN_Y + ofNat row * LABEL_HEIGHT)%Q in
       Placement.mk product row col x y)
    products.

(** The outer loop: the pages, each with its placements in order. *)
Definition layoutPages (products : list A) : list (list (Placement.t A)) :=
  map (fun page => placePage (pageProducts products page))
      (seq 0 (totalPages products)).

End Layout.

Arguments totalPages {A} products.
Arguments pageProducts {A} products page.
Arguments placePage {A} products.
Arguments layoutPages {A} products.

(** ** src/utils/pdfGenerator.ts: the document *)

Record Color : Type := RGB { red : Z; green : Z; blue : Z }.

Record Font : Type := {
  fontName : string;
  fontStyle : string;
  fontSize : Q
}.

(** What ends up in the document: each item with the colours, the line width
    and the font that were current when it was drawn. *)
Inductive Item : Type :=
| StrokedRect (x y w h : Q) (stroke : Color) (strokeWidth : Q)
| FilledRect (x y w h : Q) (fill : Color)
| TextAt (text : string) (x y : Q) (font : Font) (color : Color)
| ImageAt (data format : string) (x y w h : Q)
| NewPage
| SavedAs (filename : string).

(** The jsPDF object: its graphics state and the items drawn so far; with
    it, the messages [console.error] has written. *)
Record Pdf : Type := {
  drawColor : Color;
  lineWidth : Q;
  fillColor : Color;
  textColor : Color;
  font : Font;
  items : list Item;
  errors : list string
}.

(** [new jsPDF()]: a first page, black ink, Helvetica at 16 points. *)
Definition jsPDF : Pdf :=
  {| drawColor := RGB 0 0 0;
     lineWidth := 200025 # 1000000;
     fillColor := RGB 0 0 0;
     textColor := RGB 0 0 0;
     font := {| fontName := "helvetica"; fontStyle := "normal"; fontSize := 16 |};
     items := [];
     errors := [] |}.

Definition setDrawColor (r g b : Z) (pdf : Pdf) : Pdf :=
  {| drawColor := RGB r g b; lineWidth := lineWidth pdf; fillColor := fillColor pdf;
     textColor := textColor pdf; font := font pdf; items := items pdf;
     errors := errors pdf |}.

Definition setLineWidth (w : Q) (pdf : Pdf) : Pdf :=
  {| drawColor := drawColor pdf; lineWidth := w; fillColor := fillColor pdf;
     textColor := textColor pdf; font := font pdf; items := items pdf;
     errors := errors pdf |}.

Definition setFillColor (r g b : Z) (pdf : Pdf) : Pdf :=
  {| drawColor := drawColor pdf; lineWidth := lineWidth pdf; fillColor := RGB r g b;
     textColor := textColor pdf; font := font pdf; items := items pdf;
     errors := errors pdf |}.

Definition setTextColor (r g b : Z) (pdf : Pdf) : Pdf :=
  {| drawColor := drawColor pdf; lineWidth := lineWidth pdf; fillColor := fillColor pdf;
     textColor := RGB r g b; font := font pdf; items := items pdf;
     errors := errors pdf |}.

Definition setFontSize (size : Q) (pdf : Pdf) : Pdf :=
  {| drawColor := drawColor pdf; lineWidth := lineWidth pdf; fillColor := fillColor pdf;
     textColor := textColor pdf;
     font := {| fontName := fontName (font pdf); fontStyle := fontStyle (font pdf);
                fontSize := size |};
     items := items pdf; errors := errors pdf |}.

Definition setFont (name style : string) (pdf : Pdf) : Pdf :=
  {| drawColor := drawColor pdf; lineWidth := lineWidth pdf; fillColor := fillColor pdf;
     textColor := textColor pdf;
     font := {| fontName := name; fontStyle := style; fontSize := fontSize (font pdf) |};
     items := items pdf; errors := errors pdf |}.

Definition draw (item : Item) (pdf : Pdf) : Pdf :=
  {| drawColor := drawColor pdf; lineWidth := lineWidth pdf; fillColor := fillColor pdf;
     textColor := textColor pdf; font := font pdf;
     items := (items pdf ++ [item])%list; errors := errors pdf |}.

(** [pdf.rect(x, y, w, h)] strokes, [pdf.rect(x, y, w, h, 'F')] fills. *)
Definition rect (x y w h : Q) (pdf : Pdf) : Pdf :=
  draw (StrokedRect x y w h (drawColor pdf) (lineWidth pdf)) pdf.

Definition rectF (x y w h : Q) (pdf : Pdf) : Pdf :=
  draw (FilledRect x y w h (fillColor pdf)) pdf.

Definition text (s : string) (x y : Q) (pdf : Pdf) : Pdf :=
  draw (TextAt s x y (font pdf) (textColor pdf)) pdf.

Definition addImage (data format : string) (x y w h : Q) (pdf : Pdf) : Pdf :=
  draw (ImageAt data format x y w h) pdf.

Definition addPage (pdf : Pdf) : Pdf := draw NewPage pdf.

Definition save (filename : string) (pdf : Pdf) : Pdf := draw (SavedAs filename) pdf.

Definition consoleError (message : string) (pdf : Pdf) : Pdf :=
  {| drawColor := drawColor pdf; lineWidth := lineWidth pdf; fillColor := fillColor pdf;
     textColor := textColor pdf; font := font pdf; items := items pdf;
     errors := (errors pdf ++ [message])%list |}.

(** What the canvas gives for a product image: no 2D context, an exception
    on the way to the document, or the JPEG data. *)
Inductive CanvasResult : Type :=
| NoContext
| CanvasThrew
| Encoded (imageData : string).

(** The input JsBarcode accepts for CODE128: not empty, every code unit in
    0..127 or 200..211. *)
Definition code128Char (c : ascii) : bool :=
  let n := nat_of_ascii c in
  (n <=? 127) || ((200 <=? n) && (n <=? 211)).

Fixpoint allChars (p : ascii -> bool) (s : string) : bool :=
  match s with
  | EmptyString => true
  | String c rest => p c && allChars p rest
  end.

Definition code128Valid (s : string) : bool :=
  negb (String.eqb s "") && allChars code128Char s.

(** The euro sign and the e acute of the captions, one code unit each. *)
Definition euro : string := String (ascii_of_nat 128) "".
Definition eacute : string := String (ascii_of_nat 233) "".

Definition helvetica (style : string) (size : Q) : Font :=
  {| fontName := "helvetica"; fontStyle := style; fontSize := size |}.

Section PdfGenerator.

(** The browser and jsPDF, as far as the drawing depends on them: the
    images and their sizes, the width jsPDF measures for a text in a font,
    what the canvas makes of an image drawn at an offset and a size, and the
    PNG JsBarcode renders for a code. *)
Variable HTMLImageElement : Type.
Variable imageWidth imageHeight : HTMLImageElement -> Q.
Variable stringWidth : Font -> string -> Q.
Variable canvasToJPEG : HTMLImageElement -> Q -> Q -> Q -> Q -> CanvasResult.
Variable barcodePNG : string -> string.

(** [pdf.getTextWidth(s)] *)
Definition getTextWidth (pdf : Pdf) (s : string) : Q := stringWidth (font pdf) s.

(** [JsBarcode(canvas, code, {format: "CODE128", ...})] then
    [canvas.toDataURL('image/png')]; [None] when JsBarcode throws. *)
Definition JsBarcode (code : string) : option string :=
  if code128Valid code then Some (barcodePNG code) else None.

Definition drawPlaceholderImage (pdf : Pdf) (x y size : Q) : Pdf :=
  let pdf := setFillColor 243 244 246 pdf in
  let pdf := rectF x y size size pdf in
  let pdf := setFontSize 6 pdf in
  let pdf := setFont "helvetica" "normal" pdf in
  let pdf := setTextColor 156 163 175 pdf in
  let text_ := "No Image" in
  let textWidth := getTextWidth pdf text_ in
  text text_ (x + (size - textWidth) / 2)%Q (y + size / 2)%Q pdf.

Definition padding : Q := 2.
Definition imageSize : Q := 15.
Definition contentWidth : Q := (LABEL_WIDTH - padding * 2)%Q.
Definition textWidth : Q := (contentWidth - imageSize - 2)%Q.
Definition maxDesignationWidth : Q := (textWidth - 15)%Q.

(** The canvas part of the [try] block: the image is drawn centred on a
    canvas of three times the size of its slot, its proportions kept, and
    the canvas is read back as JPEG data. *)
Definition productImageData (productImage : HTMLImageElement) : CanvasResult :=
  let canvasWidth := (imageSize * 3)%Q in
  let canvasHeight := (imageSize * 3)%Q in
  let aspectRatio := (imageWidth productImage / imageHeight productImage)%Q in
  let drawWidth :=
    if JS.gt aspectRatio 1 then canvasWidth else (canvasHeight * aspectRatio)%Q in
  let drawHeight :=
    if JS.gt aspectRatio 1 then (canvasWidth / aspectRatio)%Q else canvasHeight in
  let offsetX := ((canvasWidth - drawWidth) / 2)%Q in
  let offsetY := ((canvasHeight - drawHeight) / 2)%Q in
  canvasToJPEG productImage offsetX offsetY drawWidth drawHeight.

Definition drawLabelToPDF (pdf : Pdf) (product : Product.t) (x y : Q)
    (imageCache : string -> option HTMLImageElement) : Pdf :=
  (* Label border *)
  let pdf := setDrawColor 229 231 235 pdf in
  let pdf := setLineWidth (1 # 10) pdf in
  let pdf := rect x y LABEL_WIDTH LABEL_HEIGHT pdf in
  let contentX := (x + padding)%Q in
  let contentY := (y + padding)%Q in
  (* Product image *)
  let pdf :=
    match imageCache (Product.reference product) with
    | Some productImage =>
        match productImageData productImage with
        | NoContext => pdf
        | Encoded imageData =>
            addImage imageData "JPEG" contentX contentY imageSize imageSize pdf
        | CanvasThrew =>
            let pdf := consoleError "Error adding product image to PDF:" pdf in
            drawPlaceholderImage pdf contentX contentY imageSize
        end
    | None => drawPlaceholderImage pdf contentX contentY imageSize
    end in
  (* Text content area *)
  let textStartX := (contentX + imageSize + 2)%Q in
  (* Product designation *)
  let pdf := setFontSize 10 pdf in
  let pdf := setFont "helvetica" "bold" pdf in
  let pdf := setTextColor 17 24 39 pdf in
  let designation :=
    fitText (getTextWidth pdf) maxDesignationWidth (Product.designation product) in
  let pdf := text designation textStartX (contentY + 4)%Q pdf in
  (* Reference *)
  let pdf := setFontSize 7 pdf in
  let pdf := setFont "helvetica" "normal" pdf in
  let pdf := setTextColor 107 114 128 pdf in
  let pdf := text ("Ref: " ++ Product.reference product) textStartX (contentY + 8)%Q pdf in
  (* Price *)
  let pdf := setFontSize 12 pdf in
  let pdf := setFont "helvetica" "bold" pdf in
  let pdf := setTextColor 220 38 38 pdf in
  let priceText := priceFixed (Product.prix product) ++ " " ++ euro in
  let priceWidth := getTextWidth pdf priceText in
  let pdf := text priceText (x + LABEL_WIDTH - padding - priceWidth)%Q (contentY + 4)%Q pdf in
  (* Quantity (if > 1) *)
  let pdf :=
    if (1 <? Product.qte product)%Z then
      let pdf := setFontSize 7 pdf in
      let pdf := setFont "helvetica" "normal" pdf in
      let pdf := setTextColor 107 114 128 pdf in
      let qtyText := "Qt" ++ eacute ++ ": " ++ JS.toStringZ (Product.qte product) in
      let qtyWidth := getTextWidth pdf qtyText in
      text qtyText (x + LABEL_WIDTH - padding - qtyWidth)%Q (contentY + 8)%Q pdf
    else pdf in
  (* Barcode *)
  match JsBarcode (Product.codebar product) with
  | Some barcodeData =>
      let barcodeWidth := (contentWidth - 4)%Q in
      let barcodeHeight := 6%Q in
      let barcodeY := (y + LABEL_HEIGHT - padding - barcodeHeight - 2)%Q in
      let pdf :=
        addImage barcodeData "PNG" (contentX + 2)%Q barcodeY barcodeWidth barcodeHeight pdf in
      (* Barcode text *)
      let pdf := setFontSize 6 pdf in
      let pdf := setFont "helvetica" "normal" pdf in
      let pdf := setTextColor 55 65 81 pdf in
      let codeWidth := getTextWidth pdf (Product.codebar product) in
      text (Product.codebar product) (x + (LABEL_WIDTH - codeWidth) / 2)%Q
           (y + LABEL_HEIGHT - 1)%Q pdf
  | None => consoleError "Error generating barcode for PDF:" pdf
  end.

Definition generatePDF (products : list Product.t)
    (imageCache : string -> option HTMLImageElement) : Pdf :=
  let pdf := jsPDF in
  let pdf :=
    fold_left
      (fun pdf page =>
         let pdf := if 0 <? page then addPage pdf else pdf in
         fold_left
           (fun pdf placement =>
              drawLabelToPDF pdf (Placement.product placement)
                (Placement.x placement) (Placement.y placement) imageCache)
           (placePage (pageProducts products page)) pdf)
      (seq 0 (totalPages products)) pdf in
  save "price-labels.pdf" pdf.

End PdfGenerator.

(** ** The notions the properties are stated with *)

(** [p] is a prefix of [s]. *)
Definition isPrefix (p s : string) : Prop := exists rest, s = p ++ rest.

(** A decimal digit, and the two digits of a count of cents below 100. *)
Definition isDigit (c : ascii) : Prop := 48 <= nat_of_ascii c <= 57.

Definition twoDigits (n : Z) : string :=
  String (JS.digitChar (n / 10)) (String (JS.digitChar (n mod 10)) "").

(** The cents the fraction of a price is rounded to, from 0 to 100. *)
Definition cents (prix : Q) : Z :=
  Qfloor ((prix - inject_Z (Qfloor prix)) * 100 + (1 # 2))%Q.

(** The cell of a placement, the cells of a page, and the cell of the
    [i]-th product of a page. *)
Definition cellOf {A : Type} (placement : Placement.t A) : nat * nat :=
  (Placement.row placement, Placement.col placement).

Definition cells {A : Type} (page : list (Placement.t A)) : list (nat * nat) :=
  map cellOf page.

Definition cellOfIndex (i : nat) : nat * nat :=
  (i / LABELS_PER_ROW, i mod LABELS_PER_ROW).

(** The two items that make the barcode of a label: the PNG image, and the
    caption, the one text in its colour. *)
Definition isBarcodeItem (item : Item) : bool :=
  match item with
  | ImageAt _ format _ _ _ _ => String.eqb format "PNG"
  | TextAt _ _ _ _ (RGB r g b) => ((r =? 55) && (g =? 65) && (b =? 81))%Z
  | _ => false
  end.

(** The items each step of [drawLabelToPDF] adds to the document for a
    product in the cell at [(x, y)], and from them the items of a page and
    of the whole document. *)
Section LabelItems.

Variable HTMLImageElement : Type.
Variable imageWidth imageHeight : HTMLImageElement -> Q.
Variable stringWidth : Font -> string -> Q.
Variable canvasToJPEG : HTMLImageElement -> Q -> Q -> Q -> Q -> CanvasResult.
Variable barcodePNG : string -> string.

Definition borderItems (x y : Q) : list Item :=
  [StrokedRect x y LABEL_WIDTH LABEL_HEIGHT (RGB 229 231 235) (1 # 10)]%list.

Definition placeholderItems (x y size : Q) : list Item :=
  [FilledRect x y size size (RGB 243 244 246);
   TextAt "No Image"
     (x + (size - stringWidth (helvetica "normal" 6) "No Image") / 2)%Q
     (y + size / 2)%Q (helvetica "normal" 6) (RGB 156 163 175)]%list.

Definition imageItems (product : Product.t) (x y : Q)
    (imageCache : string -> option HTMLImageElement) : list Item :=
  match imageCache (Product.reference product) with
  | Some productImage =>
      match productImageData HTMLImageElement imageWidth imageHeight canvasToJPEG
              productImage with
      | NoContext => []
      | Encoded imageData =>
          [ImageAt imageData "JPEG" (x + padding)%Q (y + padding)%Q imageSize imageSize]
      | CanvasThrew => placeholderItems (x + padding)%Q (y + padding)%Q imageSize
      end
  | None => placeholderItems (x + padding)%Q (y + padding)%Q imageSize
  end%list.

Definition designationItems (product : Product.t) (x y : Q) : list Item :=
  [TextAt
     (fitText (stringWidth (helvetica "bold" 10)) maxDesignationWidth
        (Product.designation product))
     (x + padding + imageSize + 2)%Q (y + padding + 4)%Q
     (helvetica "bold" 10) (RGB 17 24 39)]%list.

Definition referenceItems (product : Product.t) (x y : Q) : list Item :=
  [TextAt ("Ref: " ++ Product.reference product)
     (x + padding + imageSize + 2)%Q (y + padding + 8)%Q
     (helvetica "normal" 7) (RGB 107 114 128)]%list.

Definition priceItems (product : Product.t) (x y : Q) : list Item :=
  [TextAt (priceFixed (Product.prix product) ++ " " ++ euro)
     (x + LABEL_WIDTH - padding
      - stringWidth (helvetica "bold" 12)
          (priceFixed (Product.prix product) ++ " " ++ euro))%Q
     (y + padding + 4)%Q (helvetica "bold" 12) (RGB 220 38 38)]%list.

Definition quantityItems (product : Product.t) (x y : Q) : list Item :=
  if (1 <? Product.qte product)%Z
  then
    [TextAt ("Qt" ++ eacute ++ ": " ++ JS.toStringZ (Product.qte product))
       (x + LABEL_WIDTH - padding
        - stringWidth (helvetica "normal" 7)
            ("Qt" ++ eacute ++ ": " ++ JS.toStringZ (Product.qte product)))%Q
       (y + padding + 8)%Q (helvetica "normal" 7) (RGB 107 114 128)]%list
  else []%list.

Definition barcodeItems (product : Product.t) (x y : Q) (barcodeData : string)
    : list Item :=
  [ImageAt barcodeData "PNG" (x + padding + 2)%Q
     (y + LABEL_HEIGHT - padding - 6 - 2)%Q (contentWidth - 4)%Q 6;
   TextAt (Product.codebar product)
     (x + (LABEL_WIDTH
           - stringWidth (helvetica "normal" 6) (Product.codebar product)) / 2)%Q
     (y + LABEL_HEIGHT - 1)%Q (helvetica "normal" 6) (RGB 55 65 81)]%list.

(** All of a label but its barcode. *)
Definition labelBody (product : Product.t) (x y : Q)
    (imageCache : string -> option HTMLImageElement) : list Item :=
  (borderItems x y ++ imageItems product x y imageCache
   ++ designationItems product x y ++ referenceItems product x y
   ++ priceItems product x y ++ quantityItems product x y)%list.

Definition labelItems (product : Product.t) (x y : Q)
    (imageCache : string -> option HTMLImageElement) : list Item :=
  (labelBody product x y imageCache ++
   match JsBarcode barcodePNG (Product.codebar product) with
   | Some barcodeData => barcodeItems product x y barcodeData
   | None => []
   end)%list.

(** The items of a page and of the document: a page break before every
    page but the first, the labels of the placements in order, and the
    saving of the file. *)
Definition pageItems (products : list Product.t)
    (imageCache : string -> option HTMLImageElement) (page : nat) : list Item :=
  ((if 0 <? page then [NewPage] else []) ++
   List.concat
     (map (fun placement =>
             labelItems (Placement.product placement) (Placement.x placement)
               (Placement.y placement) imageCache)
          (placePage (pageProducts products page))))%list.

Definition documentItems (products : list Product.t)
    (imageCache : string -> option HTMLImageElement) : list Item :=
  (List.concat (map (pageItems products imageCache) (seq 0 (totalPages products)))
   ++ [SavedAs "price-labels.pdf"])%list.

End LabelItems.

(** ** The samples of the examples *)

(** Two measurements: every code unit one unit wide; and five dots the one
    narrow string. *)
Definition unitWidth (s : string) : Q := ofNat (String.length s).

Definition oddWidth (s : string) : Q := if String.eqb s "....." then 0 else 10.

(** The sheets of the examples hold strings only, so that [String(x)] is
    never asked for a number, and the one price text they hold is "2.50",
    which [parseFloat] reads as 2.5. No image file is given. *)
Definition noNumbers (x : Q) : string := "".
Definition parseFloatSample (s : string) : option Q :=
  if String.eqb s "2.50" then Some (5 # 2)%Q else None.
Definition noImages (reference : string) : option string := None.

(** Headers A and B under a mapping to the columns A to E. *)
Definition headersAB : list Cell := [CString "A"; CString "B"]%list.

Definition mappingABCDE : ColumnMapping.t :=
  {| ColumnMapping.codebar := "A"; ColumnMapping.qte := "B";
     ColumnMapping.prix := "C"; ColumnMapping.designation := "D";
     ColumnMapping.reference := "E" |}.

(** A sheet with all its columns: a row with the quantity "-5", and a row
    without a quantity; and the two products they give. *)
Definition headersOfSample : list Cell :=
  [CString "code"; CString "qte"; CString "prix"; CString "des"; CString "ref"]%list.

Definition mappingOfSample : ColumnMapping.t :=
  {| ColumnMapping.codebar := "code"; ColumnMapping.qte := "qte";
     ColumnMapping.prix := "prix"; ColumnMapping.designation := "des";
     ColumnMapping.reference := "ref" |}.

Definition sheetOfSample : list (list Cell) :=
  [ headersOfSample;
    [CString "123"; CString "-5"; CString "2.50"; CString "Tea"; CString "R1"];
    [CString "456"; CNull; CString "2.50"; CString "Jam"; CString "R2"] ]%list.

Definition returnedTea : Product.t :=
  {| Product.codebar := "123"; Product.qte := -5; Product.prix := 5 # 2;
     Product.designation := "Tea"; Product.reference := "R1";
     Product.image := None |}.

Definition jam : Product.t :=
  {| Product.codebar := "456"; Product.qte := 1; Product.prix := 5 # 2;
     Product.designation := "Jam"; Product.reference := "R2";
     Product.image := None |}.

(** The surroundings of the drawing: a font in which every code unit is a
    quarter of the font size wide, no product image, and for the PNG of a
    code a text that names it. *)
Definition widthOfSample (f : Font) (s : string) : Q :=
  (ofNat (String.length s) * fontSize f / 4)%Q.
Definition sizeOfSample (image : unit) : Q := 1.
Definition canvasOfSample (image : unit) (offsetX offsetY w h : Q) : CanvasResult :=
  NoContext.
Definition pngOfSample (code : string) : string := "png:" ++ code.
Definition emptyCache (reference : string) : option unit := None.

(** A product whose barcode text ends in an e acute, which CODE128 does not
    encode. *)
Definition cafe : Product.t :=
  {| Product.codebar := "caf" ++ eacute; Product.qte := 3; Product.prix := 5 # 2;
     Product.designation := "Ground coffee"; Product.reference := "R3";
     Product.image := None |}.

(** ** Further notions: the items of a document by kind *)

Definition isBorderItem (item : Item) : bool :=
  match item with StrokedRect _ _ _ _ _ _ => true | _ => false end.

Definition isPageBreak (item : Item) : bool :=
  match item with NewPage => true | _ => false end.

Definition isSaving (item : Item) : bool :=
  match item with SavedAs _ => true | _ => false end.

Definition isProductImage (item : Item) : bool :=
  match item with ImageAt _ format _ _ _ _ => String.eqb format "JPEG" | _ => false end.

(** How many items of a list are of a kind. *)
Definition countItems (kind : Item -> bool) (l : list Item) : nat :=
  List.length (filter kind l).

(** The placement of the product [product] as number [i] of a page. *)
Definition placementOfSample (product i : nat) : Placement.t nat :=
  Placement.mk product (i / LABELS_PER_ROW) (i mod LABELS_PER_ROW)
    (MARGIN_X + ofNat (i mod LABELS_PER_ROW) * LABEL_WIDTH)%Q
    (MARGIN_Y + ofNat (i / LABELS_PER_ROW) * LABEL_HEIGHT)%Q.

(** A narrower font for the examples: an eighth of the font size a code unit. *)
Definition narrowWidthOfSample (f : Font) (s : string) : Q :=
  (ofNat (String.length s) * fontSize f / 8)%Q.

(** A string that does not begin with white space. *)
Definition startsClean (s : string) : Prop :=
  match s with
  | String c _ => JS.isWhiteSpace c = false
  | EmptyString => True
  end.

(** A decimal digit, as a test. *)
Definition isDecimalDigit (c : ascii) : bool :=
  (48 <=? nat_of_ascii c) && (nat_of_ascii c <=? 57).

(** A text that begins with a decimal digit, and goes on with one if it
    goes on: no white space, no sign and no prefix 0x for [parseInt] to
    take off. *)
Definition plainStart (s : string) : Prop :=
  match s with
  | String c rest =>
      isDecimalDigit c = true /\
      match rest with
      | String c2 _ => isDecimalDigit c2 = true
      | EmptyString => True
      end
  | EmptyString => False
  end.

(** ** src/utils/excelParser.ts: [parseExcelFile] and [processImageFiles] *)

(** What the file reader and the XLSX library make of the file: the reader
    fails, the library throws, or the first sheet comes as rows of cells. *)
Inductive FileRead : Type :=
| ReadError
| XlsxThrew (message : string)
| Sheet (jsonData : list (list Cell)).

Module ExcelData.
Record t : Type := mk {
  data : list (list Cell);
  columns : list string
}.
End ExcelData.

Section ParseExcelFile.

Variable numberToString : Q -> string.

(** [col?.toString() || ''] (a hole of the header row counts as
    [undefined]). *)
Definition columnName (col : Cell) : string :=
  match col with
  | CUndefined | CNull => ""
  | CString s => s
  | CNumber x => numberToString x
  | CBoolean true => "true"
  | CBoolean false => "false"
  end.

(** The promise [parseExcelFile] returns: resolved with the rows and the
    column names, or rejected with a message. *)
Definition parseExcelFile (read : FileRead) : Result ExcelData.t :=
  match read with
  | ReadError => Throw "Error reading file"
  | XlsxThrew message => Throw ("Error parsing Excel file: " ++ message)
  | Sheet jsonData =>
      if List.length jsonData =? 0 then Throw "Excel file is empty"
      else
        let columns := map columnName (nth 0 jsonData []%list) in
        Ok (ExcelData.mk jsonData columns)
  end.

End ParseExcelFile.

(** A file of the file list: its name and its MIME type. *)
Module File.
Record t : Type := mk {
  name : string;
  type : string
}.
End File.

(** [filename.replace(/\.[^/.]+$/, '')]: the leftmost place where a dot is
    followed, up to the end, by one or more code units that are neither a
    slash nor a dot, is where the name is cut. *)
Definition extensionChar (c : ascii) : bool :=
  negb (Ascii.eqb c "/" || Ascii.eqb c ".").

Definition extensionTail (rest : string) : bool :=
  negb (String.eqb rest "") && allChars extensionChar rest.

Fixpoint stripExtension (filename : string) : string :=
  match filename with
  | EmptyString => EmptyString
  | String c rest =>
      if Ascii.eqb c "." && extensionTail rest then EmptyString
      else String c (stripExtension rest)
  end.

(** A JavaScript [Map] from strings to strings: the entries in the order
    their keys were first set. *)
Definition Map : Type := list (string * string).

Fixpoint mapSet (key value : string) (m : Map) : Map :=
  match m with
  | [] => [(key, value)]
  | (k, v) :: rest =>
      if String.eqb k key then (k, value) :: rest
      else (k, v) :: mapSet key value rest
  end%list.

Fixpoint mapGet (m : Map) (key : string) : option string :=
  match m with
  | [] => None
  | (k, v) :: rest => if String.eqb k key then Some v else mapGet rest key
  end%list.

Definition mapSize (m : Map) : nat := List.length m.

Definition isImageFile (file : File.t) : bool := String.prefix "image/" (File.type file).

Section ProcessImageFiles.

(** [URL.createObjectURL(file)] *)
Variable createObjectURL : File.t -> string.

Definition processImageFiles (files : list File.t) : Map :=
  fold_left
    (fun imageMap file =>
       if isImageFile file then
         let filename := File.name file in
         let reference := stripExtension filename in
         let imageUrl := createObjectURL file in
         mapSet reference imageUrl imageMap
       else imageMap)
    files []%list.

End ProcessImageFiles.

(** ** src/components/ColumnMapper.tsx *)

(** The state [mapping], a [Partial<ColumnMapping>]: for each field the
    column chosen for it, if any. *)
Definition PartialMapping : Type := Key -> option string.

Definition noMapping : PartialMapping := fun _ => None.

Definition sameKey (a b : Key) : bool :=
  match a, b with
  | Kcodebar, Kcodebar | Kqte, Kqte | Kprix, Kprix
  | Kdesignation, Kdesignation | Kreference, Kreference => true
  | _, _ => false
  end.

Definition requiredFields : list Key :=
  [Kcodebar; Kqte; Kprix; Kdesignation; Kreference]%list.

(** [setMapping(prev => ({ ...prev, [field]: column }))] *)
Definition handleMappingChange (field : Key) (column : string)
    (prev : PartialMapping) : PartialMapping :=
  fun key => if sameKey key field then Some column else prev key.

(** [requiredFields.every(field => mapping[field.key])] *)
Definition isComplete (mapping : PartialMapping) : bool :=
  forallb
    (fun field =>
       match mapping field with
       | Some column => negb (String.eqb column "")
       | None => false
       end)
    requiredFields.

(** [mapping as ColumnMapping] *)
Definition asColumnMapping (mapping : PartialMapping) : ColumnMapping.t :=
  let get key := match mapping key with Some column => column | None => "" end in
  {| ColumnMapping.codebar := get Kcodebar;
     ColumnMapping.qte := get Kqte;
     ColumnMapping.prix := get Kprix;
     ColumnMapping.designation := get Kdesignation;
     ColumnMapping.reference := get Kreference |}.

(** [handleSubmit]: the mapping handed to [onMappingComplete], if any. *)
Definition handleSubmit (mapping : PartialMapping) : option ColumnMapping.t :=
  if isComplete mapping then Some (asColumnMapping mapping) else None.

(** ** src/components/LabelPreview.tsx: going through the labels *)

(** [(prev + 1) % products.length] and
    [(prev - 1 + products.length) % products.length]; the remainder has the
    sign of the dividend. *)
Definition nextLabel (count prev : Z) : Z := Z.rem (prev + 1) count.
Definition prevLabel (count prev : Z) : Z := Z.rem (prev - 1 + count) count.

(** The choices made one after another in the column mapper, and the last
    column chosen for a field. *)
Definition afterChoices (choices : list (Key * string)) : PartialMapping :=
  fold_left (fun mapping choice => handleMappingChange (fst choice) (snd choice) mapping)
    choices noMapping.

Definition lastChoice (key : Key) (choices : list (Key * string)) : option string :=
  option_map snd (find (fun choice => sameKey key (fst choice)) (rev choices)).

(** The last image file of a list that is named after a reference. *)
Definition lastImageFor (reference : string) (files : list File.t) : option File.t :=
  find (fun file => isImageFile file && String.eqb (stripExtension (File.name file)) reference)
       (rev files).

(** ** src/components/PriceLabelGenerator.tsx, with the conditions under
    which FileUpload, ColumnMapper and LabelPreview are shown *)

Module Step.
Inductive t : Type := upload | mapping | preview.

Definition rank (step : t) : nat :=
  match step with upload => 0 | mapping => 1 | preview => 2 end.
End Step.

(** The state of the component. *)
Module App.
Record t (HTMLImageElement : Type) : Type := mk {
  currentStep : Step.t;
  excelData : option ExcelData.t;
  imageFiles : Map;
  products : list Product.t;
  imageCache : string -> option HTMLImageElement;
  isLoading : bool
}.
Arguments mk {HTMLImageElement}.
Arguments currentStep {HTMLImageElement}.
Arguments excelData {HTMLImageElement}.
Arguments imageFiles {HTMLImageElement}.
Arguments products {HTMLImageElement}.
Arguments imageCache {HTMLImageElement}.
Arguments isLoading {HTMLImageElement}.
End App.

(** [name.endsWith(suffix)] *)
Definition endsWith (name suffix : string) : bool :=
  (String.length suffix <=? String.length name) &&
  String.eqb
    (substring (String.length name - String.length suffix) (String.length suffix) name)
    suffix.

(** What the user does: a file picked in the Excel input of FileUpload
    (its name, and what reading it gives), files picked in its images
    input, the button of ColumnMapper pressed after some choices in its
    selects, the download button of LabelPreview pressed. *)
Inductive Event : Type :=
| ExcelSelected (name : string) (read : FileRead)
| ImagesSelected (files : list File.t)
| MappingSubmitted (choices : list (Key * string))
| DownloadClicked.

(** The choices a select allows: the columns it lists. *)
Definition offered (columns : list string) (choices : list (Key * string)) : bool :=
  forallb (fun choice => existsb (String.eqb (snd choice)) columns) choices.

Section PriceLabelGenerator.

Variable HTMLImageElement : Type.
Variable imageWidth imageHeight : HTMLImageElement -> Q.
Variable stringWidth : Font -> string -> Q.
Variable canvasToJPEG : HTMLImageElement -> Q -> Q -> Q -> Q -> CanvasResult.
Variable barcodePNG : string -> string.
Variable parseFloat : string -> option Q.
Variable numberToString : Q -> string.
Variable createObjectURL : File.t -> string.

(** The [useState] initial values. *)
Definition initialApp : App.t HTMLImageElement :=
  App.mk Step.upload None []%list []%list (fun _ => None) false.

(** The handlers, each run to its end; the toasts are left out. *)
Definition handleExcelUpload (read : FileRead) (s : App.t HTMLImageElement)
    : App.t HTMLImageElement :=
  match parseExcelFile numberToString read with
  | Ok parsedData =>
      App.mk
        (if 0 <? mapSize (App.imageFiles s) then Step.mapping else App.currentStep s)
        (Some parsedData) (App.imageFiles s) (App.products s) (App.imageCache s) false
  | Throw _ =>
      App.mk (App.currentStep s) (App.excelData s) (App.imageFiles s) (App.products s)
        (App.imageCache s) false
  end.

Definition handleImagesUpload (files : list File.t) (s : App.t HTMLImageElement)
    : App.t HTMLImageElement :=
  let imageMap := processImageFiles createObjectURL files in
  App.mk
    (match App.excelData s with Some _ => Step.mapping | None => App.currentStep s end)
    (App.excelData s) imageMap (App.products s) (App.imageCache s) (App.isLoading s).

Definition handleMappingComplete (mapping : ColumnMapping.t)
    (s : App.t HTMLImageElement) : App.t HTMLImageElement :=
  match App.excelData s with
  | None => s
  | Some excelData =>
      match mapDataToProducts parseFloat numberToString (ExcelData.data excelData)
              mapping (mapGet (App.imageFiles s)) with
      | Ok mappedProducts =>
          App.mk Step.preview (App.excelData s) (App.imageFiles s) mappedProducts
            (App.imageCache s) false
      | Throw _ =>
          App.mk (App.currentStep s) (App.excelData s) (App.imageFiles s)
            (App.products s) (App.imageCache s) false
      end
  end.

(** [handleGeneratePDF]: the document saved. *)
Definition handleGeneratePDF (s : App.t HTMLImageElement) : Pdf :=
  generatePDF HTMLImageElement imageWidth imageHeight stringWidth canvasToJPEG
    barcodePNG (App.products s) (App.imageCache s).

(** The state after an event. FileUpload is shown in the step upload, its
    buttons disabled while loading; it hands on an Excel file whose name
    ends in .xlsx or .xls, and a list of images that is not empty.
    ColumnMapper is shown in the step mapping once there is Excel data; its
    selects list the columns, and its button hands on a complete mapping.
    LabelPreview is shown in the step preview when there are products. *)
Definition dispatch (s : App.t HTMLImageElement) (e : Event) : App.t HTMLImageElement :=
  if App.isLoading s then s
  else
    match e with
    | ExcelSelected name read =>
        match App.currentStep s with
        | Step.upload =>
            if endsWith name ".xlsx" || endsWith name ".xls"
            then handleExcelUpload read s else s
        | _ => s
        end
    | ImagesSelected files =>
        match App.currentStep s with
        | Step.upload =>
            if 0 <? List.length files then handleImagesUpload files s else s
        | _ => s
        end
    | MappingSubmitted choices =>
        match App.currentStep s, App.excelData s with
        | Step.mapping, Some excelData =>
            if offered (ExcelData.columns excelData) choices then
              match handleSubmit (afterChoices choices) with
              | Some mapping => handleMappingComplete mapping s
              | None => s
              end
            else s
        | _, _ => s
        end
    | DownloadClicked => s
    end.

(** The document a press of the download button saves, if the button is
    there to be pressed. *)
Definition download (s : App.t HTMLImageElement) : option Pdf :=
  match App.currentStep s with
  | Step.preview =>
      if (0 <? List.length (App.products s)) && negb (App.isLoading s)
      then Some (handleGeneratePDF s) else None
  | _ => None
  end.

Definition run (events : list Event) : App.t HTMLImageElement :=
  fold_left dispatch events initialApp.

End PriceLabelGenerator.

(** The placeholder is the one filled rectangle of a label. *)
Definition isPlaceholder (item : Item) : bool :=
  match item with FilledRect _ _ _ _ _ => true | _ => false end.

(** A successful reading of an Excel file, and a selection of images that
    is not empty. *)
Definition isExcelRead (numberToString : Q -> string) (e : Event) : bool :=
  match e with
  | ExcelSelected _ read =>
      match parseExcelFile numberToString read with Ok _ => true | Throw _ => false end
  | _ => false
  end.

Definition isImageSelection (e : Event) : bool :=
  match e with
  | ImagesSelected files => 0 <? List.length files
  | _ => false
  end.

(** A session of the examples: an image for the reference R2, the sheet of
    the examples, the mapping of the examples chosen field by field. *)
Definition urlOfSample (file : File.t) : string := "blob:" ++ File.name file.

Definition choicesOfSample : list (Key * string) :=
  [(Kcodebar, "code"); (Kqte, "qte"); (Kprix, "prix"); (Kdesignation, "des");
   (Kreference, "ref")]%list.

Definition sessionOfSample (sheet : list (list Cell)) : list Event :=
  [ImagesSelected [File.mk "R2.png" "image/png"];
   ExcelSelected "products.xlsx" (Sheet sheet);
   MappingSubmitted choicesOfSample]%list.

Definition runOfSample (sheet : list (list Cell)) : App.t unit :=
  run unit parseFloatSample noNumbers urlOfSample (sessionOfSample sheet).

(** What holds of the state after the events of a session. *)
Definition sessionInvariant {HTMLImageElement : Type} (numberToString : Q -> string)
    (events : list Event) (s : App.t HTMLImageElement) : Prop :=
  App.isLoading s = false /\
  App.imageCache s = (fun _ => None) /\
  (App.currentStep s <> Step.upload -> App.excelData s <> None) /\
  (App.excelData s <> None -> existsb (isExcelRead numberToString) events = true) /\
  (App.currentStep s <> Step.upload \/ App.imageFiles s <> []%list ->
   existsb isImageSelection events = true) /\
  (App.products s <> []%list -> App.currentStep s = Step.preview) /\
  (forall p, In p (App.products s) ->
     Product.image p = mapGet (App.imageFiles s) (Product.reference p)) /\
  (App.currentStep s = Step.upload ->
   App.excelData s = None \/ App.imageFiles s = []%list).

(** [getStepStatus] of PriceLabelGenerator.tsx: what the indicator of a
    step shows. *)
Module Status.
Inductive t : Type := pending | current | completed.
End Status.

Definition sameStep (a b : Step.t) : bool :=
  match a, b with
  | Step.upload, Step.upload | Step.mapping, Step.mapping
  | Step.preview, Step.preview => true
  | _, _ => false
  end.

Definition getStepStatus {HTMLImageElement : Type} (s : App.t HTMLImageElement)
    (step : Step.t) : Status.t :=
  match step with
  | Step.upload =>
      if match App.excelData s with
         | Some _ => 0 <? mapSize (App.imageFiles s)
         | None => false
         end
      then Status.completed
      else if sameStep (App.currentStep s) step then Status.current else Status.pending
  | Step.mapping =>
      if 0 <? List.length (App.products s) then Status.completed
      else if sameStep (App.currentStep s) step then Status.current else Status.pending
  | Step.preview =>
      if sameStep (App.currentStep s) step then Status.current else Status.pending
  end.

(** ** src/utils/pdfGenerator.ts, the branded label with image and barcode *)

Module Branded.

Definition imageSize : Q := 10.
Definition maxDesignationWidth : Q := (contentWidth - 4)%Q.
Definition barcodeWidth : Q := 30.
Definition barcodeHeight : Q := 6.

Section PdfGenerator.

Variable HTMLImageElement : Type.
Variable imageWidth imageHeight : HTMLImageElement -> Q.
Variable stringWidth : Font -> string -> Q.
Variable canvasToJPEG : HTMLImageElement -> Q -> Q -> Q -> Q -> CanvasResult.
Variable barcodePNG : string -> string.

Definition productImageData (productImage : HTMLImageElement) : CanvasResult :=
  let canvasWidth := (imageSize * 3)%Q in
  let canvasHeight := (imageSize * 3)%Q in
  let aspectRatio := (imageWidth productImage / imageHeight productImage)%Q in
  let drawWidth :=
    if JS.gt aspectRatio 1 then canvasWidth else (canvasHeight * aspectRatio)%Q in
  let drawHeight :=
    if JS.gt aspectRatio 1 then (canvasWidth / aspectRatio)%Q else canvasHeight in
  let offsetX := ((canvasWidth - drawWidth) / 2)%Q in
  let offsetY := ((canvasHeight - drawHeight) / 2)%Q in
  canvasToJPEG productImage offsetX offsetY drawWidth drawHeight.

Definition drawLabelToPDF (pdf : Pdf) (product : Product.t) (x y : Q)
    (imageCache : string -> option HTMLImageElement) : Pdf :=
  (* Label border *)
  let pdf := setDrawColor 229 231 235 pdf in
  let pdf := setLineWidth (1 # 10) pdf in
  let pdf := rect x y LABEL_WIDTH LABEL_HEIGHT pdf in
  let contentX := (x + padding)%Q in
  let contentY := (y + padding)%Q in
  (* Point 50 logo/branding (top left) *)
  let pdf := setFontSize 10 pdf in
  let pdf := setFont "helvetica" "bold" pdf in
  let pdf := setTextColor 249 115 22 pdf in
  let pdf := text "POINT" contentX (contentY + 6)%Q pdf in
  let pdf := setFontSize 12 pdf in
  let pdf := text "50" contentX (contentY + 12)%Q pdf in
  (* Product image (bottom right) *)
  let imageX := (x + LABEL_WIDTH - padding - imageSize)%Q in
  let imageY := (y + LABEL_HEIGHT - padding - imageSize)%Q in
  let pdf :=
    match imageCache (Product.reference product) with
    | Some productImage =>
        match productImageData productImage with
        | NoContext => pdf
        | Encoded imageData =>
            addImage imageData "JPEG" imageX imageY imageSize imageSize pdf
        | CanvasThrew =>
            let pdf := consoleError "Error adding product image to PDF:" pdf in
            drawPlaceholderImage stringWidth pdf imageX imageY imageSize
        end
    | None => drawPlaceholderImage stringWidth pdf imageX imageY imageSize
    end in
  (* Reference (top right) *)
  let pdf := setFontSize 7 pdf in
  let pdf := setFont "helvetica" "normal" pdf in
  let pdf := setTextColor 0 0 0 pdf in
  let refText := "Ref:" in
  let pdf := text refText (x + LABEL_WIDTH - padding - 15)%Q (contentY + 4)%Q pdf in
  let pdf := setFont "helvetica" "bold" pdf in
  let pdf := text (Product.reference product) (x + LABEL_WIDTH - padding)%Q
               (contentY + 4)%Q pdf in
  (* Barcode (under reference) *)
  let pdf :=
    match JsBarcode barcodePNG (Product.codebar product) with
    | Some barcodeData =>
        let barcodeX := (x + LABEL_WIDTH - padding - barcodeWidth)%Q in
        let barcodeY := (contentY + 4)%Q in
        let pdf :=
          addImage barcodeData "PNG" barcodeX barcodeY barcodeWidth barcodeHeight pdf in
        let pdf := setFontSize 6 pdf in
        let pdf := setFont "helvetica" "normal" pdf in
        let pdf := setTextColor 0 0 0 pdf in
        let codeWidth := getTextWidth stringWidth pdf (Product.codebar product) in
        text (Product.codebar product) (barcodeX + (barcodeWidth - codeWidth) / 2)%Q
          (barcodeY + barcodeHeight + 3)%Q pdf
    | None => consoleError "Error generating barcode for PDF:" pdf
    end in
  (* Product designation (center) *)
  let pdf := setFontSize 8 pdf in
  let pdf := setFont "helvetica" "normal" pdf in
  let pdf := setTextColor 0 0 0 pdf in
  let designation :=
    fitText (getTextWidth stringWidth pdf) maxDesignationWidth
      (Product.designation product) in
  let designationX :=
    (x + (LABEL_WIDTH - getTextWidth stringWidth pdf designation) / 2)%Q in
  let pdf := text designation designationX (contentY + 18)%Q pdf in
  (* Large price number (center, prominent) *)
  let pdf := setFontSize 32 pdf in
  let pdf := setFont "helvetica" "bold" pdf in
  let pdf := setTextColor 249 115 22 pdf in
  let priceNumber := priceNumber (Product.prix product) in
  let priceNumberWidth := getTextWidth stringWidth pdf priceNumber in
  (* Euro symbol *)
  let pdf := setFontSize 24 pdf in
  let euroWidth := getTextWidth stringWidth pdf euro in
  (* Calculate total width for centering *)
  let totalPriceWidth := (priceNumberWidth + euroWidth + 2)%Q in
  let priceStartX := (x + (LABEL_WIDTH - totalPriceWidth) / 2)%Q in
  (* Draw price number *)
  let pdf := setFontSize 32 pdf in
  let pdf := text priceNumber priceStartX (contentY + 30)%Q pdf in
  (* Draw euro symbol *)
  let pdf := setFontSize 24 pdf in
  let pdf := text euro (priceStartX + priceNumberWidth + 2)%Q (contentY + 30)%Q pdf in
  (* Decimal part (if not whole number) *)
  let pdf :=
    if hasDecimal (Product.prix product) then
      let decimal := decimal (Product.prix product) in
      let pdf := setFontSize 12 pdf in
      text decimal (priceStartX + priceNumberWidth + euroWidth + 4)%Q
        (contentY + 26)%Q pdf
    else pdf in
  (* Quantity indicator (if > 1) *)
  if (1 <? Product.qte product)%Z then
    let pdf := setFontSize 6 pdf in
    let pdf := setFont "helvetica" "normal" pdf in
    let pdf := setTextColor 107 114 128 pdf in
    text ("Qt" ++ eacute ++ ": " ++ JS.toStringZ (Product.qte product)) contentX
      (y + LABEL_HEIGHT - 2)%Q pdf
  else pdf.

Definition generatePDF (products : list Product.t)
    (imageCache : string -> option HTMLImageElement) : Pdf :=
  let pdf := jsPDF in
  let pdf :=
    fold_left
      (fun pdf page =>
         let pdf := if 0 <? page then addPage pdf else pdf in
         fold_left
           (fun pdf placement =>
              drawLabelToPDF pdf (Placement.product placement)
                (Placement.x placement) (Placement.y placement) imageCache)
           (placePage (pageProducts products page)) pdf)
      (seq 0 (totalPages products)) pdf in
  save "price-labels.pdf" pdf.

(** The items of a label: what is drawn before the barcode, the barcode,
    and what is drawn after it. *)
Definition orange : Color := RGB 249 115 22.
Definition black : Color := RGB 0 0 0.

Definition imageItems (product : Product.t) (x y : Q)
    (imageCache : string -> option HTMLImageElement) : list Item :=
  match imageCache (Product.reference product) with
  | Some productImage =>
      match productImageData productImage with
      | NoContext => []
      | Encoded imageData =>
          [ImageAt imageData "JPEG" (x + LABEL_WIDTH - padding - imageSize)%Q
             (y + LABEL_HEIGHT - padding - imageSize)%Q imageSize imageSize]
      | CanvasThrew =>
          placeholderItems stringWidth (x + LABEL_WIDTH - padding - imageSize)%Q
            (y + LABEL_HEIGHT - padding - imageSize)%Q imageSize
      end
  | None =>
      placeholderItems stringWidth (x + LABEL_WIDTH - padding - imageSize)%Q
        (y + LABEL_HEIGHT - padding - imageSize)%Q imageSize
  end%list.

Definition beforeBarcode (product : Product.t) (x y : Q)
    (imageCache : string -> option HTMLImageElement) : list Item :=
  ([StrokedRect x y LABEL_WIDTH LABEL_HEIGHT (RGB 229 231 235) (1 # 10);
    TextAt "POINT" (x + padding)%Q (y + padding + 6)%Q (helvetica "bold" 10) orange;
    TextAt "50" (x + padding)%Q (y + padding + 12)%Q (helvetica "bold" 12) orange]
   ++ imageItems product x y imageCache
   ++ [TextAt "Ref:" (x + LABEL_WIDTH - padding - 15)%Q (y + padding + 4)%Q
         (helvetica "normal" 7) black;
       TextAt (Product.reference product) (x + LABEL_WIDTH - padding)%Q
         (y + padding + 4)%Q (helvetica "bold" 7) black])%list.

Definition barcodeItems (codebar : string) (x y : Q) : list Item :=
  [ImageAt (barcodePNG codebar) "PNG" (x + LABEL_WIDTH - padding - barcodeWidth)%Q
     (y + padding + 4)%Q barcodeWidth barcodeHeight;
   TextAt codebar
     (x + LABEL_WIDTH - padding - barcodeWidth
      + (barcodeWidth - stringWidth (helvetica "normal" 6) codebar) / 2)%Q
     (y + padding + 4 + barcodeHeight + 3)%Q (helvetica "normal" 6) black]%list.

Definition designationText (product : Product.t) : string :=
  fitText (stringWidth (helvetica "normal" 8)) maxDesignationWidth
    (Product.designation product).

Definition designationX (product : Product.t) (x : Q) : Q :=
  (x + (LABEL_WIDTH - stringWidth (helvetica "normal" 8) (designationText product)) / 2)%Q.

Definition priceStartX (product : Product.t) (x : Q) : Q :=
  (x + (LABEL_WIDTH
        - (stringWidth (helvetica "bold" 32) (priceNumber (Product.prix product))
           + stringWidth (helvetica "bold" 24) euro + 2)) / 2)%Q.

Definition afterBarcode (product : Product.t) (x y : Q) : list Item :=
  ([TextAt (designationText product) (designationX product x) (y + padding + 18)%Q
      (helvetica "normal" 8) black;
    TextAt (priceNumber (Product.prix product)) (priceStartX product x)
      (y + padding + 30)%Q (helvetica "bold" 32) orange;
    TextAt euro
      (priceStartX product x
       + stringWidth (helvetica "bold" 32) (priceNumber (Product.prix product)) + 2)%Q
      (y + padding + 30)%Q (helvetica "bold" 24) orange]
   ++ (if hasDecimal (Product.prix product)
       then [TextAt (decimal (Product.prix product))
               (priceStartX product x
                + stringWidth (helvetica "bold" 32) (priceNumber (Product.prix product))
                + stringWidth (helvetica "bold" 24) euro + 4)%Q
               (y + padding + 26)%Q (helvetica "bold" 12) orange]
       else [])
   ++ (if (1 <? Product.qte product)%Z
       then [TextAt ("Qt" ++ eacute ++ ": " ++ JS.toStringZ (Product.qte product))
               (x + padding)%Q (y + LABEL_HEIGHT - 2)%Q (helvetica "normal" 6)
               (RGB 107 114 128)]
       else []))%list.

End PdfGenerator.

End Branded.

(** A product with another barcode text. *)
Definition withCodebar (codebar : string) (product : Product.t) : Product.t :=
  {| Product.codebar := codebar; Product.qte := Product.qte product;
     Product.prix := Product.prix product;
     Product.designation := Product.designation product;
     Product.reference := Product.reference product;
     Product.image := Product.image product |}.

(** ** src/components/LabelPreview.tsx: the label drawn on the canvas *)

Module Preview.

(** What is drawn on the canvas, each item with the styles that were
    current when it was drawn. *)
Inductive Item (Image : Type) : Type :=
| FillRect (x y w h : Q) (fillStyle : string)
| StrokeRect (x y w h : Q) (strokeStyle : string) (lineWidth : Q)
| DrawImage (image : Image) (x y w h : Q)
| FillText (text : string) (x y : Q) (font fillStyle textAlign : string).
Arguments FillRect {Image}.
Arguments StrokeRect {Image}.
Arguments DrawImage {Image}.
Arguments FillText {Image}.

Definition width : Q := 264.
Definition height : Q := 136.
Definition maxDesignationWidth : Q := (width - 85)%Q.

Section LabelPreview.

(** The browser: the images and their sizes, what loading a URL gives
    ([None] when the promise is rejected), the width the canvas measures
    for a text in a font, and the data URL of the barcode canvas. *)
Variable Image : Type.
Variable imageWidth imageHeight : Image -> Q.
Variable loadImage : string -> option Image.
Variable measureText : string -> string -> Q.
Variable barcodeURL : string -> string.

(** [generateBarcode]: the empty string when JsBarcode throws. *)
Definition generateBarcode (code : string) : string :=
  if code128Valid code then barcodeURL code else "".

(** The image to draw, and the update the draw hands to [setImageCache].
    [imageCache] is the cache of the render the draw belongs to: the image
    is taken from it, or loaded when it has none for the reference; after
    the loading the update [prev => new Map(prev).set(reference, image)] is
    applied to the state as it is by then, [prev], which other draws may
    have changed. No image for a product without image or when the loading
    fails, and then, as with a cached image, no update. *)
Definition productImageOf (currentProduct : Product.t)
    (imageCache : string -> option Image)
    : option Image * ((string -> option Image) -> string -> option Image) :=
  if truthy (match Product.image currentProduct with
             | Some url => CString url
             | None => CUndefined
             end)
  then
    match imageCache (Product.reference currentProduct) with
    | Some productImage => (Some productImage, fun prev => prev)
    | None =>
        match loadImage (match Product.image currentProduct with
                         | Some url => url
                         | None => ""
                         end) with
        | Some productImage =>
            (Some productImage,
             fun prev reference =>
               if String.eqb reference (Product.reference currentProduct)
               then Some productImage else prev reference)
        | None => (None, fun prev => prev)
        end
    end
  else (None, fun prev => prev).

(** [drawLabel], run with the cache of its render: nothing when the
    canvas, its context or the product is not there; else the items drawn,
    and the update of the cache. *)
Definition drawLabel (canvasReady : bool) (currentProduct : option Product.t)
    (imageCache : string -> option Image)
    : option (list (Item Image))
      * ((string -> option Image) -> string -> option Image) :=
  match canvasReady, currentProduct with
  | true, Some currentProduct =>
      (* Clear canvas, border *)
      let drawn :=
        [FillRect 0 0 width height "#ffffff";
         StrokeRect 0 0 width height "#e5e7eb" 1]%list in
      (* Product image *)
      let (productImage, update) := productImageOf currentProduct imageCache in
      let drawn :=
        match productImage with
        | Some productImage =>
            let imgSize := 60%Q in
            let aspectRatio := (imageWidth productImage / imageHeight productImage)%Q in
            let drawWidth :=
              if JS.gt aspectRatio 1 then imgSize else (imgSize * aspectRatio)%Q in
            let drawHeight :=
              if JS.gt aspectRatio 1 then (imgSize / aspectRatio)%Q else imgSize in
            (drawn ++ [DrawImage productImage 8 8 drawWidth drawHeight])%list
        | None =>
            (drawn ++
             [FillRect 8 8 60 60 "#f3f4f6";
              FillText "No Image" 38 38 "10px Arial" "#9ca3af" "center"])%list
        end in
      (* Product designation (main text) *)
      let designation :=
        fitText (measureText "bold 14px Arial") maxDesignationWidth
          (Product.designation currentProduct) in
      let drawn :=
        (drawn ++ [FillText designation 76 25 "bold 14px Arial" "#111827" "left"])%list in
      (* Reference *)
      let drawn :=
        (drawn ++
         [FillText ("Ref: " ++ Product.reference currentProduct) 76 40 "10px Arial"
            "#6b7280" "left"])%list in
      (* Price (large, prominent) *)
      let drawn :=
        (drawn ++
         [FillText (priceFixed (Product.prix currentProduct) ++ " " ++ euro)
            (width - 10)%Q 25 "bold 20px Arial" "#dc2626" "right"])%list in
      (* Quantity (if > 1) *)
      let drawn :=
        if (1 <? Product.qte currentProduct)%Z then
          (drawn ++
           [FillText ("Qt" ++ eacute ++ ": " ++ JS.toStringZ (Product.qte currentProduct))
              (width - 10)%Q 40 "10px Arial" "#6b7280" "right"])%list
        else drawn in
      (* Barcode at bottom *)
      let barcodeDataUrl := generateBarcode (Product.codebar currentProduct) in
      let drawn :=
        if negb (String.eqb barcodeDataUrl "") then
          match loadImage barcodeDataUrl with
          | Some barcodeImg =>
              let barcodeWidth := (width - 16)%Q in
              let barcodeHeight := 25%Q in
              (drawn ++
               [DrawImage barcodeImg 8 (height - barcodeHeight - 8)%Q barcodeWidth
                  barcodeHeight])%list
          | None => drawn
          end
        else drawn in
      (* Codebar text *)
      let drawn :=
        (drawn ++
         [FillText (Product.codebar currentProduct) (width / 2)%Q (height - 2)%Q
            "8px Arial" "#374151" "center"])%list in
      (Some drawn, update)
  | _, _ => (None, fun prev => prev)
  end.

End LabelPreview.

End Preview.

(** A product with an image, and two renders of the preview: one whose cache
    is still empty, and the state by the time its image is loaded, in which
    another draw has put an image for the same reference. *)
Definition pictured : Product.t :=
  {| Product.codebar := "456"; Product.qte := 1; Product.prix := 5 # 2;
     Product.designation := "Jam"; Product.reference := "R2";
     Product.image := Some "blob:R2.png" |}.

Definition cacheOfOlderRender (reference : string) : option nat := None.

Definition cacheByThen (reference : string) : option nat :=
  if String.eqb reference "R2" then Some 1 else None.

(* ====================================================================== *)
(** * Part II. Properties *)
(* ====================================================================== *)

(** ** Strings as sequences of code units *)

Lemma append_empty_r (s : string) : s ++ "" = s.
Proof. induction s as [|c s IH]; simpl; [reflexivity | now rewrite IH]. Qed.

Lemma append_assoc (a b c : string) : (a ++ b) ++ c = a ++ (b ++ c).
Proof. induction a as [|x a IH]; simpl; [reflexivity | now rewrite IH]. Qed.

Lemma length_append (a b : string) :
  String.length (a ++ b) = String.length a + String.length b.
Proof. induction a as [|x a IH]; simpl; [reflexivity | now rewrite IH]. Qed.

Lemma append_nonempty_r (a b : string) : b <> "" -> a ++ b <> "".
Proof.
  intros Hb H. apply (f_equal String.length) in H.
  rewrite length_append in H. destruct b; [congruence | simpl in H; lia].
Qed.

Lemma isPrefix_refl (s : string) : isPrefix s s.
Proof. exists "". now rewrite append_empty_r. Qed.

Lemma isPrefix_empty (s : string) : isPrefix "" s.
Proof. now exists s. Qed.

Lemma isPrefix_length (p s : string) :
  isPrefix p s -> String.length p <= String.length s.
Proof. intros [r ->]. rewrite length_append. lia. Qed.

Lemma isPrefix_trans (a b c : string) : isPrefix a b -> isPrefix b c -> isPrefix a c.
Proof. intros [r ->] [t ->]. exists (r ++ t). apply append_assoc. Qed.

Lemma dropLast_cons (c : ascii) (s : string) :
  s <> "" -> JS.dropLast (String c s) = String c (JS.dropLast s).
Proof.
  intros Hs. unfold JS.dropLast. destruct s as [|d s]; [congruence|].
  simpl. now rewrite Nat.sub_0_r.
Qed.

Lemma dropLast_append (q t : string) :
  t <> "" -> JS.dropLast (q ++ t) = q ++ JS.dropLast t.
Proof.
  intros Ht. induction q as [|c q IH]; simpl; [reflexivity|].
  rewrite dropLast_cons by now apply append_nonempty_r.
  now rewrite IH.
Qed.

Lemma dropLast_isPrefix (d : string) : isPrefix (JS.dropLast d) d.
Proof.
  induction d as [|c d IH].
  - apply isPrefix_refl.
  - destruct d as [|e d].
    + apply isPrefix_empty.
    + rewrite dropLast_cons by congruence.
      destruct IH as [r Hr]. exists r. simpl. now rewrite <- Hr.
Qed.

(** A prefix of [d] is [d] itself or a prefix of [d] without its last
    code unit. *)
Lemma isPrefix_dropLast (q d : string) :
  isPrefix q d -> q = d \/ isPrefix q (JS.dropLast d).
Proof.
  intros [r ->]. destruct r as [|c r].
  - left. now rewrite append_empty_r.
  - right. rewrite dropLast_append by congruence. now eexists.
Qed.

(** ** The truncation to a width *)

Lemma gt_true (a b : Q) : JS.gt a b = true <-> (b < a)%Q.
Proof.
  unfold JS.gt. rewrite negb_true_iff. split.
  - intros H. apply Qnot_le_lt. intros L. apply Qle_bool_iff in L. congruence.
  - intros H. destruct (Qle_bool a b) eqn:E; [|reflexivity].
    apply Qle_bool_iff in E. exfalso. apply (Qlt_not_le _ _ H E).
Qed.

Lemma gt_false (a b : Q) : JS.gt a b = false <-> (a <= b)%Q.
Proof.
  unfold JS.gt. rewrite negb_false_iff. apply Qle_bool_iff.
Qed.

Section TextFitterProperties.

Variable measure : string -> Q.
Variable maxWidth : Q.

Lemma loopCond_true (d : string) :
  loopCond measure maxWidth d = true <->
  (maxWidth < measure (d ++ ellipsis))%Q /\ d <> "".
Proof.
  unfold loopCond. rewrite andb_true_iff, gt_true, Nat.ltb_lt.
  destruct d; simpl; split; intros [H1 H2]; split; try assumption;
    try lia; congruence.
Qed.

(** The two ways through one test of the loop. *)
Lemma truncateLoop_step (d : string) :
  loopCond measure maxWidth d = true ->
  truncateLoop measure maxWidth d = truncateLoop measure maxWidth (JS.dropLast d).
Proof.
  intros H. funelim (truncateLoop measure maxWidth d); [reflexivity | congruence].
Qed.

Lemma truncateLoop_stop (d : string) :
  loopCond measure maxWidth d = false -> truncateLoop measure maxWidth d = d.
Proof.
  intros H. funelim (truncateLoop measure maxWidth d); [congruence | reflexivity].
Qed.

(** The loop ends, and it ends where its test fails. *)
Lemma truncateLoop_exit (d : string) :
  loopCond measure maxWidth (truncateLoop measure maxWidth d) = false.
Proof.
  funelim (truncateLoop measure maxWidth d); assumption.
Qed.

Lemma truncateLoop_isPrefix (d : string) :
  isPrefix (truncateLoop measure maxWidth d) d.
Proof.
  funelim (truncateLoop measure maxWidth d).
  - eapply isPrefix_trans; [eassumption | apply dropLast_isPrefix].
  - apply isPrefix_refl.
Qed.

(** Every prefix longer than the result was tested and did not fit. *)
Lemma truncateLoop_longest (d q : string) :
  isPrefix q d ->
  String.length (truncateLoop measure maxWidth d) < String.length q ->
  (maxWidth < measure (q ++ ellipsis))%Q.
Proof.
  funelim (truncateLoop measure maxWidth d); intros Hq Hlen.
  - destruct (isPrefix_dropLast _ _ Hq) as [-> | Hq'].
    + pose proof (proj1 (loopCond_true _) e) as [E _]. exact E.
    + now apply H.
  - apply isPrefix_length in Hq. lia.
Qed.

Lemma fitText_fits (text : string) :
  (measure text <= maxWidth)%Q -> fitText measure maxWidth text = text.
Proof.
  intros H. unfold fitText. apply gt_false in H. now rewrite H.
Qed.

Lemma fitText_overflow (text : string) :
  (maxWidth < measure text)%Q ->
  fitText measure maxWidth text = truncateLoop measure maxWidth text ++ ellipsis.
Proof.
  intros H. unfold fitText. apply gt_true in H. now rewrite H.
Qed.

(** When nothing that is not empty fits, the loop runs down to the empty
    string. *)
Lemma truncateLoop_nothing_fits (d : string) :
  (forall q, isPrefix q d -> q <> "" -> (maxWidth < measure (q ++ ellipsis))%Q) ->
  truncateLoop measure maxWidth d = "".
Proof.
  funelim (truncateLoop measure maxWidth d); intros Hall.
  - apply H. intros q Hq Hne. apply Hall; [|assumption].
    eapply isPrefix_trans; [eassumption | apply dropLast_isPrefix].
  - destruct d as [|c d]; [reflexivity|].
    assert (T : loopCond measure maxWidth (String c d) = true).
    { apply loopCond_true. split; [|congruence].
      apply Hall; [apply isPrefix_refl | congruence]. }
    congruence.
Qed.

End TextFitterProperties.

Lemma unitWidth_append (s t : string) : (unitWidth s <= unitWidth (s ++ t))%Q.
Proof.
  unfold unitWidth, ofNat. rewrite <- Zle_Qle, length_append. lia.
Qed.

Lemma unitWidth_positive (s : string) : s <> "" -> (0 < unitWidth s)%Q.
Proof.
  intros H. unfold unitWidth, ofNat. change 0%Q with (inject_Z 0).
  rewrite <- Zlt_Qlt. destruct s; [congruence | simpl; lia].
Qed.

Lemma isPrefix_ellipsis (q : string) :
  isPrefix q ellipsis -> q <> "" -> exists t, q ++ ellipsis = ellipsis ++ t.
Proof.
  intros [r Hr] Hne. unfold ellipsis in *.
  destruct q as [|c1 [|c2 [|c3 [|c4 q]]]]; simpl in Hr; try congruence.
  - injection Hr as <- _. now exists ".".
  - injection Hr as <- <- _. now exists "..".
  - injection Hr as <- <- <- _. now exists "...".
Qed.

(** C5. For every text, every width above zero and every measurement: a
    text that fits is returned unchanged; one that does not is cut to a
    prefix followed by the marker, the prefix is the longest one that fits
    with the marker, and when no prefix but the empty one can fit the result
    is the marker alone. *)
Theorem fit_longest_prefix (measure : string -> Q) (maxWidth : Q) (text : string) :
  (0 < maxWidth)%Q ->
  ((measure text <= maxWidth)%Q -> fitText measure maxWidth text = text) /\
  ((maxWidth < measure text)%Q ->
   exists p,
     fitText measure maxWidth text = p ++ ellipsis /\
     isPrefix p text /\
     (forall q, isPrefix q text -> (measure (q ++ ellipsis) <= maxWidth)%Q ->
        (measure (p ++ ellipsis) <= maxWidth)%Q /\
        String.length q <= String.length p) /\
     ((forall q, isPrefix q text -> q <> "" ->
         (maxWidth < measure (q ++ ellipsis))%Q) ->
      fitText measure maxWidth text = ellipsis)).
Proof.
  intros _. split; [apply fitText_fits|].
  intros Hover. exists (truncateLoop measure maxWidth text).
  rewrite (fitText_overflow _ _ _ Hover).
  split; [reflexivity|]. split; [apply truncateLoop_isPrefix|]. split.
  - intros q Hq Hfit.
    assert (Hlen : String.length q <= String.length (truncateLoop measure maxWidth text)).
    { destruct (le_lt_dec (String.length q)
                  (String.length (truncateLoop measure maxWidth text)))
        as [L | L]; [exact L|].
      exfalso. apply (Qlt_not_le _ _ (truncateLoop_longest _ _ _ _ Hq L) Hfit). }
    split; [|exact Hlen].
    destruct (Qlt_le_dec maxWidth
                (measure (truncateLoop measure maxWidth text ++ ellipsis)))
      as [L | L]; [|exact L].
    pose proof (truncateLoop_exit measure maxWidth text) as Hexit.
    destruct (truncateLoop measure maxWidth text) as [|c p] eqn:E.
    + destruct q; [exact Hfit | simpl in Hlen; lia].
    + assert (T : loopCond measure maxWidth (String c p) = true)
        by (apply loopCond_true; split; [exact L | congruence]).
      congruence.
  - intros Hnone. now rewrite truncateLoop_nothing_fits.
Qed.

Lemma fit_longest_prefix_witness :
  (0 < 5)%Q /\
  ((unitWidth "abcdefgh" <= 5)%Q -> fitText unitWidth 5 "abcdefgh" = "abcdefgh") /\
  fitText unitWidth 5 "abcdefgh" = "ab...".
Proof.
  split; [reflexivity|]. split.
  - exact (proj1 (fit_longest_prefix unitWidth 5 "abcdefgh" eq_refl)).
  - reflexivity.
Defined.

(** C6. With a measurement under which a text never gets narrower when more
    is appended to it, fitting what was fitted changes nothing; and a text
    whose width is within the limit is returned as it is. *)
Theorem fit_idempotent (measure : string -> Q) (maxWidth : Q) (text : string) :
  (forall s t, (measure s <= measure (s ++ t))%Q) ->
  fit measure maxWidth (fst (fit measure maxWidth text)) = fit measure maxWidth text /\
  ((measure text <= maxWidth)%Q -> fit measure maxWidth text = (text, measure text)).
Proof.
  intros Hmono. split.
  - unfold fit. simpl.
    assert (E : fitText measure maxWidth (fitText measure maxWidth text)
                = fitText measure maxWidth text); [|now rewrite E].
    destruct (Qlt_le_dec maxWidth (measure text)) as [Hover | Hfits].
    2:{ now rewrite (fitText_fits _ _ _ Hfits), (fitText_fits _ _ _ Hfits). }
    rewrite (fitText_overflow _ _ _ Hover).
    destruct (Qlt_le_dec maxWidth
                (measure (truncateLoop measure maxWidth text ++ ellipsis)))
      as [L | L]; [|now apply fitText_fits].
    pose proof (truncateLoop_exit measure maxWidth text) as Hexit.
    destruct (truncateLoop measure maxWidth text) as [|c p] eqn:Ep.
    + simpl in *. rewrite (fitText_overflow _ _ _ L).
      rewrite truncateLoop_nothing_fits; [reflexivity|].
      intros q Hq Hne. destruct (isPrefix_ellipsis _ Hq Hne) as [t ->].
      eapply Qlt_le_trans; [exact L | apply Hmono].
    + assert (T : loopCond measure maxWidth (String c p) = true)
        by (apply loopCond_true; split; [exact L | congruence]).
      congruence.
  - intros Hfits. unfold fit. simpl. now rewrite (fitText_fits _ _ _ Hfits).
Qed.

Lemma fit_idempotent_witness :
  (forall s t, (unitWidth s <= unitWidth (s ++ t))%Q) /\
  fit unitWidth 5 (fst (fit unitWidth 5 "abcdefgh")) = fit unitWidth 5 "abcdefgh".
Proof.
  split; [exact unitWidth_append|].
  exact (proj1 (fit_idempotent unitWidth 5 "abcdefgh" unitWidth_append)).
Defined.

(** The condition on the measurement cannot be dropped: under [oddWidth]
    fitting twice differs from fitting once. *)
Remark fit_twice_oddWidth :
  fitText oddWidth 5 "abc" = "..." /\
  fitText oddWidth 5 (fitText oddWidth 5 "abc") = ".....".
Proof. split; reflexivity. Qed.

(** C4, as the sources have it. With a width of zero or less and a
    measurement that gives a positive width to every string that is not
    empty, the loop always runs down to the empty string: what is returned
    for a text that is not empty is the marker alone, whose width is
    positive; the empty text is returned as it is when its own width is
    within the limit, and as the marker otherwise. Nothing is raised: [fit]
    is a total function. *)
Theorem fit_nonpositive_width (measure : string -> Q) (maxWidth : Q) (text : string) :
  (maxWidth <= 0)%Q ->
  (forall s, s <> "" -> (0 < measure s)%Q) ->
  (text <> "" ->
   fit measure maxWidth text = (ellipsis, measure ellipsis) /\
   (0 < snd (fit measure maxWidth text))%Q) /\
  (text = "" ->
   fit measure maxWidth text =
     if JS.gt (measure "") maxWidth then (ellipsis, measure ellipsis)
     else ("", measure "")).
Proof.
  intros Hw Hpos.
  assert (Hany : forall s, s <> "" -> (maxWidth < measure s)%Q).
  { intros s Hs. eapply Qle_lt_trans; [exact Hw | now apply Hpos]. }
  split.
  - intros Hne.
    assert (E : fitText measure maxWidth text = ellipsis).
    { rewrite fitText_overflow by now apply Hany.
      rewrite truncateLoop_nothing_fits; [reflexivity|].
      intros q _ _. apply Hany. now apply append_nonempty_r. }
    unfold fit. simpl. rewrite E. split; [reflexivity|].
    now apply Hpos.
  - intros ->. unfold fit, fitText.
    destruct (JS.gt (measure "") maxWidth); [|reflexivity].
    rewrite truncateLoop_stop; [reflexivity|].
    unfold loopCond. apply andb_false_intro2. reflexivity.
Qed.

Lemma fit_nonpositive_width_witness :
  (0 <= 0)%Q /\ (forall s, s <> "" -> (0 < unitWidth s)%Q) /\
  ("abc" <> "" -> fit unitWidth 0 "abc" = (ellipsis, unitWidth ellipsis) /\
                  (0 < snd (fit unitWidth 0 "abc"))%Q).
Proof.
  split; [discriminate|]. split; [exact unitWidth_positive|].
  refine (proj1 (fit_nonpositive_width unitWidth 0 "abc" _ unitWidth_positive)).
  discriminate.
Defined.

(** C4, as it is worded, fails: at width zero the text "abc" comes back as
    the marker, three units wide, not as the empty string of width zero. *)
Lemma fit_width_zero_counterexample :
  fit unitWidth 0 "abc" = ("...", 3%Q) /\
  fst (fit unitWidth 0 "abc") <> "" /\
  ~ (snd (fit unitWidth 0 "abc") == 0)%Q.
Proof.
  split; [reflexivity|]. split; discriminate.
Qed.

(** ** The price: a large integer and a small decimal part *)

Lemma Qfloor_unique (z : Z) (x : Q) :
  (inject_Z z <= x)%Q -> (x < inject_Z (z + 1))%Q -> Qfloor x = z.
Proof.
  intros Hlo Hhi.
  pose proof (Qfloor_le x) as Fl. pose proof (Qlt_floor x) as Fh.
  assert (z < Qfloor x + 1)%Z
    by (rewrite Zlt_Qlt; eapply Qle_lt_trans; eassumption).
  assert (Qfloor x < z + 1)%Z
    by (rewrite Zlt_Qlt; eapply Qle_lt_trans; eassumption).
  lia.
Qed.

Lemma digits_small (n : Z) : (n < 10)%Z -> JS.digits n = String (JS.digitChar n) "".
Proof.
  intros H. funelim (JS.digits n); [reflexivity|].
  pose proof (proj1 (Z.ltb_ge _ _) e). lia.
Qed.

Lemma digits_large (n : Z) :
  (10 <= n)%Z ->
  JS.digits n = JS.digits (n / 10) ++ String (JS.digitChar (n mod 10)) "".
Proof.
  intros H. funelim (JS.digits n); [|reflexivity].
  pose proof (proj1 (Z.ltb_lt _ _) e). lia.
Qed.

Lemma digits_nonempty (n : Z) : 1 <= String.length (JS.digits n).
Proof.
  funelim (JS.digits n); [simpl; lia|].
  rewrite length_append. simpl. lia.
Qed.

Lemma digits_hundreds (k n : Z) :
  (1 <= k)%Z -> (0 <= n < 100)%Z ->
  JS.digits (100 * k + n) = JS.digits k ++ twoDigits n.
Proof.
  intros Hk Hn.
  rewrite (digits_large (100 * k + n)) by lia.
  replace ((100 * k + n) / 10)%Z with (10 * k + n / 10)%Z
    by (Z.div_mod_to_equations; lia).
  replace ((100 * k + n) mod 10)%Z with (n mod 10)%Z
    by (Z.div_mod_to_equations; lia).
  rewrite (digits_large (10 * k + n / 10)) by (Z.div_mod_to_equations; lia).
  replace ((10 * k + n / 10) / 10)%Z with k by (Z.div_mod_to_equations; lia).
  replace ((10 * k + n / 10) mod 10)%Z with (n / 10)%Z
    by (Z.div_mod_to_equations; lia).
  unfold twoDigits. now rewrite append_assoc.
Qed.

Lemma substring_append_l (a b : string) : substring 0 (String.length a) (a ++ b) = a.
Proof.
  induction a as [|c a IH]; simpl.
  - destruct b; reflexivity.
  - now rewrite IH.
Qed.

Lemma substring_append_r (a b : string) :
  substring (String.length a) (String.length b) (a ++ b) = b.
Proof.
  induction a as [|c a IH]; simpl; [|exact IH].
  induction b as [|c b IH]; simpl; [reflexivity | now rewrite IH].
Qed.

(** The text of a count of cents: the digits of the whole part, the
    separator, two digits. *)
Lemma fixed2_split (k n : Z) :
  (0 <= k)%Z -> (0 <= n < 100)%Z ->
  JS.fixed2 (100 * k + n) = JS.digits k ++ "." ++ twoDigits n.
Proof.
  intros Hk Hn. destruct (Z.eq_dec k 0) as [-> | Hk0].
  - replace (100 * 0 + n)%Z with n by lia. rewrite (digits_small 0) by lia.
    assert (C : forallb
                  (fun m => String.eqb (JS.fixed2 m)
                              (String (JS.digitChar 0) "" ++ "." ++ twoDigits m))
                  (map Z.of_nat (seq 0 100)) = true) by (vm_compute; reflexivity).
    rewrite forallb_forall in C.
    apply String.eqb_eq. apply C.
    apply in_map_iff. exists (Z.to_nat n). split; [lia|].
    apply in_seq. lia.
  - unfold JS.fixed2.
    replace (100 * k + n =? 0)%Z with false by (symmetry; apply Z.eqb_neq; lia).
    rewrite digits_hundreds by lia.
    pose proof (digits_nonempty k) as L.
    rewrite length_append. change (String.length (twoDigits n)) with 2.
    replace (String.length (JS.digits k) + 2 <=? 2) with false
      by (symmetry; apply Nat.leb_gt; lia).
    cbv zeta. rewrite length_append. change (String.length (twoDigits n)) with 2.
    replace (String.length (JS.digits k) + 2 - 2) with (String.length (JS.digits k))
      by lia.
    rewrite substring_append_l.
    change 2 with (String.length (twoDigits n)) at 1.
    now rewrite substring_append_r.
Qed.

Lemma toFixed2_nonneg (x : Q) :
  (0 <= x)%Q -> JS.toFixed2 x = JS.fixed2 (Qfloor (x * 100 + (1 # 2))%Q).
Proof.
  intros H. unfold JS.toFixed2. apply Qle_bool_iff in H. now rewrite H.
Qed.

Lemma rem1_nonneg (x : Q) : (0 <= x)%Q -> JS.rem1 x = (x - inject_Z (Qfloor x))%Q.
Proof.
  intros H. unfold JS.rem1, JS.trunc. apply Qle_bool_iff in H. now rewrite H.
Qed.

Lemma fraction_range (x : Q) :
  (0 <= x - inject_Z (Qfloor x))%Q /\ (x - inject_Z (Qfloor x) < 1)%Q.
Proof.
  pose proof (Qfloor_le x) as Fl. pose proof (Qlt_floor x) as Fh.
  rewrite inject_Z_plus in Fh. change (inject_Z 1) with 1%Q in Fh.
  split; lra.
Qed.

Lemma digitChar_isDigit (d : Z) : (0 <= d <= 9)%Z -> isDigit (JS.digitChar d).
Proof.
  intros H. unfold isDigit, JS.digitChar.
  rewrite nat_ascii_embedding by lia. lia.
Qed.

Lemma cents_range (prix : Q) : (0 <= cents prix <= 100)%Z.
Proof.
  unfold cents. destruct (fraction_range prix) as [F0 F1].
  pose proof (Qfloor_le ((prix - inject_Z (Qfloor prix)) * 100 + (1 # 2))) as Fl.
  pose proof (Qlt_floor ((prix - inject_Z (Qfloor prix)) * 100 + (1 # 2))) as Fh.
  split.
  - assert (-1 < Qfloor ((prix - inject_Z (Qfloor prix)) * 100 + (1 # 2)))%Z; [|lia].
    rewrite Zlt_Qlt. rewrite inject_Z_plus in Fh.
    change (inject_Z 1) with 1%Q in Fh. change (inject_Z (-1)) with (-1 # 1)%Q. lra.
  - assert (Qfloor ((prix - inject_Z (Qfloor prix)) * 100 + (1 # 2)) < 101)%Z; [|lia].
    rewrite Zlt_Qlt. change (inject_Z 101) with 101%Q. lra.
Qed.

Lemma cents_below (prix : Q) :
  (prix - inject_Z (Qfloor prix) < 995 # 1000)%Q -> (cents prix < 100)%Z.
Proof.
  intros H. unfold cents.
  pose proof (Qfloor_le ((prix - inject_Z (Qfloor prix)) * 100 + (1 # 2))) as Fl.
  rewrite Zlt_Qlt. change (inject_Z 100) with 100%Q. lra.
Qed.

Lemma decimal_digits (prix : Q) :
  (0 <= prix)%Q -> decimal prix = "." ++ twoDigits (cents prix mod 100).
Proof.
  intros H. unfold decimal. rewrite (rem1_nonneg _ H).
  rewrite toFixed2_nonneg by apply fraction_range.
  fold (cents prix). pose proof (cents_range prix) as R.
  destruct (Z.eq_dec (cents prix) 100) as [E | E].
  - rewrite E. reflexivity.
  - replace (cents prix) with (100 * 0 + cents prix)%Z at 1 by lia.
    rewrite fixed2_split by lia. rewrite Z.mod_small by lia. reflexivity.
Qed.

Lemma round_cents (prix : Q) :
  (cents prix < 100)%Z ->
  Qfloor (prix * 100 + (1 # 2))%Q = (100 * Qfloor prix + cents prix)%Z.
Proof.
  intros H. unfold cents in *.
  pose proof (Qfloor_le ((prix - inject_Z (Qfloor prix)) * 100 + (1 # 2))) as Fl.
  pose proof (Qlt_floor ((prix - inject_Z (Qfloor prix)) * 100 + (1 # 2))) as Fh.
  set (n := Qfloor ((prix - inject_Z (Qfloor prix)) * 100 + (1 # 2))) in *.
  rewrite inject_Z_plus in Fh. change (inject_Z 1) with 1%Q in Fh.
  apply Qfloor_unique.
  - rewrite inject_Z_plus, inject_Z_mult. change (inject_Z 100) with 100%Q. lra.
  - rewrite !inject_Z_plus, inject_Z_mult.
    change (inject_Z 100) with 100%Q. change (inject_Z 1) with 1%Q. lra.
Qed.

(** C2, as the sources have it. For a price that is not negative and below
    2^53 (the range in which [Math.floor(prix).toString()] prints all the
    digits of the floor; from 2^53 on it prints the shortest digits that
    read back as the same double): the integer part is the
    floor of the price in digits; there is a decimal part exactly when the
    price is not whole; the decimal part is the separator followed by two
    digits, the separator being kept; and for a price whose fraction is
    below 0.995 the integer part followed directly by the decimal part is
    the two-decimal text of the price. *)
Theorem decompose_price (prix : Q) :
  (0 <= prix)%Q ->
  (prix < inject_Z (2 ^ 53))%Q ->
  integerPart (decompose prix) = JS.digits (Qfloor prix) /\
  (hasFraction (decompose prix) = true <-> ~ (prix == inject_Z (Qfloor prix))%Q) /\
  (hasFraction (decompose prix) = true ->
   exists d1 d2,
     fractionPart (decompose prix) = String "." (String d1 (String d2 "")) /\
     isDigit d1 /\ isDigit d2) /\
  (hasFraction (decompose prix) = true ->
   (prix - inject_Z (Qfloor prix) < 995 # 1000)%Q ->
   integerPart (decompose prix) ++ fractionPart (decompose prix) = priceFixed prix).
Proof.
  intros Hpos _.
  assert (Hk : (0 <= Qfloor prix)%Z).
  { change 0%Z with (Qfloor (inject_Z 0)) at 1.
    rewrite Qfloor_Z. replace 0%Z with (Qfloor 0) by reflexivity.
    now apply Qfloor_resp_le. }
  assert (Hint : integerPart (decompose prix) = JS.digits (Qfloor prix)).
  { simpl. unfold priceNumber, JS.toStringZ, JS.floor.
    replace (Qfloor prix <? 0)%Z with false by (symmetry; apply Z.ltb_ge; lia).
    reflexivity. }
  split; [exact Hint|]. split; [|split].
  - simpl. unfold hasDecimal. rewrite (rem1_nonneg _ Hpos).
    rewrite negb_true_iff. split.
    + intros E Heq. apply Qeq_bool_neq in E. apply E. lra.
    + intros Hne. destruct (Qeq_bool (prix - inject_Z (Qfloor prix)) 0) eqn:E;
        [|reflexivity].
      apply Qeq_bool_eq in E. exfalso. apply Hne. lra.
  - simpl. intros ->. rewrite (decimal_digits _ Hpos).
    exists (JS.digitChar (cents prix mod 100 / 10)),
           (JS.digitChar ((cents prix mod 100) mod 10)).
    split; [reflexivity|].
    split; apply digitChar_isDigit; Z.div_mod_to_equations; lia.
  - intros Hfrac Hlow. rewrite Hint. simpl in *. rewrite Hfrac.
    rewrite (decimal_digits _ Hpos).
    pose proof (cents_range prix) as R. pose proof (cents_below _ Hlow) as B.
    rewrite Z.mod_small by lia.
    unfold priceFixed. rewrite (toFixed2_nonneg _ Hpos).
    rewrite (round_cents _ B). rewrite fixed2_split by lia. reflexivity.
Qed.

Lemma decompose_price_witness :
  (0 <= 25 # 2)%Q /\ (25 # 2 < inject_Z (2 ^ 53))%Q /\
  integerPart (decompose (25 # 2)) = JS.digits (Qfloor (25 # 2)) /\
  decompose (25 # 2) =
    {| integerPart := "12"; hasFraction := true; fractionPart := ".50" |}.
Proof.
  split; [discriminate|]. split; [reflexivity|]. split; [|reflexivity].
  refine (proj1 (decompose_price (25 # 2) _ _)); [discriminate | reflexivity].
Defined.

(** C2, as it is worded, fails at 12.50: the decimal part is ".50", with its
    separator, so that joining the parts with a separator gives "12..50" and
    not the two-decimal text "12.50". *)
Lemma decompose_counterexample :
  fractionPart (decompose (25 # 2)) = ".50" /\
  fractionPart (decompose (25 # 2)) <> "50" /\
  hasFraction (decompose (25 # 2)) = true /\
  integerPart (decompose (25 # 2)) ++ "." ++ fractionPart (decompose (25 # 2))
    <> priceFixed (25 # 2).
Proof.
  repeat split; try reflexivity; discriminate.
Qed.

(** Above a fraction of 0.995 the two texts part: 12.999 is shown as 12 and
    ".00" on the branded label and as "13.00" on the compact one. *)
Remark decompose_rounds_apart :
  decompose (12999 # 1000) =
    {| integerPart := "12"; hasFraction := true; fractionPart := ".00" |} /\
  priceFixed (12999 # 1000) = "13.00".
Proof. split; reflexivity. Qed.

(** ** The rows of the sheet *)

Lemma strictEqString_true (s : string) (cell : Cell) :
  strictEqString s cell = true <-> cell = CString s.
Proof.
  destruct cell; simpl; split; intros H; try discriminate.
  - apply String.eqb_eq in H. now subst.
  - injection H as ->. apply String.eqb_refl.
Qed.

Lemma indexOfFrom_absent {A : Type} (same : A -> bool) (l : list A) (i : Z) :
  (0 <= i)%Z ->
  (JS.indexOfFrom same i l = (-1)%Z <-> forall a, In a l -> same a = false) /\
  (JS.indexOfFrom same i l = (-1)%Z \/ (i <= JS.indexOfFrom same i l)%Z).
Proof.
  revert i. induction l as [|a l IH]; intros i Hi; simpl.
  - split; [|now left]. split; [intros _ a [] | reflexivity].
  - destruct (same a) eqn:E.
    + split; [|right; lia]. split; [lia|].
      intros H. specialize (H a (or_introl eq_refl)). congruence.
    + destruct (IH (i + 1)%Z ltac:(lia)) as [IH1 IH2]. split.
      * rewrite IH1. split.
        -- intros H b [<- | Hb]; [exact E | now apply H].
        -- intros H b Hb. apply H. now right.
      * destruct IH2 as [-> | IH2]; [now left | right; lia].
Qed.

(** [headers.indexOf(name) === -1] exactly when no header is [name]. *)
Lemma indexOf_absent (name : string) (headers : list Cell) :
  JS.indexOf (strictEqString name) headers = (-1)%Z <-> ~ In (CString name) headers.
Proof.
  unfold JS.indexOf.
  rewrite (proj1 (indexOfFrom_absent (strictEqString name) headers 0 ltac:(lia))).
  split.
  - intros H Hin. specialize (H _ Hin).
    rewrite (proj2 (strictEqString_true name (CString name)) eq_refl) in H.
    discriminate.
  - intros H a Ha. destruct (strictEqString name a) eqn:E; [|reflexivity].
    apply strictEqString_true in E. subst. contradiction.
Qed.

Lemma entries_findIndices (headers : list Cell) (mapping : ColumnMapping.t)
    (key : Key) (i : Z) :
  In (key, i) (entries (findIndices headers mapping)) <->
  i = JS.indexOf (strictEqString (mappingGet mapping key)) headers.
Proof.
  unfold entries, findIndices. simpl. split.
  - intros H. repeat (destruct H as [H | H]; [injection H as <- <-; reflexivity|]).
    destruct H.
  - intros ->. destruct key; simpl; tauto.
Qed.

(** The columns the error names are the mapped columns no header carries,
    all of them. *)
Lemma missingColumns_spec (headers : list Cell) (mapping : ColumnMapping.t)
    (name : string) :
  In name (missingColumns (findIndices headers mapping) mapping) <->
  exists key, name = mappingGet mapping key /\ ~ In (CString name) headers.
Proof.
  unfold missingColumns. rewrite in_map_iff. split.
  - intros [[key i] [<- H]]. apply filter_In in H. destruct H as [Hin Hi].
    simpl in *. apply Z.eqb_eq in Hi. apply entries_findIndices in Hin.
    exists key. split; [reflexivity|]. apply indexOf_absent. congruence.
  - intros [key [-> H]]. apply indexOf_absent in H.
    exists (key, (-1)%Z). split; [reflexivity|].
    apply filter_In. split; [|reflexivity].
    apply entries_findIndices. now rewrite H.
Qed.

Lemma in_notNull {A B : Type} (f : A -> option B) (l : list A) (b : B) :
  In b (notNull (map f l)) <-> exists a, In a l /\ f a = Some b.
Proof.
  induction l as [|a l IH]; simpl.
  - split; [intros [] | intros [a [[] _]]].
  - destruct (f a) as [b'|] eqn:E; simpl; rewrite IH; split.
    + intros [<- | [a' [Ha Hf]]]; [now exists a; auto | exists a'; auto].
    + intros [a' [[<- | Ha] Hf]]; [left; congruence | right; now exists a'].
    + intros [a' [Ha Hf]]. exists a'; auto.
    + intros [a' [[<- | Ha] Hf]]; [congruence | now exists a'].
Qed.

Section ExcelParserProperties.

Variable parseFloat : string -> option Q.
Variable numberToString : Q -> string.

Lemma mapDataToProducts_rows (data : list (list Cell)) (mapping : ColumnMapping.t)
    (imageFiles : string -> option string) :
  2 <= List.length data ->
  mapDataToProducts parseFloat numberToString data mapping imageFiles =
  match missingColumns (findIndices (nth 0 data []%list) mapping) mapping with
  | []%list =>
      Ok (notNull (map (rowToProduct parseFloat numberToString
                          (findIndices (nth 0 data []%list) mapping) imageFiles)
                       (filter nonEmptyRow (skipn 1 data))))
  | missing => Throw ("Missing columns: " ++ JS.join ", " missing)
  end.
Proof.
  intros H. unfold mapDataToProducts.
  replace (List.length data <? 2) with false by (symmetry; apply Nat.ltb_ge; lia).
  destruct (missingColumns _ mapping); reflexivity.
Qed.

Lemma mapDataToProducts_short (data : list (list Cell)) (mapping : ColumnMapping.t)
    (imageFiles : string -> option string) :
  List.length data < 2 ->
  mapDataToProducts parseFloat numberToString data mapping imageFiles = Ok []%list.
Proof.
  intros H. unfold mapDataToProducts.
  apply Nat.ltb_lt in H. now rewrite H.
Qed.

Lemma parseQte_nonzero (cell : Cell) : parseQte numberToString cell <> 0%Z.
Proof.
  unfold parseQte. destruct (JS.parseInt _) as [n|]; [|lia].
  destruct (n =? 0)%Z eqn:E; [lia | now apply Z.eqb_neq in E].
Qed.

Lemma parseQte_absent (cell : Cell) :
  truthy cell = false -> parseQte numberToString cell = 1%Z.
Proof.
  intros H. unfold parseQte, orString. rewrite H. reflexivity.
Qed.

Lemma parseQte_parsed (cell : Cell) (n : Z) :
  JS.parseInt (toStr numberToString (orString cell "1")) = Some n ->
  n <> 0%Z -> parseQte numberToString cell = n.
Proof.
  intros H Hn. unfold parseQte. rewrite H.
  apply Z.eqb_neq in Hn. now rewrite Hn.
Qed.

Lemma parseQte_NaN (cell : Cell) :
  JS.parseInt (toStr numberToString (orString cell "1")) = None ->
  parseQte numberToString cell = 1%Z.
Proof. intros H. unfold parseQte. now rewrite H. Qed.

Lemma parseQte_zero (cell : Cell) :
  JS.parseInt (toStr numberToString (orString cell "1")) = Some 0%Z ->
  parseQte numberToString cell = 1%Z.
Proof. intros H. unfold parseQte. now rewrite H. Qed.

Lemma rowToProduct_qte (indices : Indices) (imageFiles : string -> option string)
    (row : list Cell) (p : Product.t) :
  rowToProduct parseFloat numberToString indices imageFiles row = Some p ->
  Product.qte p = parseQte numberToString (cellAt row (i_qte indices)).
Proof.
  unfold rowToProduct. destruct (_ || _ || _); [discriminate|].
  intros H. injection H as <-. reflexivity.
Qed.

End ExcelParserProperties.

(** C10. Whatever the mapping, a sheet of fewer than two rows gives the
    empty list of products and no error: the columns are not looked up. *)
Theorem mapDataToProducts_no_data_rows (parseFloat : string -> option Q)
    (numberToString : Q -> string) (data : list (list Cell))
    (mapping : ColumnMapping.t) (imageFiles : string -> option string) :
  List.length data < 2 ->
  mapDataToProducts parseFloat numberToString data mapping imageFiles = Ok []%list.
Proof.
  intros H. now apply mapDataToProducts_short.
Qed.

Lemma mapDataToProducts_no_data_rows_witness :
  List.length [headersAB]%list < 2 /\
  mapDataToProducts parseFloatSample noNumbers [headersAB]%list mappingABCDE noImages
  = Ok []%list.
Proof.
  split; [simpl; lia|].
  apply mapDataToProducts_no_data_rows. simpl. lia.
Defined.

(** C7, as the sources have it. On a sheet with at least one row under the
    header row, the mapping fails exactly when one of the five mapped columns
    is not among the headers; the columns its message names are the mapped
    columns that are not among the headers, all of them; and the message is
    those names after "Missing columns: ". *)
Theorem missing_columns_reported (parseFloat : string -> option Q)
    (numberToString : Q -> string) (data : list (list Cell))
    (mapping : ColumnMapping.t) (imageFiles : string -> option string) :
  2 <= List.length data ->
  ((exists message,
      mapDataToProducts parseFloat numberToString data mapping imageFiles
      = Throw message) <->
   (exists key, ~ In (CString (mappingGet mapping key)) (nth 0 data []%list))) /\
  (forall name,
     In name (missingColumns (findIndices (nth 0 data []%list) mapping) mapping) <->
     exists key, name = mappingGet mapping key /\
                 ~ In (CString name) (nth 0 data []%list)) /\
  (forall message,
     mapDataToProducts parseFloat numberToString data mapping imageFiles
     = Throw message ->
     message = "Missing columns: " ++
               JS.join ", "
                 (missingColumns (findIndices (nth 0 data []%list) mapping) mapping)).
Proof.
  intros H. rewrite (mapDataToProducts_rows _ _ _ _ _ H).
  split; [|split].
  - destruct (missingColumns _ mapping) as [|name rest] eqn:E.
    + split; [intros [message Hm]; discriminate|].
      intros [key Hkey]. exfalso.
      assert (Hin : In (mappingGet mapping key)
                      (missingColumns (findIndices (nth 0 data []%list) mapping)
                         mapping))
        by (apply missingColumns_spec; now exists key).
      rewrite E in Hin. destruct Hin.
    + split; [|intros _; now eexists].
      intros _.
      assert (Hin : In name
                      (missingColumns (findIndices (nth 0 data []%list) mapping)
                         mapping))
        by (rewrite E; now left).
      apply missingColumns_spec in Hin. destruct Hin as [key [-> Hk]].
      now exists key.
  - intros name. apply missingColumns_spec.
  - intros message.
    destruct (missingColumns _ mapping); [discriminate|].
    intros Hm. now injection Hm as <-.
Qed.

Lemma missing_columns_reported_witness :
  2 <= List.length [headersAB; [CString "x"]]%list /\
  mapDataToProducts parseFloatSample noNumbers [headersAB; [CString "x"]]%list
    mappingABCDE noImages
  = Throw "Missing columns: C, D, E" /\
  (forall name,
     In name (missingColumns (findIndices headersAB mappingABCDE) mappingABCDE) <->
     exists key, name = mappingGet mappingABCDE key /\
                 ~ In (CString name) headersAB).
Proof.
  split; [simpl; lia|]. split; [reflexivity|].
  refine (proj1 (proj2 (missing_columns_reported parseFloatSample noNumbers
            [headersAB; [CString "x"]]%list mappingABCDE noImages _))).
  simpl. lia.
Defined.

(** C7, as it is worded, fails on a sheet that has its header row only: the
    columns C, D and E are not among the headers A and B, and yet nothing is
    thrown. *)
Lemma missing_columns_counterexample :
  mapDataToProducts parseFloatSample noNumbers [headersAB]%list mappingABCDE noImages
  = Ok []%list /\
  ~ In (CString (ColumnMapping.prix mappingABCDE)) headersAB /\
  ~ In (CString (ColumnMapping.designation mappingABCDE)) headersAB /\
  ~ In (CString (ColumnMapping.reference mappingABCDE)) headersAB.
Proof.
  split; [reflexivity|].
  repeat split; simpl; intros [H | [H | []]]; discriminate.
Qed.

(** C9, as the sources have it. Every product of the mapping comes from a
    data row, and its quantity is an integer other than zero, fixed by the
    quantity cell of the row in each case: it is 1 when the cell is missing,
    empty, zero or false; it is 1 when [parseInt] finds no integer at the
    start of the cell (as in "abc"); it is 1 when the integer found is zero
    (as in "0"); and otherwise it is the integer found, whatever its sign,
    as long as that integer is below 2^53 in absolute value, the range in
    which the number [parseInt] returns is that integer. *)
Theorem quantity_of_products (parseFloat : string -> option Q)
    (numberToString : Q -> string) (data : list (list Cell))
    (mapping : ColumnMapping.t) (imageFiles : string -> option string)
    (products : list Product.t) (p : Product.t) :
  mapDataToProducts parseFloat numberToString data mapping imageFiles = Ok products ->
  In p products ->
  exists row,
    In row (skipn 1 data) /\
    rowToProduct parseFloat numberToString (findIndices (nth 0 data []%list) mapping)
      imageFiles row = Some p /\
    Product.qte p <> 0%Z /\
    (truthy (cellAt row (i_qte (findIndices (nth 0 data []%list) mapping))) = false ->
     Product.qte p = 1%Z) /\
    (JS.parseInt
       (toStr numberToString
          (orString (cellAt row (i_qte (findIndices (nth 0 data []%list) mapping)))
             "1")) = None ->
     Product.qte p = 1%Z) /\
    (JS.parseInt
       (toStr numberToString
          (orString (cellAt row (i_qte (findIndices (nth 0 data []%list) mapping)))
             "1")) = Some 0%Z ->
     Product.qte p = 1%Z) /\
    (forall n,
       JS.parseInt
         (toStr numberToString
            (orString (cellAt row (i_qte (findIndices (nth 0 data []%list) mapping)))
               "1")) = Some n ->
       n <> 0%Z -> (Z.abs n < 2 ^ 53)%Z -> Product.qte p = n).
Proof.
  intros Hmap Hin.
  destruct (le_lt_dec 2 (List.length data)) as [L | L].
  2:{ rewrite mapDataToProducts_short in Hmap by exact L.
      injection Hmap as <-. destruct Hin. }
  rewrite (mapDataToProducts_rows _ _ _ _ _ L) in Hmap.
  destruct (missingColumns _ mapping); [|discriminate].
  injection Hmap as <-. apply in_notNull in Hin. destruct Hin as [row [Hrow Hp]].
  apply filter_In in Hrow. destruct Hrow as [Hrow _].
  exists row. split; [exact Hrow|]. split; [exact Hp|].
  rewrite (rowToProduct_qte _ _ _ _ _ _ Hp).
  split; [apply parseQte_nonzero|]. split; [|split; [|split]].
  - apply parseQte_absent.
  - apply parseQte_NaN.
  - apply parseQte_zero.
  - intros n Hn Hnz _. now apply parseQte_parsed.
Qed.

Lemma quantity_of_products_witness :
  mapDataToProducts parseFloatSample noNumbers sheetOfSample mappingOfSample noImages
  = Ok [returnedTea; jam]%list /\
  In jam [returnedTea; jam]%list /\
  exists row,
    In row (skipn 1 sheetOfSample) /\
    rowToProduct parseFloatSample noNumbers
      (findIndices (nth 0 sheetOfSample []%list) mappingOfSample) noImages row
    = Some jam /\
    Product.qte jam <> 0%Z /\
    (truthy (cellAt row
               (i_qte (findIndices (nth 0 sheetOfSample []%list) mappingOfSample)))
     = false -> Product.qte jam = 1%Z) /\
    (JS.parseInt
       (toStr noNumbers
          (orString
             (cellAt row
                (i_qte (findIndices (nth 0 sheetOfSample []%list) mappingOfSample)))
             "1")) = None ->
     Product.qte jam = 1%Z) /\
    (JS.parseInt
       (toStr noNumbers
          (orString
             (cellAt row
                (i_qte (findIndices (nth 0 sheetOfSample []%list) mappingOfSample)))
             "1")) = Some 0%Z ->
     Product.qte jam = 1%Z) /\
    (forall n,
       JS.parseInt
         (toStr noNumbers
            (orString
               (cellAt row
                  (i_qte (findIndices (nth 0 sheetOfSample []%list) mappingOfSample)))
               "1")) = Some n ->
       n <> 0%Z -> (Z.abs n < 2 ^ 53)%Z -> Product.qte jam = n).
Proof.
  split; [reflexivity|]. split; [simpl; tauto|].
  apply (quantity_of_products parseFloatSample noNumbers sheetOfSample
           mappingOfSample noImages [returnedTea; jam]%list jam).
  - reflexivity.
  - simpl. tauto.
Defined.

(** C9, as it is worded, fails on a row whose quantity cell holds "-5": the
    row is not skipped and its product has the quantity -5, below 1. *)
Lemma quantity_counterexample :
  mapDataToProducts parseFloatSample noNumbers sheetOfSample mappingOfSample noImages
  = Ok [returnedTea; jam]%list /\
  Product.qte returnedTea = (-5)%Z /\
  ~ (1 <= Product.qte returnedTea)%Z.
Proof.
  split; [reflexivity|]. split; [reflexivity|]. simpl. lia.
Qed.

(** The three ways to the quantity 1, and a quantity read: a cell that
    does not start with an integer, a cell that holds zero, a cell without
    content, and a cell that starts with 12. *)
Remark quantity_defaults :
  match
    mapDataToProducts parseFloatSample noNumbers
      [headersOfSample;
       [CString "1"; CString "abc"; CString "2.50"; CString "A"; CString "R1"];
       [CString "2"; CString "0"; CString "2.50"; CString "B"; CString "R2"];
       [CString "3"; CString ""; CString "2.50"; CString "C"; CString "R3"];
       [CString "4"; CString "12 pcs"; CString "2.50"; CString "D"; CString "R4"]]%list
      mappingOfSample noImages
  with
  | Ok products => map Product.qte products = [1; 1; 1; 12]%Z
  | Throw _ => False
  end.
Proof. vm_compute. reflexivity. Qed.

(** ** The grid of labels *)

Lemma Qceiling_unique (z : Z) (x : Q) :
  (inject_Z (z - 1) < x)%Q -> (x <= inject_Z z)%Q -> Qceiling x = z.
Proof.
  intros Hlo Hhi.
  pose proof (Qle_ceiling x) as Cl. pose proof (Qceiling_lt x) as Ch.
  assert (z - 1 < Qceiling x)%Z
    by (rewrite Zlt_Qlt; eapply Qlt_le_trans; eassumption).
  assert (Qceiling x - 1 < z)%Z
    by (rewrite Zlt_Qlt; eapply Qlt_le_trans; eassumption).
  lia.
Qed.

(** [Math.ceil(n / 24)] in whole numbers. *)
Lemma ceil_pages (n : nat) :
  JS.ceil (ofNat n / ofNat LABELS_PER_PAGE)%Q = Z.of_nat ((n + 23) / 24).
Proof.
  unfold JS.ceil. change (ofNat LABELS_PER_PAGE) with 24%Q.
  pose proof (Nat.div_mod_eq (n + 23) 24) as E.
  pose proof (Nat.mod_upper_bound (n + 23) 24 ltac:(lia)) as B.
  set (t := (n + 23) / 24) in *. set (m := (n + 23) mod 24) in *.
  apply Qceiling_unique; unfold ofNat.
  - assert (H : (24 * (Z.of_nat t - 1) < Z.of_nat n)%Z) by lia.
    rewrite Zlt_Qlt, inject_Z_mult in H. change (inject_Z 24) with 24%Q in H.
    apply Qlt_shift_div_l; [reflexivity | lra].
  - assert (H : (Z.of_nat n <= 24 * Z.of_nat t)%Z) by lia.
    rewrite Zle_Qle, inject_Z_mult in H. change (inject_Z 24) with 24%Q in H.
    apply Qle_shift_div_r; [reflexivity | lra].
Qed.

Lemma totalPages_nat {A : Type} (products : list A) :
  totalPages products = (List.length products + 23) / 24.
Proof.
  unfold totalPages. rewrite ceil_pages. apply Nat2Z.id.
Qed.

Lemma length_mapiFrom {A B : Type} (f : nat -> A -> B) (l : list A) (i : nat) :
  List.length (JS.mapiFrom i f l) = List.length l.
Proof.
  revert i. induction l as [|a l IH]; intros i; simpl; [reflexivity | now rewrite IH].
Qed.

Lemma map_mapiFrom_elements {A B : Type} (f : nat -> A -> B) (g : B -> A)
    (l : list A) (i : nat) :
  (forall j a, g (f j a) = a) -> map g (JS.mapiFrom i f l) = l.
Proof.
  intros H. revert i. induction l as [|a l IH]; intros i; simpl;
    [reflexivity | now rewrite H, IH].
Qed.

Lemma map_mapiFrom_indices {A B C : Type} (f : nat -> A -> B) (g : B -> C)
    (h : nat -> C) (l : list A) (i : nat) :
  (forall j a, g (f j a) = h j) ->
  map g (JS.mapiFrom i f l) = map h (seq i (List.length l)).
Proof.
  intros H. revert i. induction l as [|a l IH]; intros i; simpl;
    [reflexivity | now rewrite H, IH].
Qed.

Lemma length_placePage {A : Type} (products : list A) :
  List.length (placePage products) = List.length products.
Proof. apply length_mapiFrom. Qed.

Lemma products_placePage {A : Type} (products : list A) :
  map Placement.product (placePage products) = products.
Proof. apply map_mapiFrom_elements. reflexivity. Qed.

Lemma cells_placePage {A : Type} (products : list A) :
  cells (placePage products) = map cellOfIndex (seq 0 (List.length products)).
Proof. apply map_mapiFrom_indices. reflexivity. Qed.

Lemma cellOfIndex_injective (i j : nat) : cellOfIndex i = cellOfIndex j -> i = j.
Proof.
  intros H.
  assert (Hd : i / 3 = j / 3) by exact (f_equal fst H).
  assert (Hm : i mod 3 = j mod 3) by exact (f_equal snd H).
  rewrite (Nat.div_mod_eq i 3), (Nat.div_mod_eq j 3). now rewrite Hd, Hm.
Qed.

Lemma in_cells_upto (len r c : nat) :
  In (r, c) (map cellOfIndex (seq 0 len)) <-> c < 3 /\ 3 * r + c < len.
Proof.
  rewrite in_map_iff. unfold cellOfIndex, LABELS_PER_ROW. split.
  - intros [i [E Hi]]. apply in_seq in Hi.
    assert (Hd : i / 3 = r) by exact (f_equal fst E).
    assert (Hm : i mod 3 = c) by exact (f_equal snd E).
    pose proof (Nat.div_mod_eq i 3). pose proof (Nat.mod_upper_bound i 3). lia.
  - intros [Hc Hlen]. exists (3 * r + c). split; [|apply in_seq; lia].
    f_equal.
    + rewrite Nat.mul_comm, Nat.div_add_l by lia. rewrite Nat.div_small; lia.
    + rewrite Nat.add_comm, Nat.mul_comm, Nat.Div0.mod_add. now apply Nat.mod_small.
Qed.

Lemma nodup_cells_upto (len : nat) : NoDup (map cellOfIndex (seq 0 len)).
Proof.
  apply Injective_map_NoDup; [|apply seq_NoDup].
  intros i j. apply cellOfIndex_injective.
Qed.

Lemma firstn_then_firstn {A : Type} (a b : nat) (l : list A) :
  (firstn a l ++ firstn b (skipn a l))%list = firstn (a + b) l.
Proof.
  revert l. induction a as [|a IH]; intros l; simpl; [reflexivity|].
  destruct l as [|x l]; simpl; [now rewrite firstn_nil | now rewrite IH].
Qed.

Lemma length_pageProducts {A : Type} (products : list A) (page : nat) :
  List.length (pageProducts products page) =
  Nat.min 24 (List.length products - 24 * page).
Proof.
  unfold pageProducts, JS.slice, LABELS_PER_PAGE, LABELS_PER_ROW, LABELS_PER_COLUMN.
  rewrite length_firstn, length_skipn. lia.
Qed.

Lemma pageProducts_firstn {A : Type} (products : list A) (page : nat) :
  pageProducts products page = firstn 24 (skipn (24 * page) products).
Proof.
  unfold pageProducts, JS.slice, LABELS_PER_PAGE, LABELS_PER_ROW, LABELS_PER_COLUMN.
  change (3 * 8) with 24. rewrite (Nat.mul_comm page 24).
  set (rest := skipn (24 * page) products).
  assert (L : List.length rest = List.length products - 24 * page)
    by apply length_skipn.
  destruct (le_lt_dec 24 (List.length rest)) as [H | H].
  - f_equal. lia.
  - rewrite (firstn_all2 (n := 24)) by lia. apply firstn_all2. lia.
Qed.

(** The pages up to a page, one after another, are the first products. *)
Lemma concat_pageProducts {A : Type} (products : list A) (pages : nat) :
  List.concat (map (pageProducts products) (seq 0 pages)) = firstn (24 * pages) products.
Proof.
  induction pages as [|pages IH]; [reflexivity|].
  rewrite seq_S, map_app, concat_app, IH.
  change (List.concat (map (pageProducts products) [0 + pages]%list))
    with (pageProducts products pages ++ [])%list.
  rewrite app_nil_r, pageProducts_firstn, firstn_then_firstn.
  f_equal. lia.
Qed.

Lemma nth_error_layoutPages {A : Type} (products : list A) (i : nat)
    (page : list (Placement.t A)) :
  nth_error (layoutPages products) i = Some page ->
  i < totalPages products /\ page = placePage (pageProducts products i).
Proof.
  unfold layoutPages. intros H.
  assert (L : i < totalPages products).
  { assert (S : nth_error
                    (map (fun page => placePage (pageProducts products page))
                       (seq 0 (totalPages products))) i <> None) by congruence.
    apply nth_error_Some in S. now rewrite length_map, length_seq in S. }
  split; [exact L|].
  rewrite nth_error_map, (nth_error_nth' _ 0) in H by now rewrite length_seq.
  rewrite seq_nth in H by exact L. simpl in H. congruence.
Qed.

(** C3. The products of the placements, page after page and placement after
    placement, are the list that was given: none is left out, none comes
    twice, none changes place. *)
Theorem layout_preserves_order (A : Type) (products : list A) :
  List.concat (map (map Placement.product) (layoutPages products)) = products.
Proof.
  unfold layoutPages. rewrite map_map.
  rewrite (map_ext _ (pageProducts products))
    by (intros page; apply products_placePage).
  rewrite concat_pageProducts, totalPages_nat.
  apply firstn_all2.
  pose proof (Nat.div_mod_eq (List.length products + 23) 24).
  pose proof (Nat.mod_upper_bound (List.length products + 23) 24). lia.
Qed.

(** C1, as the sources have it. The layout has ceil(n / 24) pages, none for
    no product; every page but the last holds 24 placements and the last one
    the rest, n mod 24 or 24; on a page the cells of the placements are
    pairwise distinct and are the first cells of the 8 x 3 grid row by row,
    as many as the page holds, so that they are the whole grid exactly on a
    page of 24. The document is saved all the same when there is no product. *)
Theorem layout_pages (A : Type) (products : list A) :
  Z.of_nat (List.length (layoutPages products)) =
    JS.ceil (ofNat (List.length products) / 24)%Q /\
  (products = []%list -> layoutPages products = []%list) /\
  (forall i page,
     nth_error (layoutPages products) i = Some page ->
     (S i < List.length (layoutPages products) -> List.length page = 24) /\
     (S i = List.length (layoutPages products) ->
      List.length page =
        if List.length products mod 24 =? 0 then 24 else List.length products mod 24) /\
     NoDup (cells page) /\
     (forall r c,
        In (r, c) (cells page) <-> r < 8 /\ c < 3 /\ 3 * r + c < List.length page) /\
     (List.length page = 24 ->
      forall r c, r < 8 -> c < 3 -> In (r, c) (cells page))) /\
  (forall (HTMLImageElement : Type) (imageWidth imageHeight : HTMLImageElement -> Q)
          (stringWidth : Font -> string -> Q)
          (canvasToJPEG : HTMLImageElement -> Q -> Q -> Q -> Q -> CanvasResult)
          (barcodePNG : string -> string)
          (imageCache : string -> option HTMLImageElement),
     items (generatePDF HTMLImageElement imageWidth imageHeight stringWidth
              canvasToJPEG barcodePNG []%list imageCache)
     = [SavedAs "price-labels.pdf"]%list).
Proof.
  assert (T : List.length (layoutPages products) = (List.length products + 23) / 24).
  { unfold layoutPages. now rewrite length_map, length_seq, totalPages_nat. }
  pose proof (Nat.div_mod_eq (List.length products + 23) 24) as E.
  pose proof (Nat.mod_upper_bound (List.length products + 23) 24 ltac:(lia)) as B.
  pose proof (Nat.div_mod_eq (List.length products) 24) as E'.
  pose proof (Nat.mod_upper_bound (List.length products) 24 ltac:(lia)) as B'.
  split; [|split; [|split]].
  - rewrite T. symmetry. apply ceil_pages.
  - intros ->. reflexivity.
  - intros i page Hpage.
    destruct (nth_error_layoutPages _ _ _ Hpage) as [Hi ->].
    rewrite totalPages_nat in Hi.
    assert (L : List.length (placePage (pageProducts products i))
                = Nat.min 24 (List.length products - 24 * i))
      by now rewrite length_placePage, length_pageProducts.
    rewrite cells_placePage.
    assert (L' : List.length (pageProducts products i)
                 = Nat.min 24 (List.length products - 24 * i))
      by apply length_pageProducts.
    split; [|split; [|split; [|split]]].
    + intros Hlt. rewrite L. lia.
    + intros Hlast. rewrite L.
      destruct (List.length products mod 24 =? 0) eqn:M;
        [apply Nat.eqb_eq in M | apply Nat.eqb_neq in M]; lia.
    + apply nodup_cells_upto.
    + intros r c. rewrite in_cells_upto. lia.
    + intros H24 r c Hr Hc. apply in_cells_upto. lia.
  - reflexivity.
Qed.

(** C1, as it is worded, fails on a single product: its page holds one
    placement, in the cell (0, 0), and the cell (0, 1) of the grid is not
    among the cells of the page. *)
Lemma layout_partial_page_counterexample :
  map cells (layoutPages [tt]%list) = [[(0, 0)]]%list /\
  0 < 8 /\ 1 < 3 /\
  ~ In (0, 1) (List.concat (map cells (layoutPages [tt]%list))).
Proof.
  split; [reflexivity|]. split; [lia|]. split; [lia|].
  simpl. intros [H | []]. discriminate.
Qed.

(** ** The items of a label and of the document *)


Section PdfGeneratorProperties.

Variable HTMLImageElement : Type.
Variable imageWidth imageHeight : HTMLImageElement -> Q.
Variable stringWidth : Font -> string -> Q.
Variable canvasToJPEG : HTMLImageElement -> Q -> Q -> Q -> Q -> CanvasResult.
Variable barcodePNG : string -> string.

Lemma items_drawLabelToPDF (pdf : Pdf) (product : Product.t) (x y : Q)
    (imageCache : string -> option HTMLImageElement) :
  items (drawLabelToPDF HTMLImageElement imageWidth imageHeight stringWidth
           canvasToJPEG barcodePNG pdf product x y imageCache)
  = (items pdf ++
     labelItems HTMLImageElement imageWidth imageHeight stringWidth canvasToJPEG
       barcodePNG product x y imageCache)%list.
Proof.
  unfold drawLabelToPDF, labelItems, labelBody, imageItems, quantityItems.
  destruct (JsBarcode barcodePNG (Product.codebar product)) as [barcodeData|];
    destruct (imageCache (Product.reference product)) as [productImage|];
    try destruct (productImageData _ _ _ _ productImage);
    destruct (1 <? Product.qte product)%Z;
    cbv beta iota zeta delta
      [drawPlaceholderImage setDrawColor setLineWidth setFillColor setTextColor
       setFontSize setFont draw rect rectF text addImage consoleError items
       font getTextWidth drawColor lineWidth fillColor textColor errors
       fontName fontStyle fontSize];
    repeat rewrite <- app_assoc; reflexivity.
Qed.

Lemma items_labels (imageCache : string -> option HTMLImageElement)
    (placements : list (Placement.t Product.t)) (pdf : Pdf) :
  items
    (fold_left
       (fun pdf placement =>
          drawLabelToPDF HTMLImageElement imageWidth imageHeight stringWidth
            canvasToJPEG barcodePNG pdf (Placement.product placement)
            (Placement.x placement) (Placement.y placement) imageCache)
       placements pdf)
  = (items pdf ++
     List.concat
       (map (fun placement =>
               labelItems HTMLImageElement imageWidth imageHeight stringWidth
                 canvasToJPEG barcodePNG (Placement.product placement)
                 (Placement.x placement) (Placement.y placement) imageCache)
            placements))%list.
Proof.
  revert pdf. induction placements as [|placement placements IH]; intros pdf; simpl.
  - now rewrite app_nil_r.
  - rewrite IH, items_drawLabelToPDF. now rewrite <- app_assoc.
Qed.

Lemma items_pages (products : list Product.t)
    (imageCache : string -> option HTMLImageElement) (pages : list nat) (pdf : Pdf) :
  items
    (fold_left
       (fun pdf page =>
          let pdf := if 0 <? page then addPage pdf else pdf in
          fold_left
            (fun pdf placement =>
               drawLabelToPDF HTMLImageElement imageWidth imageHeight stringWidth
                 canvasToJPEG barcodePNG pdf (Placement.product placement)
                 (Placement.x placement) (Placement.y placement) imageCache)
            (placePage (pageProducts products page)) pdf)
       pages pdf)
  = (items pdf ++
     List.concat
       (map (pageItems HTMLImageElement imageWidth imageHeight stringWidth
               canvasToJPEG barcodePNG products imageCache) pages))%list.
Proof.
  revert pdf. induction pages as [|page pages IH]; intros pdf; simpl.
  - now rewrite app_nil_r.
  - rewrite IH, items_labels. unfold pageItems.
    destruct (0 <? page); simpl; repeat rewrite <- app_assoc; reflexivity.
Qed.

Lemma items_generatePDF (products : list Product.t)
    (imageCache : string -> option HTMLImageElement) :
  items (generatePDF HTMLImageElement imageWidth imageHeight stringWidth
           canvasToJPEG barcodePNG products imageCache)
  = documentItems HTMLImageElement imageWidth imageHeight stringWidth
      canvasToJPEG barcodePNG products imageCache.
Proof.
  unfold generatePDF, documentItems, save, draw. simpl items.
  now rewrite items_pages.
Qed.




End PdfGeneratorProperties.




(** A label whose code is valid does hold the two barcode items. *)
Remark valid_label_has_barcode (HTMLImageElement : Type)
    (imageWidth imageHeight : HTMLImageElement -> Q)
    (stringWidth : Font -> string -> Q)
    (canvasToJPEG : HTMLImageElement -> Q -> Q -> Q -> Q -> CanvasResult)
    (barcodePNG : string -> string) (product : Product.t) (x y : Q)
    (imageCache : string -> option HTMLImageElement) :
  code128Valid (Product.codebar product) = true ->
  existsb isBarcodeItem
    (labelItems HTMLImageElement imageWidth imageHeight stringWidth canvasToJPEG
       barcodePNG product x y imageCache) = true.
Proof.
  intros H. unfold labelItems, JsBarcode. rewrite H.
  rewrite existsb_app. apply orb_true_iff. right. reflexivity.
Qed.

(* ====================================================================== *)
(** * Part III. Further properties of the sources *)
(* ====================================================================== *)

(** ** The grid: where a product lands *)

Lemma nth_error_mapiFrom {A B : Type} (f : nat -> A -> B) (l : list A) (i k : nat) :
  nth_error (JS.mapiFrom i f l) k = option_map (f (i + k)) (nth_error l k).
Proof.
  revert i k. induction l as [|a l IH]; intros i [|k]; simpl; try reflexivity.
  - now rewrite Nat.add_0_r.
  - rewrite IH. now rewrite Nat.add_succ_r.
Qed.

Lemma nth_error_placePage {A : Type} (products : list A) (i : nat) (p : A) :
  nth_error products i = Some p ->
  nth_error (placePage products) i =
  Some (Placement.mk p (i / LABELS_PER_ROW) (i mod LABELS_PER_ROW)
          (MARGIN_X + ofNat (i mod LABELS_PER_ROW) * LABEL_WIDTH)%Q
          (MARGIN_Y + ofNat (i / LABELS_PER_ROW) * LABEL_HEIGHT)%Q).
Proof.
  intros H. unfold placePage, JS.mapi. rewrite nth_error_mapiFrom, H. reflexivity.
Qed.

Lemma nth_error_pageProducts {A : Type} (products : list A) (page i : nat) :
  i < 24 -> nth_error (pageProducts products page) i = nth_error products (24 * page + i).
Proof.
  intros H. rewrite pageProducts_firstn, nth_error_firstn, nth_error_skipn.
  apply Nat.ltb_lt in H. now rewrite H.
Qed.

Lemma in_placePage {A : Type} (products : list A) (placement : Placement.t A) :
  In placement (placePage products) ->
  exists i,
    i < List.length products /\
    Placement.row placement = i / 3 /\
    Placement.col placement = i mod 3 /\
    Placement.x placement = (MARGIN_X + ofNat (i mod 3) * LABEL_WIDTH)%Q /\
    Placement.y placement = (MARGIN_Y + ofNat (i / 3) * LABEL_HEIGHT)%Q.
Proof.
  intros H. apply In_nth_error in H. destruct H as [i H].
  assert (L : i < List.length products).
  { rewrite <- length_placePage. apply nth_error_Some. congruence. }
  destruct (nth_error products i) as [p|] eqn:E.
  2:{ apply nth_error_None in E. lia. }
  rewrite (nth_error_placePage _ _ _ E) in H. injection H as <-.
  exists i. repeat split; [exact L].
Qed.

Lemma in_layoutPages {A : Type} (products : list A) (page : list (Placement.t A)) :
  In page (layoutPages products) ->
  exists i, page = placePage (pageProducts products i).
Proof.
  unfold layoutPages. intros H. apply in_map_iff in H.
  destruct H as [i [<- _]]. now exists i.
Qed.

Lemma ofNat_le (a b : nat) : a <= b -> (ofNat a <= ofNat b)%Q.
Proof. intros H. unfold ofNat. rewrite <- Zle_Qle. lia. Qed.

Lemma ofNat_S (a : nat) : (ofNat (S a) == ofNat a + 1)%Q.
Proof.
  unfold ofNat. rewrite Nat2Z.inj_succ, <- Z.add_1_r, inject_Z_plus. reflexivity.
Qed.

(** X1. The product at index [k] of the list is drawn on page [k / 24], as
    the placement number [k mod 24] of that page, in row [(k mod 24) / 3]
    and column [k mod 3], at the corner the margins and the cell sizes give. *)
Theorem placement_of_index (A : Type) (products : list A) (k : nat) (p : A) :
  nth_error products k = Some p ->
  exists page placement,
    nth_error (layoutPages products) (k / 24) = Some page /\
    nth_error page (k mod 24) = Some placement /\
    Placement.product placement = p /\
    Placement.row placement = (k mod 24) / 3 /\
    Placement.col placement = k mod 3 /\
    (Placement.x placement == 70 * ofNat (k mod 3))%Q /\
    (Placement.y placement == (9 # 2) + 36 * ofNat ((k mod 24) / 3))%Q.
Proof.
  intros H.
  assert (Hk : k < List.length products) by (apply nth_error_Some; congruence).
  pose proof (Nat.div_mod_eq k 24) as E.
  pose proof (Nat.mod_upper_bound k 24 ltac:(lia)) as B.
  assert (M : (k mod 24) mod 3 = k mod 3).
  { pose proof (Nat.div_mod_eq (k mod 24) 3). pose proof (Nat.div_mod_eq k 3).
    pose proof (Nat.mod_upper_bound (k mod 24) 3 ltac:(lia)).
    pose proof (Nat.mod_upper_bound k 3 ltac:(lia)).
    apply (Nat.mod_unique k 3 (8 * (k / 24) + (k mod 24) / 3)); lia. }
  exists (placePage (pageProducts products (k / 24))).
  eexists. split; [|split].
  - unfold layoutPages. rewrite nth_error_map.
    rewrite (nth_error_nth' _ 0).
    2:{ rewrite length_seq, totalPages_nat.
        pose proof (Nat.div_mod_eq (List.length products + 23) 24).
        pose proof (Nat.mod_upper_bound (List.length products + 23) 24 ltac:(lia)).
        apply Nat.Div0.div_lt_upper_bound. lia. }
    rewrite seq_nth; [reflexivity|].
    rewrite totalPages_nat.
    pose proof (Nat.div_mod_eq (List.length products + 23) 24).
    pose proof (Nat.mod_upper_bound (List.length products + 23) 24 ltac:(lia)).
    apply Nat.Div0.div_lt_upper_bound. lia.
  - apply nth_error_placePage. rewrite nth_error_pageProducts by exact B.
    rewrite <- E. exact H.
  - cbn [Placement.product Placement.row Placement.col Placement.x Placement.y].
    unfold LABELS_PER_ROW. rewrite M.
    repeat split; unfold MARGIN_X, MARGIN_Y, PAGE_WIDTH, PAGE_HEIGHT, LABEL_WIDTH,
      LABEL_HEIGHT, LABELS_PER_ROW, LABELS_PER_COLUMN;
      change (ofNat 3) with 3%Q; change (ofNat 8) with 8%Q; field.
Qed.

Lemma placement_of_index_witness :
  nth_error (seq 0 26) 25 = Some 25 /\
  exists page placement,
    nth_error (layoutPages (seq 0 26)) (25 / 24) = Some page /\
    nth_error page (25 mod 24) = Some placement /\
    Placement.product placement = 25 /\
    Placement.row placement = (25 mod 24) / 3 /\
    Placement.col placement = 25 mod 3 /\
    (Placement.x placement == 70 * ofNat (25 mod 3))%Q /\
    (Placement.y placement == (9 # 2) + 36 * ofNat ((25 mod 24) / 3))%Q.
Proof.
  split; [reflexivity|].
  apply (placement_of_index nat (seq 0 26) 25 25). reflexivity.
Defined.

(** ** The grid: inside the page, and never one cell over another *)

Lemma margins : (MARGIN_X == 0)%Q /\ (MARGIN_Y == 9 # 2)%Q.
Proof. split; reflexivity. Qed.

Lemma index_on_page (i len : nat) :
  i < len -> len <= 24 -> i mod 3 <= 2 /\ i / 3 <= 7.
Proof.
  intros Hi Hlen. pose proof (Nat.div_mod_eq i 3).
  pose proof (Nat.mod_upper_bound i 3 ltac:(lia)). lia.
Qed.

Lemma length_pageProducts_le {A : Type} (products : list A) (page : nat) :
  List.length (pageProducts products page) <= 24.
Proof. rewrite length_pageProducts. lia. Qed.

(** X2. Every label cell of every page lies inside the A4 page, with the
    grid centred: nothing to the left of the page or beyond its right edge
    (the three columns fill the width), and the same margin of 4.5 mm above
    the first row and below the last. *)
Theorem placements_inside_page (A : Type) (products : list A)
    (page : list (Placement.t A)) (placement : Placement.t A) :
  In page (layoutPages products) ->
  In placement page ->
  (0 <= Placement.x placement)%Q /\
  (Placement.x placement + LABEL_WIDTH <= PAGE_WIDTH)%Q /\
  (9 # 2 <= Placement.y placement)%Q /\
  (Placement.y placement + LABEL_HEIGHT <= PAGE_HEIGHT - (9 # 2))%Q.
Proof.
  intros Hpage Hin. destruct (in_layoutPages _ _ Hpage) as [n ->].
  destruct (in_placePage _ _ Hin) as (i & Hi & _ & _ & Hx & Hy).
  destruct (index_on_page i _ Hi (length_pageProducts_le products n)) as [Hc Hr].
  rewrite Hx, Hy. destruct margins as [-> ->].
  pose proof (ofNat_le 0 _ (Nat.le_0_l (i mod 3))) as C0.
  pose proof (ofNat_le _ 2 Hc) as C2.
  pose proof (ofNat_le 0 _ (Nat.le_0_l (i / 3))) as R0.
  pose proof (ofNat_le _ 7 Hr) as R7.
  change (ofNat 0) with 0%Q in *. change (ofNat 2) with 2%Q in *.
  change (ofNat 7) with 7%Q in *.
  unfold LABEL_WIDTH, LABEL_HEIGHT, PAGE_WIDTH, PAGE_HEIGHT.
  repeat split; nra.
Qed.

Lemma placements_inside_page_witness :
  In (placePage (pageProducts (seq 0 26) 1)) (layoutPages (seq 0 26)) /\
  In (placementOfSample 25 1) (placePage (pageProducts (seq 0 26) 1)) /\
  (Placement.x (placementOfSample 25 1) + LABEL_WIDTH <= PAGE_WIDTH)%Q.
Proof.
  assert (P : In (placePage (pageProducts (seq 0 26) 1)) (layoutPages (seq 0 26)))
    by (right; left; reflexivity).
  assert (Q : In (placementOfSample 25 1) (placePage (pageProducts (seq 0 26) 1)))
    by (right; left; reflexivity).
  split; [exact P|]. split; [exact Q|].
  exact (proj1 (proj2 (placements_inside_page nat (seq 0 26) _ _ P Q))).
Defined.

(** X3. Two placements of a page never lie one over the other: their cells
    are side by side or one above the other, a full label width or height
    apart. *)
Theorem placements_disjoint (A : Type) (products : list A)
    (page : list (Placement.t A)) (i j : nat) (p q : Placement.t A) :
  In page (layoutPages products) ->
  nth_error page i = Some p ->
  nth_error page j = Some q ->
  i <> j ->
  (Placement.x p + LABEL_WIDTH <= Placement.x q)%Q \/
  (Placement.x q + LABEL_WIDTH <= Placement.x p)%Q \/
  (Placement.y p + LABEL_HEIGHT <= Placement.y q)%Q \/
  (Placement.y q + LABEL_HEIGHT <= Placement.y p)%Q.
Proof.
  intros Hpage Hp Hq Hij. destruct (in_layoutPages _ _ Hpage) as [n ->].
  assert (G : forall k r, nth_error (placePage (pageProducts products n)) k = Some r ->
              Placement.x r = (MARGIN_X + ofNat (k mod 3) * LABEL_WIDTH)%Q /\
              Placement.y r = (MARGIN_Y + ofNat (k / 3) * LABEL_HEIGHT)%Q).
  { intros k r Hr.
    destruct (nth_error (pageProducts products n) k) as [a|] eqn:E.
    - rewrite (nth_error_placePage _ _ _ E) in Hr. injection Hr as <-. now split.
    - apply nth_error_None in E. rewrite <- length_placePage in E.
      apply nth_error_None in E. congruence. }
  destruct (G _ _ Hp) as [-> ->]. destruct (G _ _ Hq) as [-> ->].
  unfold LABEL_WIDTH, LABEL_HEIGHT.
  assert (D : i mod 3 < j mod 3 \/ j mod 3 < i mod 3 \/ i / 3 < j / 3 \/ j / 3 < i / 3).
  { pose proof (Nat.div_mod_eq i 3). pose proof (Nat.div_mod_eq j 3). lia. }
  destruct D as [D | [D | [D | D]]]; apply ofNat_le in D; rewrite ofNat_S in D;
    [left | right; left | right; right; left | right; right; right]; nra.
Qed.

Lemma placements_disjoint_witness :
  In (placePage (pageProducts (seq 0 26) 0)) (layoutPages (seq 0 26)) /\
  nth_error (placePage (pageProducts (seq 0 26) 0)) 0 = Some (placementOfSample 0 0) /\
  nth_error (placePage (pageProducts (seq 0 26) 0)) 4 = Some (placementOfSample 4 4) /\
  0 <> 4 /\
  ((Placement.x (placementOfSample 0 0) + LABEL_WIDTH
    <= Placement.x (placementOfSample 4 4))%Q \/
   (Placement.x (placementOfSample 4 4) + LABEL_WIDTH
    <= Placement.x (placementOfSample 0 0))%Q \/
   (Placement.y (placementOfSample 0 0) + LABEL_HEIGHT
    <= Placement.y (placementOfSample 4 4))%Q \/
   (Placement.y (placementOfSample 4 4) + LABEL_HEIGHT
    <= Placement.y (placementOfSample 0 0))%Q).
Proof.
  assert (P : In (placePage (pageProducts (seq 0 26) 0)) (layoutPages (seq 0 26)))
    by (left; reflexivity).
  split; [exact P|]. split; [reflexivity|]. split; [reflexivity|].
  split; [discriminate|].
  apply (placements_disjoint nat (seq 0 26) _ 0 4 _ _ P);
    [reflexivity | reflexivity | discriminate].
Defined.

(** ** The document: one border a product, one page break between pages *)

Lemma countItems_app (kind : Item -> bool) (l m : list Item) :
  countItems kind (l ++ m)%list = countItems kind l + countItems kind m.
Proof. unfold countItems. now rewrite filter_app, length_app. Qed.

Lemma countItems_concat_map {A : Type} (kind : Item -> bool) (f : A -> list Item)
    (l : list A) :
  countItems kind (List.concat (map f l))
  = list_sum (map (fun a => countItems kind (f a)) l).
Proof.
  induction l as [|a l IH]; simpl; [reflexivity|].
  now rewrite countItems_app, IH.
Qed.

Lemma list_sum_const (c : nat) {A : Type} (f : A -> nat) (l : list A) :
  (forall a, f a = c) -> list_sum (map f l) = c * List.length l.
Proof.
  intros H. induction l as [|a l IH]; simpl; [lia|]. rewrite H, IH. lia.
Qed.

Lemma length_all_pages {A : Type} (products : list A) :
  list_sum (map (fun page => List.length (pageProducts products page))
              (seq 0 (totalPages products)))
  = List.length products.
Proof.
  rewrite <- (map_map (pageProducts products) (@List.length A)).
  rewrite <- length_concat, concat_pageProducts, totalPages_nat.
  rewrite firstn_all2; [reflexivity|].
  pose proof (Nat.div_mod_eq (List.length products + 23) 24).
  pose proof (Nat.mod_upper_bound (List.length products + 23) 24). lia.
Qed.

Lemma page_breaks_upto (pages : nat) :
  list_sum (map (fun page => if 0 <? page then 1 else 0) (seq 0 pages)) = pages - 1.
Proof.
  induction pages as [|pages IH]; [reflexivity|].
  rewrite seq_S, map_app, list_sum_app, IH. simpl.
  destruct pages; simpl; lia.
Qed.

Section DocumentStructure.

Variable HTMLImageElement : Type.
Variable imageWidth imageHeight : HTMLImageElement -> Q.
Variable stringWidth : Font -> string -> Q.
Variable canvasToJPEG : HTMLImageElement -> Q -> Q -> Q -> Q -> CanvasResult.
Variable barcodePNG : string -> string.

(** Of each kind, what one label holds: one border, no page break, no
    saving. *)
Lemma label_kinds (product : Product.t) (x y : Q)
    (imageCache : string -> option HTMLImageElement) :
  countItems isBorderItem
    (labelItems HTMLImageElement imageWidth imageHeight stringWidth canvasToJPEG
       barcodePNG product x y imageCache) = 1 /\
  countItems isPageBreak
    (labelItems HTMLImageElement imageWidth imageHeight stringWidth canvasToJPEG
       barcodePNG product x y imageCache) = 0 /\
  countItems isSaving
    (labelItems HTMLImageElement imageWidth imageHeight stringWidth canvasToJPEG
       barcodePNG product x y imageCache) = 0.
Proof.
  unfold labelItems, labelBody, imageItems, quantityItems.
  destruct (JsBarcode barcodePNG (Product.codebar product));
    destruct (imageCache (Product.reference product)) as [productImage|];
    try destruct (productImageData _ _ _ _ productImage);
    destruct (1 <? Product.qte product)%Z; repeat split; reflexivity.
Qed.

Lemma page_kinds (products : list Product.t)
    (imageCache : string -> option HTMLImageElement) (page : nat) :
  countItems isBorderItem
    (pageItems HTMLImageElement imageWidth imageHeight stringWidth canvasToJPEG
       barcodePNG products imageCache page)
  = List.length (pageProducts products page) /\
  countItems isPageBreak
    (pageItems HTMLImageElement imageWidth imageHeight stringWidth canvasToJPEG
       barcodePNG products imageCache page)
  = (if 0 <? page then 1 else 0) /\
  countItems isSaving
    (pageItems HTMLImageElement imageWidth imageHeight stringWidth canvasToJPEG
       barcodePNG products imageCache page) = 0.
Proof.
  unfold pageItems. rewrite !countItems_app, !countItems_concat_map.
  rewrite (list_sum_const 1), (list_sum_const 0), (list_sum_const 0);
    try (intros placement; apply label_kinds).
  rewrite length_placePage. destruct (0 <? page); repeat split; simpl; lia.
Qed.

End DocumentStructure.

(** X4. Whatever the products, the images and the fonts, the exported
    document holds one label border for each product, one page break less
    than it has pages of labels, and is saved once, as the last thing done,
    under the name price-labels.pdf. *)
Theorem document_structure (HTMLImageElement : Type)
    (imageWidth imageHeight : HTMLImageElement -> Q)
    (stringWidth : Font -> string -> Q)
    (canvasToJPEG : HTMLImageElement -> Q -> Q -> Q -> Q -> CanvasResult)
    (barcodePNG : string -> string) (products : list Product.t)
    (imageCache : string -> option HTMLImageElement) :
  countItems isBorderItem
    (items (generatePDF HTMLImageElement imageWidth imageHeight stringWidth
              canvasToJPEG barcodePNG products imageCache))
  = List.length products /\
  countItems isPageBreak
    (items (generatePDF HTMLImageElement imageWidth imageHeight stringWidth
              canvasToJPEG barcodePNG products imageCache))
  = (List.length products + 23) / 24 - 1 /\
  filter isSaving
    (items (generatePDF HTMLImageElement imageWidth imageHeight stringWidth
              canvasToJPEG barcodePNG products imageCache))
  = [SavedAs "price-labels.pdf"]%list /\
  last
    (items (generatePDF HTMLImageElement imageWidth imageHeight stringWidth
              canvasToJPEG barcodePNG products imageCache)) NewPage
  = SavedAs "price-labels.pdf".
Proof.
  rewrite items_generatePDF. unfold documentItems.
  split; [|split; [|split]].
  - rewrite countItems_app, countItems_concat_map.
    rewrite (map_ext _ (fun page => List.length (pageProducts products page)))
      by (intros page; apply page_kinds).
    rewrite length_all_pages. unfold countItems. simpl. lia.
  - rewrite countItems_app, countItems_concat_map.
    rewrite (map_ext _ (fun page => if 0 <? page then 1 else 0))
      by (intros page; apply page_kinds).
    rewrite page_breaks_upto, totalPages_nat. unfold countItems. simpl. lia.
  - rewrite filter_app.
    assert (Z : countItems isSaving
                  (List.concat
                     (map (pageItems HTMLImageElement imageWidth imageHeight
                             stringWidth canvasToJPEG barcodePNG products imageCache)
                        (seq 0 (totalPages products)))) = 0).
    { rewrite countItems_concat_map, (list_sum_const 0); [lia|].
      intros page. apply page_kinds. }
    unfold countItems in Z. apply length_zero_iff_nil in Z. now rewrite Z.
  - apply last_last.
Qed.

(** ** The truncation: what is drawn never runs over the limit *)

Lemma fit_width_bound (measure : string -> Q) (maxWidth : Q) (text : string) :
  (measure ellipsis <= maxWidth)%Q ->
  (measure (fitText measure maxWidth text) <= maxWidth)%Q /\
  isPrefix (truncateLoop measure maxWidth text) text.
Proof.
  intros Hmarker. split; [|apply truncateLoop_isPrefix].
  destruct (Qlt_le_dec maxWidth (measure text)) as [Hover | Hfits].
  - rewrite (fitText_overflow _ _ _ Hover).
    pose proof (truncateLoop_exit measure maxWidth text) as Hexit.
    destruct (Qlt_le_dec maxWidth
                (measure (truncateLoop measure maxWidth text ++ ellipsis)))
      as [L | L]; [|exact L].
    destruct (truncateLoop measure maxWidth text) as [|c p] eqn:E;
      [exact Hmarker|].
    assert (T : loopCond measure maxWidth (String c p) = true)
      by (apply loopCond_true; split; [exact L | congruence]).
    congruence.
  - now rewrite (fitText_fits _ _ _ Hfits).
Qed.

(** X5. When the marker alone fits the width, what the truncation returns
    fits the width, whatever the measurement: the text itself, or a prefix of
    it followed by the marker, hence at most three code units longer than
    the text. *)
Theorem fit_within_limit (measure : string -> Q) (maxWidth : Q) (text : string) :
  (measure ellipsis <= maxWidth)%Q ->
  (measure (fitText measure maxWidth text) <= maxWidth)%Q /\
  (fitText measure maxWidth text = text \/
   exists p, isPrefix p text /\ fitText measure maxWidth text = p ++ ellipsis) /\
  String.length (fitText measure maxWidth text) <= String.length text + 3.
Proof.
  intros Hmarker.
  destruct (fit_width_bound measure maxWidth text Hmarker) as [Hw Hp].
  split; [exact Hw|].
  destruct (Qlt_le_dec maxWidth (measure text)) as [Hover | Hfits].
  - rewrite (fitText_overflow _ _ _ Hover). split.
    + right. exists (truncateLoop measure maxWidth text). now split.
    + rewrite length_append. apply isPrefix_length in Hp. simpl. lia.
  - rewrite (fitText_fits _ _ _ Hfits). split; [now left | lia].
Qed.

Lemma fit_within_limit_witness :
  (unitWidth ellipsis <= 5)%Q /\
  (unitWidth (fitText unitWidth 5 "abcdefgh") <= 5)%Q.
Proof.
  split; [discriminate|].
  refine (proj1 (fit_within_limit unitWidth 5 "abcdefgh" _)). discriminate.
Defined.

(** X6. On the compact label the designation keeps clear of the price:
    when the marker fits the 34 mm left to the designation and the price
    text is no wider than the 15 mm left for it, the designation drawn ends
    before the price drawn begins. *)
Theorem designation_clear_of_price (HTMLImageElement : Type)
    (imageWidth imageHeight : HTMLImageElement -> Q)
    (stringWidth : Font -> string -> Q)
    (canvasToJPEG : HTMLImageElement -> Q -> Q -> Q -> Q -> CanvasResult)
    (barcodePNG : string -> string) (pdf : Pdf) (product : Product.t) (x y : Q)
    (imageCache : string -> option HTMLImageElement) :
  (stringWidth (helvetica "bold" 10) ellipsis <= maxDesignationWidth)%Q ->
  (stringWidth (helvetica "bold" 12) (priceFixed (Product.prix product) ++ " " ++ euro)
   <= 15)%Q ->
  exists designation designationX priceX,
    In (TextAt designation designationX (y + padding + 4)%Q
          (helvetica "bold" 10) (RGB 17 24 39))
       (items (drawLabelToPDF HTMLImageElement imageWidth imageHeight stringWidth
                 canvasToJPEG barcodePNG pdf product x y imageCache)) /\
    In (TextAt (priceFixed (Product.prix product) ++ " " ++ euro) priceX
          (y + padding + 4)%Q (helvetica "bold" 12) (RGB 220 38 38))
       (items (drawLabelToPDF HTMLImageElement imageWidth imageHeight stringWidth
                 canvasToJPEG barcodePNG pdf product x y imageCache)) /\
    (designationX + stringWidth (helvetica "bold" 10) designation <= priceX)%Q.
Proof.
  intros Hmarker Hprice.
  exists (fitText (stringWidth (helvetica "bold" 10)) maxDesignationWidth
            (Product.designation product)),
         (x + padding + imageSize + 2)%Q,
         (x + LABEL_WIDTH - padding
          - stringWidth (helvetica "bold" 12)
              (priceFixed (Product.prix product) ++ " " ++ euro))%Q.
  rewrite items_drawLabelToPDF. unfold labelItems, labelBody.
  split; [|split].
  - apply in_or_app. right. apply in_or_app. left.
    apply in_or_app. right. apply in_or_app. right.
    apply in_or_app. left. left. reflexivity.
  - apply in_or_app. right. apply in_or_app. left.
    apply in_or_app. right. apply in_or_app. right.
    apply in_or_app. right. apply in_or_app. right.
    apply in_or_app. left. left. reflexivity.
  - pose proof (proj1 (fit_width_bound (stringWidth (helvetica "bold" 10))
                         maxDesignationWidth (Product.designation product) Hmarker))
      as Hd.
    unfold maxDesignationWidth, textWidth, contentWidth, imageSize, padding,
      LABEL_WIDTH in *. lra.
Qed.

Lemma designation_clear_of_price_witness :
  (narrowWidthOfSample (helvetica "bold" 10) ellipsis <= maxDesignationWidth)%Q /\
  (narrowWidthOfSample (helvetica "bold" 12)
     (priceFixed (Product.prix jam) ++ " " ++ euro) <= 15)%Q /\
  exists designation designationX priceX,
    In (TextAt designation designationX (0 + padding + 4)%Q
          (helvetica "bold" 10) (RGB 17 24 39))
       (items (drawLabelToPDF unit sizeOfSample sizeOfSample narrowWidthOfSample
                 canvasOfSample pngOfSample jsPDF jam 0 0 emptyCache)) /\
    In (TextAt (priceFixed (Product.prix jam) ++ " " ++ euro) priceX
          (0 + padding + 4)%Q (helvetica "bold" 12) (RGB 220 38 38))
       (items (drawLabelToPDF unit sizeOfSample sizeOfSample narrowWidthOfSample
                 canvasOfSample pngOfSample jsPDF jam 0 0 emptyCache)) /\
    (designationX + narrowWidthOfSample (helvetica "bold" 10) designation <= priceX)%Q.
Proof.
  split; [discriminate|]. split; [discriminate|].
  apply (designation_clear_of_price unit sizeOfSample sizeOfSample narrowWidthOfSample
           canvasOfSample pngOfSample jsPDF jam 0 0 emptyCache); discriminate.
Defined.

(** ** The rows of the sheet: what every product is made of *)

Lemma revString_append (acc s : string) :
  JS.revString acc s = JS.revString "" s ++ acc.
Proof.
  revert acc. induction s as [|c s IH]; intros acc; simpl; [reflexivity|].
  rewrite (IH (String c acc)), (IH (String c "")).
  now rewrite append_assoc.
Qed.

Lemma rev_append (a b : string) :
  JS.revString "" (a ++ b) = JS.revString "" b ++ JS.revString "" a.
Proof.
  induction a as [|c a IH]; simpl; [now rewrite append_empty_r|].
  rewrite (revString_append (String c "")), IH.
  rewrite (revString_append (String c "") a). now rewrite append_assoc.
Qed.

Lemma rev_involutive (s : string) : JS.revString "" (JS.revString "" s) = s.
Proof.
  induction s as [|c s IH]; simpl; [reflexivity|].
  rewrite (revString_append (String c "")), rev_append, IH. reflexivity.
Qed.

Lemma trimStart_split (s : string) : exists ws, s = ws ++ JS.trimStart s.
Proof.
  induction s as [|c s [ws IH]]; simpl; [now exists ""|].
  destruct (JS.isWhiteSpace c).
  - exists (String c ws). simpl. now rewrite <- IH.
  - now exists "".
Qed.

Lemma trimStart_startsClean (s : string) : startsClean (JS.trimStart s).
Proof.
  induction s as [|c s IH]; simpl; [exact I|].
  destruct (JS.isWhiteSpace c) eqn:E; [exact IH | exact E].
Qed.

Lemma trimStart_clean (s : string) : startsClean s -> JS.trimStart s = s.
Proof. destruct s as [|c s]; simpl; [reflexivity|]. now intros ->. Qed.

Lemma startsClean_prefix (a b : string) :
  startsClean (a ++ b) -> a <> "" -> startsClean a.
Proof. destruct a as [|c a]; simpl; [congruence | trivial]. Qed.

(** What [trim] returns begins and ends without white space. *)
Lemma trim_clean (s : string) :
  startsClean (JS.trim s) /\ startsClean (JS.revString "" (JS.trim s)).
Proof.
  unfold JS.trim. set (u := JS.trimStart s).
  assert (Hu : startsClean u) by apply trimStart_startsClean.
  set (w := JS.trimStart (JS.revString "" u)).
  assert (Hw : startsClean w) by apply trimStart_startsClean.
  split; [|now rewrite rev_involutive].
  destruct (trimStart_split (JS.revString "" u)) as [ws Hws]. fold w in Hws.
  apply (f_equal (JS.revString "")) in Hws.
  rewrite rev_involutive, rev_append in Hws.
  destruct (JS.revString "" w) as [|c r] eqn:E; [exact I|].
  apply (startsClean_prefix _ (JS.revString "" ws)); [|congruence].
  now rewrite <- Hws.
Qed.

Lemma trim_trim (s : string) : JS.trim (JS.trim s) = JS.trim s.
Proof.
  destruct (trim_clean s) as [H1 H2]. unfold JS.trim at 1.
  rewrite (trimStart_clean _ H1), (trimStart_clean _ H2).
  apply rev_involutive.
Qed.

Section RowsOfTheSheet.

Variable parseFloat : string -> option Q.
Variable numberToString : Q -> string.

Lemma rowToProduct_fields (indices : Indices) (imageFiles : string -> option string)
    (row : list Cell) (p : Product.t) :
  rowToProduct parseFloat numberToString indices imageFiles row = Some p ->
  Product.reference p
    = JS.trim (toStr numberToString (orString (cellAt row (i_reference indices)) "")) /\
  Product.codebar p
    = JS.trim (toStr numberToString (orString (cellAt row (i_codebar indices)) "")) /\
  Product.designation p
    = JS.trim (toStr numberToString
                 (orString (cellAt row (i_designation indices)) "")) /\
  Product.reference p <> "" /\ Product.codebar p <> "" /\
  Product.designation p <> "" /\
  Product.image p = imageFiles (Product.reference p).
Proof.
  unfold rowToProduct.
  destruct (String.eqb _ "") eqn:E1; [discriminate|].
  destruct (String.eqb (JS.trim (toStr numberToString
             (orString (cellAt row (i_codebar indices)) ""))) "") eqn:E2;
    [discriminate|].
  destruct (String.eqb (JS.trim (toStr numberToString
             (orString (cellAt row (i_designation indices)) ""))) "") eqn:E3;
    [discriminate|].
  simpl. intros H. injection H as <-. simpl.
  apply String.eqb_neq in E1, E2, E3. repeat split; assumption.
Qed.

Lemma products_of_rows (data : list (list Cell)) (mapping : ColumnMapping.t)
    (imageFiles : string -> option string) (products : list Product.t) (p : Product.t) :
  mapDataToProducts parseFloat numberToString data mapping imageFiles = Ok products ->
  In p products ->
  exists row,
    In row (skipn 1 data) /\
    rowToProduct parseFloat numberToString (findIndices (nth 0 data []%list) mapping)
      imageFiles row = Some p.
Proof.
  intros Hmap Hin.
  destruct (le_lt_dec 2 (List.length data)) as [L | L].
  2:{ rewrite mapDataToProducts_short in Hmap by exact L.
      injection Hmap as <-. destruct Hin. }
  rewrite (mapDataToProducts_rows _ _ _ _ _ L) in Hmap.
  destruct (missingColumns _ mapping); [|discriminate].
  injection Hmap as <-. apply in_notNull in Hin. destruct Hin as [row [Hrow Hp]].
  apply filter_In in Hrow. destruct Hrow as [Hrow _]. now exists row.
Qed.

Lemma mapDataToProducts_cons (headers : list Cell) (rows : list (list Cell))
    (mapping : ColumnMapping.t) (imageFiles : string -> option string) :
  missingColumns (findIndices headers mapping) mapping = []%list ->
  mapDataToProducts parseFloat numberToString (headers :: rows) mapping imageFiles
  = Ok (notNull (map (rowToProduct parseFloat numberToString
                        (findIndices headers mapping) imageFiles)
                   (filter nonEmptyRow rows))).
Proof.
  intros Hm. destruct rows as [|row rows]; [reflexivity|].
  rewrite mapDataToProducts_rows by (simpl; lia). simpl nth. now rewrite Hm.
Qed.

Lemma notNull_app {A : Type} (l m : list (option A)) :
  notNull (l ++ m)%list = (notNull l ++ notNull m)%list.
Proof.
  induction l as [|[a|] l IH]; simpl; [reflexivity | now rewrite IH | exact IH].
Qed.

End RowsOfTheSheet.

(** X7. Every product the mapping returns has a reference, a barcode text
    and a designation that are not empty and carry no white space at either
    end, and its image is the one the image files give for that reference. *)
Theorem products_are_complete (parseFloat : string -> option Q)
    (numberToString : Q -> string) (data : list (list Cell))
    (mapping : ColumnMapping.t) (imageFiles : string -> option string)
    (products : list Product.t) (p : Product.t) :
  mapDataToProducts parseFloat numberToString data mapping imageFiles = Ok products ->
  In p products ->
  Product.reference p <> "" /\ Product.codebar p <> "" /\
  Product.designation p <> "" /\
  JS.trim (Product.reference p) = Product.reference p /\
  JS.trim (Product.codebar p) = Product.codebar p /\
  JS.trim (Product.designation p) = Product.designation p /\
  Product.image p = imageFiles (Product.reference p).
Proof.
  intros Hmap Hin.
  destruct (products_of_rows _ _ _ _ _ _ _ Hmap Hin) as [row [_ Hp]].
  destruct (rowToProduct_fields _ _ _ _ _ _ Hp)
    as (Er & Ec & Ed & Hr & Hc & Hd & Hi).
  repeat split; try assumption.
  - rewrite Er. apply trim_trim.
  - rewrite Ec. apply trim_trim.
  - rewrite Ed. apply trim_trim.
Qed.

Lemma products_are_complete_witness :
  mapDataToProducts parseFloatSample noNumbers sheetOfSample mappingOfSample noImages
  = Ok [returnedTea; jam]%list /\
  In jam [returnedTea; jam]%list /\
  Product.reference jam <> "" /\ JS.trim (Product.reference jam) = Product.reference jam.
Proof.
  assert (M : mapDataToProducts parseFloatSample noNumbers sheetOfSample
                mappingOfSample noImages = Ok [returnedTea; jam]%list) by reflexivity.
  assert (J : In jam [returnedTea; jam]%list) by (simpl; tauto).
  split; [exact M|]. split; [exact J|].
  destruct (products_are_complete _ _ _ _ _ _ _ M J) as (H1 & _ & _ & H4 & _).
  now split.
Defined.

(** X8. With its columns all found, the mapping treats the rows one by one
    and in their order: the products of a sheet are those of its first rows
    followed by those of its last rows; and a row that is empty, or whose
    reference, barcode or designation is blank, adds nothing. *)
Theorem rows_are_independent (parseFloat : string -> option Q)
    (numberToString : Q -> string) (headers : list Cell)
    (rows1 rows2 : list (list Cell)) (mapping : ColumnMapping.t)
    (imageFiles : string -> option string) :
  missingColumns (findIndices headers mapping) mapping = []%list ->
  (exists products1 products2,
     mapDataToProducts parseFloat numberToString (headers :: rows1) mapping imageFiles
     = Ok products1 /\
     mapDataToProducts parseFloat numberToString (headers :: rows2) mapping imageFiles
     = Ok products2 /\
     mapDataToProducts parseFloat numberToString (headers :: rows1 ++ rows2)%list
       mapping imageFiles
     = Ok (products1 ++ products2)%list) /\
  (forall row,
     nonEmptyRow row = false \/
     JS.trim (toStr numberToString
                (orString (cellAt row (i_reference (findIndices headers mapping))) ""))
     = "" \/
     JS.trim (toStr numberToString
                (orString (cellAt row (i_codebar (findIndices headers mapping))) ""))
     = "" \/
     JS.trim (toStr numberToString
                (orString (cellAt row (i_designation (findIndices headers mapping))) ""))
     = "" ->
     mapDataToProducts parseFloat numberToString (headers :: rows1 ++ row :: rows2)%list
       mapping imageFiles
     = mapDataToProducts parseFloat numberToString (headers :: rows1 ++ rows2)%list
         mapping imageFiles).
Proof.
  intros Hm. split.
  - do 2 eexists. rewrite !mapDataToProducts_cons by exact Hm.
    split; [reflexivity|]. split; [reflexivity|].
    now rewrite filter_app, map_app, notNull_app.
  - intros row Hrow. rewrite !mapDataToProducts_cons by exact Hm.
    rewrite !filter_app, !map_app, !notNull_app. do 2 f_equal.
    simpl. destruct (nonEmptyRow row) eqn:E; [|reflexivity].
    simpl.
    assert (N : rowToProduct parseFloat numberToString (findIndices headers mapping)
                  imageFiles row = None).
    { unfold rowToProduct.
      destruct Hrow as [H | [H | [H | H]]]; [congruence| | |]; rewrite H; simpl;
        rewrite ?orb_true_r; reflexivity. }
    now rewrite N.
Qed.

Lemma rows_are_independent_witness :
  missingColumns (findIndices headersOfSample mappingOfSample) mappingOfSample
  = []%list /\
  mapDataToProducts parseFloatSample noNumbers
    (headersOfSample :: skipn 1 sheetOfSample ++ []%list :: skipn 1 sheetOfSample)%list
    mappingOfSample noImages
  = mapDataToProducts parseFloatSample noNumbers
      (headersOfSample :: skipn 1 sheetOfSample ++ skipn 1 sheetOfSample)%list
      mappingOfSample noImages.
Proof.
  split; [reflexivity|].
  apply (proj2 (rows_are_independent parseFloatSample noNumbers headersOfSample
                  (skipn 1 sheetOfSample) (skipn 1 sheetOfSample) mappingOfSample
                  noImages eq_refl)).
  left. reflexivity.
Defined.

(** ** The rows of the sheet: a quantity written as an integer *)

Lemma digitValue_decimal (c : ascii) :
  isDecimalDigit c = true ->
  JS.digitValue 10 c = Some (Z.of_nat (nat_of_ascii c) - 48)%Z.
Proof.
  unfold isDecimalDigit, JS.digitValue. intros H.
  apply andb_prop in H. destruct H as [H1 H2].
  apply Nat.leb_le in H1, H2.
  replace ((48 <=? Z.of_nat (nat_of_ascii c))%Z && (Z.of_nat (nat_of_ascii c) <=? 57)%Z)
    with true by (symmetry; apply andb_true_intro; split; apply Z.leb_le; lia).
  replace (Z.of_nat (nat_of_ascii c) - 48 <? 10)%Z with true
    by (symmetry; apply Z.ltb_lt; lia).
  reflexivity.
Qed.

Lemma digitChar_decimal (d : Z) :
  (0 <= d <= 9)%Z ->
  isDecimalDigit (JS.digitChar d) = true /\ JS.digitValue 10 (JS.digitChar d) = Some d.
Proof.
  intros H.
  assert (N : nat_of_ascii (JS.digitChar d) = 48 + Z.to_nat d)
    by (unfold JS.digitChar; apply nat_ascii_embedding; lia).
  assert (D : isDecimalDigit (JS.digitChar d) = true).
  { unfold isDecimalDigit. rewrite N. apply andb_true_intro.
    split; apply Nat.leb_le; lia. }
  split; [exact D|]. rewrite (digitValue_decimal _ D), N. f_equal. lia.
Qed.

Lemma parseDigits_snoc (s : string) (c : ascii) (acc : option Z) :
  allChars isDecimalDigit s = true ->
  JS.parseDigits 10 acc (s ++ String c "") =
  match JS.digitValue 10 c with
  | Some d =>
      Some (match JS.parseDigits 10 acc s with
            | Some a => a * 10 + d
            | None => d
            end)%Z
  | None => JS.parseDigits 10 acc s
  end.
Proof.
  revert acc. induction s as [|x s IH]; intros acc H; simpl.
  - destruct (JS.digitValue 10 c); reflexivity.
  - simpl in H. apply andb_prop in H. destruct H as [Hx Hs].
    rewrite (digitValue_decimal _ Hx). now apply IH.
Qed.

Lemma allChars_append (p : ascii -> bool) (a b : string) :
  allChars p (a ++ b) = allChars p a && allChars p b.
Proof.
  induction a as [|c a IH]; simpl; [reflexivity|].
  now rewrite IH, andb_assoc.
Qed.

Lemma digits_decimal (m : Z) :
  (0 <= m)%Z ->
  allChars isDecimalDigit (JS.digits m) = true /\
  JS.parseDigits 10 None (JS.digits m) = Some m.
Proof.
  funelim (JS.digits m); intros Hm.
  - pose proof (proj1 (Z.ltb_lt _ _) e) as L.
    destruct (digitChar_decimal n ltac:(lia)) as [D V].
    cbn [allChars JS.parseDigits]. rewrite D, V. now split.
  - pose proof (proj1 (Z.ltb_ge _ _) e) as L.
    destruct (H ltac:(Z.div_mod_to_equations; lia)) as [IH1 IH2].
    destruct (digitChar_decimal (n mod 10) ltac:(Z.div_mod_to_equations; lia))
      as [D V].
    split.
    + rewrite allChars_append, IH1. cbn [allChars andb]. now rewrite D.
    + rewrite (parseDigits_snoc _ _ _ IH1), V, IH2. f_equal.
      Z.div_mod_to_equations; lia.
Qed.

Lemma parseInt_plain (s : string) :
  plainStart s ->
  JS.parseInt s
  = match JS.parseDigits 10 None s with Some n => Some (1 * n)%Z | None => None end /\
  JS.parseInt (String "-" s)
  = match JS.parseDigits 10 None s with Some n => Some (-1 * n)%Z | None => None end.
Proof.
  destruct s as [|c rest]; [intros []|]. intros [Hc Hrest].
  destruct c as [[] [] [] [] [] [] [] []]; vm_compute in Hc; try discriminate Hc;
    (destruct rest as [|c2 rest]; [split; reflexivity|]);
    try (split; reflexivity);
    destruct c2 as [[] [] [] [] [] [] [] []]; vm_compute in Hrest;
    try discriminate Hrest; split; reflexivity.
Qed.

Lemma digits_plainStart (m : Z) : (0 <= m)%Z -> plainStart (JS.digits m).
Proof.
  intros Hm. destruct (digits_decimal m Hm) as [D _].
  pose proof (digits_nonempty m) as L.
  destruct (JS.digits m) as [|c rest]; [simpl in L; lia|].
  simpl in D. apply andb_prop in D. destruct D as [Dc Dr].
  split; [exact Dc|]. destruct rest as [|c2 rest]; [exact I|].
  simpl in Dr. now apply andb_prop in Dr.
Qed.

(** [parseInt] reads back the text of an integer. *)
Lemma parseInt_toStringZ (n : Z) : JS.parseInt (JS.toStringZ n) = Some n.
Proof.
  unfold JS.toStringZ. destruct (n <? 0)%Z eqn:E.
  - apply Z.ltb_lt in E.
    change ("-" ++ JS.digits (- n)) with (String "-" (JS.digits (- n))).
    rewrite (proj2 (parseInt_plain _ (digits_plainStart (- n) ltac:(lia)))).
    rewrite (proj2 (digits_decimal (- n) ltac:(lia))). f_equal. lia.
  - apply Z.ltb_ge in E.
    rewrite (proj1 (parseInt_plain _ (digits_plainStart n E))).
    rewrite (proj2 (digits_decimal n E)). f_equal. lia.
Qed.

Lemma toStringZ_nonempty (n : Z) : JS.toStringZ n <> "".
Proof.
  unfold JS.toStringZ. destruct (n <? 0)%Z; [discriminate|].
  pose proof (digits_nonempty n). destruct (JS.digits n); [simpl in *; lia|discriminate].
Qed.

(** X9. A quantity cell that holds an integer other than zero and below
    2^53 in absolute value (the integers a number holds and prints exactly),
    as a text in decimal digits or as a number that prints as such, gives
    the product exactly that quantity. *)
Theorem quantity_read_back (parseFloat : string -> option Q)
    (numberToString : Q -> string) (indices : Indices)
    (imageFiles : string -> option string) (row : list Cell) (p : Product.t) (n : Z) :
  rowToProduct parseFloat numberToString indices imageFiles row = Some p ->
  n <> 0%Z ->
  (Z.abs n < 2 ^ 53)%Z ->
  cellAt row (i_qte indices) = CString (JS.toStringZ n) \/
  (cellAt row (i_qte indices) = CNumber (inject_Z n) /\
   numberToString (inject_Z n) = JS.toStringZ n) ->
  Product.qte p = n.
Proof.
  intros Hp Hn _ Hcell. rewrite (rowToProduct_qte _ _ _ _ _ _ Hp).
  apply parseQte_parsed; [|exact Hn].
  destruct Hcell as [-> | [-> Hs]]; unfold orString, truthy.
  - replace (String.eqb (JS.toStringZ n) "") with false
      by (symmetry; apply String.eqb_neq; apply toStringZ_nonempty).
    cbv beta iota delta [negb toStr]. apply parseInt_toStringZ.
  - replace (Qeq_bool (inject_Z n) 0) with false.
    2:{ symmetry. destruct (Qeq_bool (inject_Z n) 0) eqn:E; [|reflexivity].
        apply Qeq_bool_eq in E. exfalso. apply Hn.
        change 0%Q with (inject_Z 0) in E.
        exact (proj1 (inject_Z_injective n 0) E). }
    cbv beta iota delta [negb toStr]. rewrite Hs. apply parseInt_toStringZ.
Qed.

Lemma quantity_read_back_witness :
  rowToProduct parseFloatSample noNumbers
    (findIndices headersOfSample mappingOfSample) noImages
    [CString "123"; CString "-5"; CString "2.50"; CString "Tea"; CString "R1"]%list
  = Some returnedTea /\
  (-5)%Z <> 0%Z /\
  (Z.abs (-5) < 2 ^ 53)%Z /\
  Product.qte returnedTea = (-5)%Z.
Proof.
  assert (R : rowToProduct parseFloatSample noNumbers
                (findIndices headersOfSample mappingOfSample) noImages
                [CString "123"; CString "-5"; CString "2.50"; CString "Tea";
                 CString "R1"]%list = Some returnedTea) by reflexivity.
  split; [exact R|]. split; [discriminate|]. split; [reflexivity|].
  apply (quantity_read_back _ _ _ _ _ _ (-5)%Z R); [discriminate | reflexivity|].
  left. reflexivity.
Defined.

(** ** From the parsed file to the mapping: the columns offered *)

(** X10. When every cell of the header row is a string, a mapping whose
    five columns are all among the column names [parseExcelFile] returned
    (the names the column mapper offers) is accepted on the rows it
    returned: no column is reported missing. *)
Theorem offered_columns_are_found (parseFloat : string -> option Q)
    (numberToString : Q -> string) (jsonData : list (list Cell))
    (parsed : ExcelData.t) (mapping : ColumnMapping.t)
    (imageFiles : string -> option string) :
  parseExcelFile numberToString (Sheet jsonData) = Ok parsed ->
  (forall cell, In cell (nth 0 jsonData []%list) -> exists s, cell = CString s) ->
  (forall key, In (mappingGet mapping key) (ExcelData.columns parsed)) ->
  exists products,
    mapDataToProducts parseFloat numberToString (ExcelData.data parsed) mapping
      imageFiles = Ok products.
Proof.
  intros Hparse Hstrings Hoffered. unfold parseExcelFile in Hparse.
  destruct (List.length jsonData =? 0); [discriminate|].
  injection Hparse as <-. simpl in *.
  destruct (le_lt_dec 2 (List.length jsonData)) as [L | L].
  2:{ exists []%list. now apply mapDataToProducts_short. }
  rewrite (mapDataToProducts_rows _ _ _ _ _ L).
  destruct (missingColumns _ mapping) as [|name rest] eqn:E; [now eexists|].
  exfalso.
  assert (Hin : In name (missingColumns (findIndices (nth 0 jsonData []%list) mapping)
                           mapping)) by (rewrite E; now left).
  apply missingColumns_spec in Hin. destruct Hin as [key [-> Hmissing]].
  apply Hmissing. specialize (Hoffered key). apply in_map_iff in Hoffered.
  destruct Hoffered as [cell [Hname Hcell]].
  destruct (Hstrings _ Hcell) as [s ->]. simpl in Hname. now subst.
Qed.

Lemma offered_columns_are_found_witness :
  parseExcelFile noNumbers (Sheet sheetOfSample)
  = Ok (ExcelData.mk sheetOfSample ["code"; "qte"; "prix"; "des"; "ref"]%list) /\
  exists products,
    mapDataToProducts parseFloatSample noNumbers sheetOfSample mappingOfSample
      noImages = Ok products.
Proof.
  split; [reflexivity|].
  apply (offered_columns_are_found parseFloatSample noNumbers sheetOfSample
           (ExcelData.mk sheetOfSample ["code"; "qte"; "prix"; "des"; "ref"]%list)
           mappingOfSample noImages).
  - reflexivity.
  - simpl. intros cell H.
    repeat (destruct H as [<- | H]; [now eexists|]). destruct H.
  - intros []; simpl; tauto.
Defined.

(** A header that is a number is offered under its text and then not found:
    the header row is searched for the string itself. *)
Remark numeric_header_is_missing :
  ExcelData.columns (ExcelData.mk [[CNumber 2024]; [CString "x"]]%list
                       (map (columnName (fun _ => "2024")) [CNumber 2024]%list))
  = ["2024"]%list /\
  mapDataToProducts parseFloatSample (fun _ => "2024")
    [[CNumber 2024]; [CString "x"]]%list
    (ColumnMapping.mk "2024" "2024" "2024" "2024" "2024") noImages
  = Throw "Missing columns: 2024, 2024, 2024, 2024, 2024".
Proof. split; reflexivity. Qed.

(** ** The column mapper: the last choice of each field *)

Lemma sameKey_true (a b : Key) : sameKey a b = true <-> a = b.
Proof. destruct a, b; simpl; split; intros H; try reflexivity; discriminate. Qed.

Lemma afterChoices_snoc (choices : list (Key * string)) (field : Key) (column : string) :
  afterChoices (choices ++ [(field, column)])%list
  = handleMappingChange field column (afterChoices choices).
Proof. unfold afterChoices. now rewrite fold_left_app. Qed.

Lemma afterChoices_lastChoice (choices : list (Key * string)) (key : Key) :
  afterChoices choices key = lastChoice key choices.
Proof.
  induction choices as [|[field column] choices IH] using rev_ind; [reflexivity|].
  rewrite afterChoices_snoc. unfold handleMappingChange, lastChoice.
  rewrite rev_app_distr. simpl.
  destruct (sameKey key field); [reflexivity | exact IH].
Qed.

(** X11. In the column mapper every field holds the column chosen last for
    it, whatever was chosen for the other fields, and the mapping is handed
    on exactly when each of the five fields has a last choice that is not
    the empty string; the mapping handed on is made of these last choices. *)
Theorem column_mapper_choices (choices : list (Key * string)) :
  (forall key, afterChoices choices key = lastChoice key choices) /\
  ((exists mapping, handleSubmit (afterChoices choices) = Some mapping) <->
   (forall key, exists column, lastChoice key choices = Some column /\ column <> "")) /\
  (forall mapping key,
     handleSubmit (afterChoices choices) = Some mapping ->
     lastChoice key choices = Some (mappingGet mapping key)).
Proof.
  assert (C : isComplete (afterChoices choices) = true <->
              forall key, exists column,
                lastChoice key choices = Some column /\ column <> "").
  { unfold isComplete. rewrite forallb_forall. split.
    - intros H key. specialize (H key).
      rewrite afterChoices_lastChoice in H.
      destruct (lastChoice key choices) as [column|].
      + exists column. split; [reflexivity|].
        apply String.eqb_neq. apply negb_true_iff. apply H.
        destruct key; simpl; tauto.
      + discriminate H. destruct key; simpl; tauto.
    - intros H key _. destruct (H key) as [column [E Hne]].
      rewrite afterChoices_lastChoice, E. apply negb_true_iff.
      now apply String.eqb_neq. }
  split; [apply afterChoices_lastChoice|]. split.
  - rewrite <- C. unfold handleSubmit.
    destruct (isComplete (afterChoices choices)); split; intros H;
      try reflexivity; try discriminate; [now eexists | now destruct H].
  - intros mapping key H. unfold handleSubmit in H.
    assert (E : isComplete (afterChoices choices) = true)
      by (destruct (isComplete (afterChoices choices)); [reflexivity | discriminate]).
    rewrite E in H. injection H as <-.
    destruct (proj1 C E key) as [column [Hc _]].
    rewrite <- afterChoices_lastChoice in *.
    destruct key; simpl; now rewrite Hc.
Qed.

(** ** The image files: from the file name to the reference *)

Lemma extensionTail_dot (a b : string) : extensionTail (a ++ "." ++ b) = false.
Proof.
  unfold extensionTail. rewrite allChars_append. simpl.
  now rewrite andb_false_r, andb_false_r.
Qed.

Lemma stripExtension_isPrefix (filename : string) :
  isPrefix (stripExtension filename) filename.
Proof.
  induction filename as [|c rest [r IH]]; simpl; [apply isPrefix_refl|].
  destruct (Ascii.eqb c "." && extensionTail rest); [apply isPrefix_empty|].
  exists r. simpl. now rewrite <- IH.
Qed.

(** X12. Taking the extension off a file name: a name made of any base, a
    dot and an extension without dot or slash gives back the base, dots of
    the base included; a name without any dot is kept whole; and what is
    returned is always a prefix of the name. *)
Theorem stripExtension_spec (filename : string) :
  isPrefix (stripExtension filename) filename /\
  (allChars (fun c => negb (Ascii.eqb c ".")) filename = true ->
   stripExtension filename = filename) /\
  (forall base extension,
     filename = base ++ "." ++ extension ->
     extension <> "" ->
     allChars extensionChar extension = true ->
     stripExtension filename = base).
Proof.
  split; [apply stripExtension_isPrefix|]. split.
  - induction filename as [|c rest IH]; simpl; [reflexivity|].
    intros H. apply andb_prop in H. destruct H as [Hc Hrest].
    apply negb_true_iff in Hc. rewrite Hc. simpl. now rewrite IH.
  - intros base extension -> Hne Hext.
    induction base as [|c base IH]; simpl.
    + unfold extensionTail. rewrite Hext.
      replace (String.eqb extension "") with false
        by (symmetry; now apply String.eqb_neq).
      reflexivity.
    + change (base ++ String "." extension) with (base ++ "." ++ extension).
      rewrite extensionTail_dot, andb_false_r. now rewrite IH.
Qed.

(** ** The image files: the map from references to images *)

Lemma mapGet_mapSet (m : Map) (key value key' : string) :
  mapGet (mapSet key value m) key'
  = if String.eqb key key' then Some value else mapGet m key'.
Proof.
  induction m as [|[k v] m IH]; simpl.
  - reflexivity.
  - destruct (String.eqb k key) eqn:E; simpl.
    + apply String.eqb_eq in E. subst k.
      destruct (String.eqb key key'); reflexivity.
    + rewrite IH. destruct (String.eqb k key') eqn:E'; [|reflexivity].
      apply String.eqb_eq in E'. subst k.
      now rewrite String.eqb_sym, E.
Qed.

Lemma keys_mapSet (m : Map) (key value : string) :
  NoDup (map fst m) ->
  NoDup (map fst (mapSet key value m)) /\
  (forall k, In k (map fst (mapSet key value m)) <-> k = key \/ In k (map fst m)) /\
  List.length (mapSet key value m) <= S (List.length m).
Proof.
  induction m as [|[k v] m IH]; simpl; intros Hnd.
  - split; [constructor; [intros [] | constructor]|].
    split; [intros k; split; [intros [<- | []]; now left | intros [-> | []]; now left]
           | lia].
  - inversion Hnd as [|? ? Hk Hm]; subst.
    destruct (String.eqb k key) eqn:E; simpl.
    + apply String.eqb_eq in E. subst k.
      split; [exact Hnd|]. split; [intros k; intuition auto | lia].
    + destruct (IH Hm) as (IH1 & IH2 & IH3). apply String.eqb_neq in E.
      split; [|split; [|lia]].
      * constructor; [|exact IH1]. rewrite IH2. intros [-> | H]; [now apply E | now apply Hk].
      * intros k'. rewrite IH2. intuition auto.
Qed.

Section ImageFiles.

Variable createObjectURL : File.t -> string.

Lemma processImageFiles_snoc (files : list File.t) (file : File.t) :
  processImageFiles createObjectURL (files ++ [file])%list
  = if isImageFile file
    then mapSet (stripExtension (File.name file)) (createObjectURL file)
           (processImageFiles createObjectURL files)
    else processImageFiles createObjectURL files.
Proof. unfold processImageFiles. now rewrite fold_left_app. Qed.

Lemma processImageFiles_keys (files : list File.t) :
  NoDup (map fst (processImageFiles createObjectURL files)) /\
  mapSize (processImageFiles createObjectURL files) <= List.length files.
Proof.
  induction files as [|file files [IH1 IH2]] using rev_ind.
  - split; [constructor | simpl; lia].
  - rewrite processImageFiles_snoc, length_app. simpl.
    destruct (isImageFile file); [|split; [exact IH1 | lia]].
    destruct (keys_mapSet _ (stripExtension (File.name file))
                (createObjectURL file) IH1) as (K1 & _ & K3).
    unfold mapSize in *. split; [exact K1 | lia].
Qed.

End ImageFiles.

(** X13. In the map [processImageFiles] builds, the image of a reference is
    the URL made for the last file of the list that has an image type and
    whose name without its extension is the reference, and there is none
    when no such file exists; a file of another type changes nothing. The
    references of the map are pairwise distinct, and they are no more than
    the files. *)
Theorem image_of_reference (createObjectURL : File.t -> string)
    (files : list File.t) (reference : string) :
  mapGet (processImageFiles createObjectURL files) reference
  = option_map createObjectURL (lastImageFor reference files) /\
  NoDup (map fst (processImageFiles createObjectURL files)) /\
  mapSize (processImageFiles createObjectURL files) <= List.length files.
Proof.
  split; [|apply processImageFiles_keys].
  induction files as [|file files IH] using rev_ind; [reflexivity|].
  rewrite processImageFiles_snoc. unfold lastImageFor in *.
  rewrite rev_app_distr. simpl.
  destruct (isImageFile file); simpl; [|exact IH].
  rewrite mapGet_mapSet.
  destruct (String.eqb (stripExtension (File.name file)) reference);
    [reflexivity | exact IH].
Qed.

(** ** The preview: going round the labels *)

(** X14. With at least one label, going to the next or to the previous
    label from a label of the list stays in the list, each move undoes the
    other, and the last label is followed by the first. *)
Theorem preview_navigation (count i : Z) :
  (0 < count)%Z ->
  (0 <= i < count)%Z ->
  (0 <= nextLabel count i < count)%Z /\
  (0 <= prevLabel count i < count)%Z /\
  prevLabel count (nextLabel count i) = i /\
  nextLabel count (prevLabel count i) = i /\
  nextLabel count (count - 1) = 0%Z /\
  prevLabel count 0 = (count - 1)%Z.
Proof.
  intros Hc Hi. unfold nextLabel, prevLabel.
  assert (N : Z.rem (i + 1) count = if (i + 1 =? count)%Z then 0%Z else (i + 1)%Z).
  { destruct (i + 1 =? count)%Z eqn:E.
    - apply Z.eqb_eq in E. rewrite E. apply Z.rem_same. lia.
    - apply Z.eqb_neq in E. apply Z.rem_small. lia. }
  assert (P : Z.rem (i - 1 + count) count = if (i =? 0)%Z then (count - 1)%Z else (i - 1)%Z).
  { destruct (i =? 0)%Z eqn:E.
    - apply Z.eqb_eq in E. subst i.
      replace (0 - 1 + count)%Z with (count - 1)%Z by lia.
      apply Z.rem_small. lia.
    - apply Z.eqb_neq in E.
      rewrite Z.rem_mod_nonneg by lia.
      replace (i - 1 + count)%Z with (i - 1 + 1 * count)%Z by lia.
      rewrite Z.mod_add by lia. apply Z.mod_small. lia. }
  rewrite N, P.
  assert (L : Z.rem (count - 1 + 1) count = 0%Z).
  { replace (count - 1 + 1)%Z with count by lia. apply Z.rem_same. lia. }
  assert (F : Z.rem (0 - 1 + count) count = (count - 1)%Z).
  { replace (0 - 1 + count)%Z with (count - 1)%Z by lia.
    apply Z.rem_small. lia. }
  repeat split.
  - destruct (i + 1 =? count)%Z; lia.
  - destruct (i + 1 =? count)%Z eqn:E; [lia | apply Z.eqb_neq in E; lia].
  - destruct (i =? 0)%Z eqn:E; [lia | apply Z.eqb_neq in E; lia].
  - destruct (i =? 0)%Z; lia.
  - destruct (i + 1 =? count)%Z eqn:E.
    + apply Z.eqb_eq in E. rewrite F. lia.
    + apply Z.eqb_neq in E.
      rewrite Z.rem_mod_nonneg by lia.
      replace (i + 1 - 1 + count)%Z with (i + 1 * count)%Z by lia.
      rewrite Z.mod_add by lia. apply Z.mod_small. lia.
  - destruct (i =? 0)%Z eqn:E.
    + apply Z.eqb_eq in E. rewrite L. lia.
    + apply Z.eqb_neq in E.
      replace (i - 1 + 1)%Z with i by lia. apply Z.rem_small. lia.
  - exact L.
  - exact F.
Qed.

Lemma preview_navigation_witness :
  (0 < 3)%Z /\ (0 <= 2 < 3)%Z /\
  nextLabel 3 2 = 0%Z /\ prevLabel 3 (nextLabel 3 2) = 2%Z.
Proof.
  split; [lia|]. split; [lia|]. split; [reflexivity|].
  refine (proj1 (proj2 (proj2 (preview_navigation 3 2 _ _)))); lia.
Defined.

(** ** The session: from the files to the download *)

Section Session.

Variable HTMLImageElement : Type.
Variable imageWidth imageHeight : HTMLImageElement -> Q.
Variable stringWidth : Font -> string -> Q.
Variable canvasToJPEG : HTMLImageElement -> Q -> Q -> Q -> Q -> CanvasResult.
Variable barcodePNG : string -> string.
Variable parseFloat : string -> option Q.
Variable numberToString : Q -> string.
Variable createObjectURL : File.t -> string.

Lemma run_snoc (events : list Event) (e : Event) :
  run HTMLImageElement parseFloat numberToString createObjectURL (events ++ [e])%list
  = dispatch HTMLImageElement parseFloat numberToString createObjectURL
      (run HTMLImageElement parseFloat numberToString createObjectURL events) e.
Proof. unfold run. now rewrite fold_left_app. Qed.

Lemma sessionInvariant_later (events : list Event) (e : Event)
    (s : App.t HTMLImageElement) :
  sessionInvariant numberToString events s ->
  sessionInvariant numberToString (events ++ [e])%list s.
Proof.
  intros (L & C & U & X & F & P & G & B).
  repeat split; try assumption.
  - intros H. rewrite existsb_app, (X H). reflexivity.
  - intros H. rewrite existsb_app, (F H). reflexivity.
Qed.

Lemma sessionInvariant_loaded (events : list Event) (s : App.t HTMLImageElement) :
  sessionInvariant numberToString events s ->
  sessionInvariant numberToString events
    (App.mk (App.currentStep s) (App.excelData s) (App.imageFiles s) (App.products s)
       (App.imageCache s) false).
Proof. intros (L & C & U & X & F & P & G & B). repeat split; assumption. Qed.

Lemma dispatch_invariant (events : list Event) (e : Event)
    (s : App.t HTMLImageElement) :
  sessionInvariant numberToString events s ->
  sessionInvariant numberToString (events ++ [e])%list
    (dispatch HTMLImageElement parseFloat numberToString createObjectURL s e).
Proof.
  intros I. pose proof (sessionInvariant_later events e s I) as Keep.
  destruct I as (L & C & U & X & F & P & G & B).
  unfold dispatch. rewrite L.
  destruct e as [name read | files | choices | ]; [| | |exact Keep].
  - destruct (App.currentStep s) eqn:Es; try exact Keep.
    destruct (endsWith name ".xlsx" || endsWith name ".xls"); [|exact Keep].
    unfold handleExcelUpload.
    destruct (parseExcelFile numberToString read) as [parsedData | message] eqn:Ep;
      [|now apply sessionInvariant_loaded].
    assert (N : App.products s = []%list).
    { destruct (App.products s) as [|p l]; [reflexivity|].
      assert (Q : Step.upload = Step.preview) by (apply P; discriminate).
      discriminate Q. }
    assert (R : existsb (isExcelRead numberToString)
                  (events ++ [ExcelSelected name read])%list = true).
    { rewrite existsb_app. simpl. rewrite Ep. now rewrite orb_true_r. }
    unfold sessionInvariant.
    cbn [App.isLoading App.imageCache App.currentStep App.excelData App.imageFiles
         App.products].
    rewrite N.
    split; [reflexivity|]. split; [exact C|]. split; [discriminate|].
    split; [intros _; exact R|].
    split; [|split; [intros H; now destruct H | split; [intros p []|]]].
    + intros H. rewrite existsb_app. rewrite F; [reflexivity|].
      right. destruct (App.imageFiles s); [|discriminate].
      destruct H as [H | H]; [|now destruct H]. now destruct H.
    + destruct (App.imageFiles s); [now right | discriminate].
  - destruct (App.currentStep s) eqn:Es; try exact Keep.
    destruct (0 <? List.length files) eqn:El; [|exact Keep].
    assert (N : App.products s = []%list).
    { destruct (App.products s) as [|p l]; [reflexivity|].
      assert (Q : Step.upload = Step.preview) by (apply P; discriminate).
      discriminate Q. }
    unfold handleImagesUpload, sessionInvariant.
    cbn [App.isLoading App.imageCache App.currentStep App.excelData App.imageFiles
         App.products].
    rewrite N.
    split; [exact L|]. split; [exact C|].
    split; [|split; [|split; [|split; [intros H; now destruct H
                                      | split; [intros p []|]]]]].
    + destruct (App.excelData s); [discriminate|]. intros H.
      rewrite Es in H. now destruct H.
    + intros H. rewrite existsb_app, (X H). reflexivity.
    + intros _. rewrite existsb_app. simpl. rewrite El. now rewrite orb_true_r.
    + destruct (App.excelData s); [discriminate | now left].
  - destruct (App.currentStep s) eqn:Es; try exact Keep.
    destruct (App.excelData s) as [excelData|] eqn:Ed; [|exact Keep].
    destruct (offered (ExcelData.columns excelData) choices); [|exact Keep].
    destruct (handleSubmit (afterChoices choices)) as [mapping|]; [|exact Keep].
    unfold handleMappingComplete. rewrite Ed.
    destruct (mapDataToProducts parseFloat numberToString (ExcelData.data excelData)
                mapping (mapGet (App.imageFiles s))) as [mappedProducts | message] eqn:Em.
    + unfold sessionInvariant.
      cbn [App.isLoading App.imageCache App.currentStep App.excelData App.imageFiles
           App.products].
      split; [reflexivity|]. split; [exact C|]. split; [intros _; discriminate|].
      split; [intros _; rewrite existsb_app, X; [reflexivity | discriminate]|].
      split; [intros _; rewrite existsb_app, F; [reflexivity | left; discriminate]|].
      split; [reflexivity|]. split; [|discriminate].
      intros p Hp.
      destruct (products_of_rows _ _ _ _ _ _ _ Em Hp) as [row [_ Hrow]].
      apply (rowToProduct_fields _ _ _ _ _ _ Hrow).
    + rewrite <- Ed. apply sessionInvariant_loaded. exact Keep.
Qed.

Lemma run_invariant (events : list Event) :
  sessionInvariant numberToString events
    (run HTMLImageElement parseFloat numberToString createObjectURL events).
Proof.
  induction events as [|e events IH] using rev_ind.
  - unfold run, initialApp, sessionInvariant. simpl.
    repeat split; try reflexivity; try (intros H; now destruct H).
    intros _. now left.
  - rewrite run_snoc. now apply dispatch_invariant.
Qed.

(** A label drawn without a cached image: the placeholder, no image. *)
Lemma label_without_cache (product : Product.t) (x y : Q) :
  countItems isProductImage
    (labelItems HTMLImageElement imageWidth imageHeight stringWidth canvasToJPEG
       barcodePNG product x y (fun _ => None)) = 0 /\
  countItems isPlaceholder
    (labelItems HTMLImageElement imageWidth imageHeight stringWidth canvasToJPEG
       barcodePNG product x y (fun _ => None)) = 1.
Proof.
  unfold labelItems, labelBody, imageItems, quantityItems.
  destruct (JsBarcode barcodePNG (Product.codebar product));
    destruct (1 <? Product.qte product)%Z; split; reflexivity.
Qed.

Lemma document_without_cache (products : list Product.t) :
  countItems isProductImage
    (documentItems HTMLImageElement imageWidth imageHeight stringWidth canvasToJPEG
       barcodePNG products (fun _ => None)) = 0 /\
  countItems isPlaceholder
    (documentItems HTMLImageElement imageWidth imageHeight stringWidth canvasToJPEG
       barcodePNG products (fun _ => None)) = List.length products.
Proof.
  unfold documentItems. rewrite !countItems_app, !countItems_concat_map.
  assert (E0 : forall page,
             countItems isProductImage
               (pageItems HTMLImageElement imageWidth imageHeight stringWidth
                  canvasToJPEG barcodePNG products (fun _ => None) page) = 0).
  { intros page. unfold pageItems. rewrite countItems_app, countItems_concat_map.
    rewrite (list_sum_const 0) by (intros placement; apply label_without_cache).
    destruct (0 <? page); reflexivity. }
  assert (E1 : forall page,
             countItems isPlaceholder
               (pageItems HTMLImageElement imageWidth imageHeight stringWidth
                  canvasToJPEG barcodePNG products (fun _ => None) page)
             = List.length (pageProducts products page)).
  { intros page. unfold pageItems. rewrite countItems_app, countItems_concat_map.
    rewrite (list_sum_const 1) by (intros placement; apply label_without_cache).
    rewrite length_placePage. destruct (0 <? page); unfold countItems; simpl; lia. }
  split.
  - rewrite (list_sum_const 0) by exact E0. unfold countItems. simpl. lia.
  - rewrite (map_ext _ _ E1), length_all_pages. unfold countItems. simpl. lia.
Qed.

End Session.

(** X15. Whatever the user did before, the document the download button
    saves holds no product image: every label carries the placeholder, one
    for each product, also for a product whose image file was given and
    whose [image] is set. The cache handed to [generatePDF] is the state
    [imageCache] of the component, which no handler ever fills. *)
Theorem exported_labels_have_no_image (HTMLImageElement : Type)
    (imageWidth imageHeight : HTMLImageElement -> Q)
    (stringWidth : Font -> string -> Q)
    (canvasToJPEG : HTMLImageElement -> Q -> Q -> Q -> Q -> CanvasResult)
    (barcodePNG : string -> string) (parseFloat : string -> option Q)
    (numberToString : Q -> string) (createObjectURL : File.t -> string)
    (events : list Event) (pdf : Pdf) :
  download HTMLImageElement imageWidth imageHeight stringWidth canvasToJPEG barcodePNG
    (run HTMLImageElement parseFloat numberToString createObjectURL events) = Some pdf ->
  countItems isProductImage (items pdf) = 0 /\
  countItems isPlaceholder (items pdf)
  = List.length
      (App.products (run HTMLImageElement parseFloat numberToString createObjectURL
                       events)) /\
  0 < List.length
        (App.products (run HTMLImageElement parseFloat numberToString createObjectURL
                         events)).
Proof.
  intros H.
  destruct (run_invariant HTMLImageElement parseFloat numberToString createObjectURL
              events) as (L & C & _).
  unfold download in H.
  destruct (App.currentStep _); try discriminate.
  destruct (0 <? List.length (App.products _)) eqn:E; [|discriminate].
  rewrite L in H. injection H as <-.
  unfold handleGeneratePDF. rewrite items_generatePDF, C.
  destruct (document_without_cache HTMLImageElement imageWidth imageHeight stringWidth
              canvasToJPEG barcodePNG
              (App.products (run HTMLImageElement parseFloat numberToString
                               createObjectURL events))) as [D0 D1].
  split; [exact D0|]. split; [exact D1|]. now apply Nat.ltb_lt.
Qed.

Lemma exported_labels_have_no_image_witness :
  download unit sizeOfSample sizeOfSample widthOfSample canvasOfSample pngOfSample
    (runOfSample sheetOfSample)
  = Some (handleGeneratePDF unit sizeOfSample sizeOfSample widthOfSample canvasOfSample
            pngOfSample (runOfSample sheetOfSample)) /\
  map Product.image (App.products (runOfSample sheetOfSample))
  = [None; Some "blob:R2.png"]%list /\
  countItems isProductImage
    (items (handleGeneratePDF unit sizeOfSample sizeOfSample widthOfSample
              canvasOfSample pngOfSample (runOfSample sheetOfSample))) = 0.
Proof.
  assert (D : download unit sizeOfSample sizeOfSample widthOfSample canvasOfSample
                pngOfSample (runOfSample sheetOfSample)
              = Some (handleGeneratePDF unit sizeOfSample sizeOfSample widthOfSample
                        canvasOfSample pngOfSample (runOfSample sheetOfSample)))
    by reflexivity.
  split; [exact D|]. split; [reflexivity|].
  exact (proj1 (exported_labels_have_no_image unit sizeOfSample sizeOfSample
                  widthOfSample canvasOfSample pngOfSample parseFloatSample noNumbers
                  urlOfSample (sessionOfSample sheetOfSample) _ D)).
Defined.

(** X16. In every session the steps only go forward; the mapping step is
    reached only after an Excel file was read with success and a list of
    images that is not empty was selected, and then the Excel data are
    there; there are products only in the preview step; and the image of
    each product is what the map of the image files holds for its
    reference. *)
Theorem session_steps (HTMLImageElement : Type) (parseFloat : string -> option Q)
    (numberToString : Q -> string) (createObjectURL : File.t -> string)
    (events : list Event) :
  (App.currentStep (run HTMLImageElement parseFloat numberToString createObjectURL events)
   <> Step.upload ->
   App.excelData (run HTMLImageElement parseFloat numberToString createObjectURL events)
   <> None /\
   existsb (isExcelRead numberToString) events = true /\
   existsb isImageSelection events = true) /\
  (App.products (run HTMLImageElement parseFloat numberToString createObjectURL events)
   <> []%list ->
   App.currentStep (run HTMLImageElement parseFloat numberToString createObjectURL events)
   = Step.preview) /\
  (forall e,
     Step.rank
       (App.currentStep
          (run HTMLImageElement parseFloat numberToString createObjectURL events))
     <= Step.rank
          (App.currentStep
             (dispatch HTMLImageElement parseFloat numberToString createObjectURL
                (run HTMLImageElement parseFloat numberToString createObjectURL events)
                e))) /\
  (forall p,
     In p (App.products
             (run HTMLImageElement parseFloat numberToString createObjectURL events)) ->
     Product.image p
     = mapGet
         (App.imageFiles
            (run HTMLImageElement parseFloat numberToString createObjectURL events))
         (Product.reference p)).
Proof.
  destruct (run_invariant HTMLImageElement parseFloat numberToString createObjectURL
              events) as (L & C & U & X & F & P & G & B).
  split; [|split; [exact P | split; [|exact G]]].
  - intros H. split; [now apply U|]. split; [apply X; now apply U | apply F; now left].
  - intros e. unfold dispatch. rewrite L.
    generalize (run HTMLImageElement parseFloat numberToString createObjectURL events).
    intros s.
    destruct e as [name read | files | choices | ]; [| | |apply Nat.le_refl].
    + destruct (App.currentStep s) eqn:Es; try (rewrite Es; apply Nat.le_refl).
      apply Nat.le_0_l.
    + destruct (App.currentStep s) eqn:Es; try (rewrite Es; apply Nat.le_refl).
      apply Nat.le_0_l.
    + destruct (App.currentStep s) eqn:Es; try (rewrite Es; apply Nat.le_refl).
      destruct (App.excelData s) as [excelData|] eqn:Ed;
        [|rewrite Es; apply Nat.le_refl].
      destruct (offered _ choices); [|rewrite Es; apply Nat.le_refl].
      destruct (handleSubmit _) as [mapping|]; [|rewrite Es; apply Nat.le_refl].
      unfold handleMappingComplete. rewrite Ed.
      destruct (mapDataToProducts _ _ _ _ _); cbn [App.currentStep];
        [simpl; lia | rewrite Es; apply Nat.le_refl].
Qed.

(** X17. A sheet that holds its header row only ends the session: whatever
    complete mapping is chosen among its columns, found in the header row or
    not, the step becomes preview with no product, where the download button
    is not shown and nothing the user does changes the state any more. *)
Theorem header_only_sheet_ends_the_session (HTMLImageElement : Type)
    (imageWidth imageHeight : HTMLImageElement -> Q)
    (stringWidth : Font -> string -> Q)
    (canvasToJPEG : HTMLImageElement -> Q -> Q -> Q -> Q -> CanvasResult)
    (barcodePNG : string -> string) (parseFloat : string -> option Q)
    (numberToString : Q -> string) (createObjectURL : File.t -> string)
    (s : App.t HTMLImageElement) (excelData : ExcelData.t)
    (choices : list (Key * string)) :
  App.isLoading s = false ->
  App.currentStep s = Step.mapping ->
  App.excelData s = Some excelData ->
  List.length (ExcelData.data excelData) < 2 ->
  offered (ExcelData.columns excelData) choices = true ->
  isComplete (afterChoices choices) = true ->
  App.currentStep
    (dispatch HTMLImageElement parseFloat numberToString createObjectURL s
       (MappingSubmitted choices)) = Step.preview /\
  App.products
    (dispatch HTMLImageElement parseFloat numberToString createObjectURL s
       (MappingSubmitted choices)) = []%list /\
  download HTMLImageElement imageWidth imageHeight stringWidth canvasToJPEG barcodePNG
    (dispatch HTMLImageElement parseFloat numberToString createObjectURL s
       (MappingSubmitted choices)) = None /\
  forall events,
    fold_left (dispatch HTMLImageElement parseFloat numberToString createObjectURL)
      events
      (dispatch HTMLImageElement parseFloat numberToString createObjectURL s
         (MappingSubmitted choices))
    = dispatch HTMLImageElement parseFloat numberToString createObjectURL s
        (MappingSubmitted choices).
Proof.
  intros L Es Ed Hshort Hoffered Hcomplete.
  assert (E : dispatch HTMLImageElement parseFloat numberToString createObjectURL s
                (MappingSubmitted choices)
              = App.mk Step.preview (App.excelData s) (App.imageFiles s) []%list
                  (App.imageCache s) false).
  { unfold dispatch, handleSubmit. rewrite L, Es, Ed, Hoffered, Hcomplete.
    unfold handleMappingComplete. rewrite Ed.
    now rewrite mapDataToProducts_short by exact Hshort. }
  rewrite E. split; [reflexivity|]. split; [reflexivity|]. split; [reflexivity|].
  intros events. induction events as [|e events IH]; [reflexivity|].
  simpl fold_left.
  replace (dispatch HTMLImageElement parseFloat numberToString createObjectURL
             (App.mk Step.preview (App.excelData s) (App.imageFiles s) []%list
                (App.imageCache s) false) e)
    with (App.mk Step.preview (App.excelData s) (App.imageFiles s) []%list
            (App.imageCache s) false)
    by (destruct e; reflexivity).
  exact IH.
Qed.

Lemma header_only_sheet_ends_the_session_witness :
  App.isLoading
    (run unit parseFloatSample noNumbers urlOfSample
       (firstn 2 (sessionOfSample [headersOfSample]%list))) = false /\
  App.currentStep
    (run unit parseFloatSample noNumbers urlOfSample
       (firstn 2 (sessionOfSample [headersOfSample]%list))) = Step.mapping /\
  List.length [headersOfSample]%list < 2 /\
  App.currentStep (runOfSample [headersOfSample]%list) = Step.preview /\
  App.products (runOfSample [headersOfSample]%list) = []%list.
Proof.
  split; [reflexivity|]. split; [reflexivity|]. split; [simpl; lia|].
  destruct (header_only_sheet_ends_the_session unit sizeOfSample sizeOfSample
              widthOfSample canvasOfSample pngOfSample parseFloatSample noNumbers
              urlOfSample
              (run unit parseFloatSample noNumbers urlOfSample
                 (firstn 2 (sessionOfSample [headersOfSample]%list)))
              (ExcelData.mk [headersOfSample]%list
                 ["code"; "qte"; "prix"; "des"; "ref"]%list)
              choicesOfSample eq_refl eq_refl eq_refl
              ltac:(simpl; lia) eq_refl eq_refl) as (H1 & H2 & _).
  split; [exact H1 | exact H2].
Defined.

(** X18. In every session the indicator that shows Current is the one of
    the current step, and no other; an indicator that shows Completed
    belongs to an earlier step. An earlier step need not show Completed:
    after a sheet without products the mapping step shows Pending in the
    preview step. *)
Theorem step_indicators (HTMLImageElement : Type) (parseFloat : string -> option Q)
    (numberToString : Q -> string) (createObjectURL : File.t -> string)
    (events : list Event) (step : Step.t) :
  (getStepStatus
     (run HTMLImageElement parseFloat numberToString createObjectURL events) step
   = Status.current <->
   step = App.currentStep
            (run HTMLImageElement parseFloat numberToString createObjectURL events)) /\
  (getStepStatus
     (run HTMLImageElement parseFloat numberToString createObjectURL events) step
   = Status.completed ->
   Step.rank step
   < Step.rank
       (App.currentStep
          (run HTMLImageElement parseFloat numberToString createObjectURL events))).
Proof.
  destruct (run_invariant HTMLImageElement parseFloat numberToString createObjectURL
              events) as (_ & _ & U & _ & _ & P & _ & B).
  revert U P B.
  generalize (run HTMLImageElement parseFloat numberToString createObjectURL events).
  intros s U P B. unfold getStepStatus.
  assert (N : App.currentStep s <> Step.preview -> App.products s = []%list).
  { intros H. destruct (App.products s); [reflexivity|].
    destruct H. apply P. discriminate. }
  destruct step.
  - destruct (App.currentStep s) eqn:Es.
    + destruct (B eq_refl) as [-> | ->].
      * simpl. split; [split; reflexivity | discriminate].
      * destruct (App.excelData s); simpl;
          (split; [split; reflexivity | discriminate]).
    + destruct (App.excelData s); [|now destruct U].
      destruct (0 <? mapSize (App.imageFiles s)); simpl;
        (split; [split; discriminate | intros _; lia || discriminate]).
    + destruct (App.excelData s); [|now destruct U].
      destruct (0 <? mapSize (App.imageFiles s)); simpl;
        (split; [split; discriminate | intros _; lia || discriminate]).
  - destruct (App.currentStep s) eqn:Es.
    + rewrite N by discriminate. simpl. split; [split; discriminate | discriminate].
    + rewrite N by discriminate. simpl. split; [split; reflexivity | discriminate].
    + destruct (0 <? List.length (App.products s)); simpl;
        (split; [split; discriminate | intros _; lia || discriminate]).
  - destruct (App.currentStep s); simpl;
      (split; [split; (reflexivity || discriminate) | discriminate]).
Qed.

Remark mapping_pending_in_preview :
  App.currentStep (runOfSample [headersOfSample]%list) = Step.preview /\
  getStepStatus (runOfSample [headersOfSample]%list) Step.mapping = Status.pending.
Proof. split; reflexivity. Qed.

(** ** The branded label: the barcode, the centred texts, the reference *)

Section BrandedLabel.

Variable HTMLImageElement : Type.
Variable imageWidth imageHeight : HTMLImageElement -> Q.
Variable stringWidth : Font -> string -> Q.
Variable canvasToJPEG : HTMLImageElement -> Q -> Q -> Q -> Q -> CanvasResult.
Variable barcodePNG : string -> string.

(** The cases of a label: the barcode text is valid or not, the image is
    cached or not and the canvas gives it or not, the price has a decimal
    part or not, the quantity is above one or not. *)
Ltac label_cases product imageCache :=
  destruct (code128Valid (Product.codebar product));
  destruct (imageCache (Product.reference product)) as [productImage|];
  cbv beta iota;
  try destruct (Branded.productImageData _ _ _ _ productImage);
  destruct (hasDecimal (Product.prix product));
  destruct (1 <? Product.qte product)%Z.

Ltac run_label :=
  cbv beta iota zeta delta
    [drawPlaceholderImage setDrawColor setLineWidth setFillColor setTextColor
     setFontSize setFont draw rect rectF text addImage consoleError items
     font getTextWidth drawColor lineWidth fillColor textColor errors
     fontName fontStyle fontSize helvetica Branded.orange Branded.black].

Lemma items_branded_label (pdf : Pdf) (product : Product.t) (x y : Q)
    (imageCache : string -> option HTMLImageElement) :
  items (Branded.drawLabelToPDF HTMLImageElement imageWidth imageHeight stringWidth
           canvasToJPEG barcodePNG pdf product x y imageCache)
  = (items pdf
     ++ Branded.beforeBarcode HTMLImageElement imageWidth imageHeight stringWidth
          canvasToJPEG product x y imageCache
     ++ (if code128Valid (Product.codebar product)
         then Branded.barcodeItems stringWidth barcodePNG (Product.codebar product) x y
         else [])
     ++ Branded.afterBarcode stringWidth product x y)%list.
Proof.
  cbv beta delta
    [Branded.drawLabelToPDF JsBarcode Branded.beforeBarcode Branded.afterBarcode
     Branded.barcodeItems Branded.imageItems Branded.designationText
     Branded.designationX Branded.priceStartX placeholderItems].
  label_cases product imageCache; run_label;
    repeat rewrite <- app_assoc; reflexivity.
Qed.

Lemma errors_branded_label (pdf : Pdf) (product : Product.t) (x y : Q)
    (imageCache : string -> option HTMLImageElement) :
  errors (Branded.drawLabelToPDF HTMLImageElement imageWidth imageHeight stringWidth
            canvasToJPEG barcodePNG pdf product x y imageCache)
  = (errors pdf
     ++ match imageCache (Product.reference product) with
        | Some productImage =>
            match Branded.productImageData HTMLImageElement imageWidth imageHeight
                    canvasToJPEG productImage with
            | CanvasThrew => ["Error adding product image to PDF:"]
            | _ => []
            end
        | None => []
        end
     ++ (if code128Valid (Product.codebar product) then []
         else ["Error generating barcode for PDF:"]))%list.
Proof.
  cbv beta delta [Branded.drawLabelToPDF JsBarcode].
  label_cases product imageCache; run_label;
    rewrite ?app_nil_r, <- ?app_assoc; reflexivity.
Qed.

End BrandedLabel.

(** X19. On the branded label a barcode text that cannot be encoded costs
    the barcode image and its caption and nothing else: what is drawn before
    the barcode and what is drawn after it, the designation and the price
    with their fonts and colours included, is what the same product gets
    with a barcode text that can be encoded, and the one message written to
    the console is the one more that is written. *)
Theorem branded_barcode_failure_isolated (HTMLImageElement : Type)
    (imageWidth imageHeight : HTMLImageElement -> Q)
    (stringWidth : Font -> string -> Q)
    (canvasToJPEG : HTMLImageElement -> Q -> Q -> Q -> Q -> CanvasResult)
    (barcodePNG : string -> string) (pdf : Pdf) (product : Product.t) (x y : Q)
    (imageCache : string -> option HTMLImageElement) (bad good : string) :
  code128Valid bad = false ->
  code128Valid good = true ->
  exists before after,
    items (Branded.drawLabelToPDF HTMLImageElement imageWidth imageHeight stringWidth
             canvasToJPEG barcodePNG pdf (withCodebar bad product) x y imageCache)
    = (items pdf ++ before ++ after)%list /\
    items (Branded.drawLabelToPDF HTMLImageElement imageWidth imageHeight stringWidth
             canvasToJPEG barcodePNG pdf (withCodebar good product) x y imageCache)
    = (items pdf ++ before
       ++ [ImageAt (barcodePNG good) "PNG" (x + LABEL_WIDTH - padding - 30)%Q
             (y + padding + 4)%Q 30 6;
           TextAt good
             (x + LABEL_WIDTH - padding - 30
              + (30 - stringWidth (helvetica "normal" 6) good) / 2)%Q
             (y + padding + 4 + 6 + 3)%Q (helvetica "normal" 6) (RGB 0 0 0)]
       ++ after)%list /\
    errors (Branded.drawLabelToPDF HTMLImageElement imageWidth imageHeight stringWidth
              canvasToJPEG barcodePNG pdf (withCodebar bad product) x y imageCache)
    = (errors (Branded.drawLabelToPDF HTMLImageElement imageWidth imageHeight
                 stringWidth canvasToJPEG barcodePNG pdf (withCodebar good product)
                 x y imageCache)
       ++ ["Error generating barcode for PDF:"])%list.
Proof.
  intros Hbad Hgood.
  exists (Branded.beforeBarcode HTMLImageElement imageWidth imageHeight stringWidth
            canvasToJPEG product x y imageCache),
         (Branded.afterBarcode stringWidth product x y).
  rewrite !items_branded_label, !errors_branded_label.
  cbn [withCodebar Product.codebar Product.reference].
  rewrite Hbad, Hgood. split; [reflexivity|]. split; [reflexivity|].
  now rewrite app_nil_r, <- !app_assoc.
Qed.

Lemma branded_barcode_failure_isolated_witness :
  code128Valid (Product.codebar cafe) = false /\
  code128Valid "123" = true /\
  exists before after,
    items (Branded.drawLabelToPDF unit sizeOfSample sizeOfSample widthOfSample
             canvasOfSample pngOfSample jsPDF (withCodebar (Product.codebar cafe) cafe)
             0 0 emptyCache)
    = (items jsPDF ++ before ++ after)%list /\
    items (Branded.drawLabelToPDF unit sizeOfSample sizeOfSample widthOfSample
             canvasOfSample pngOfSample jsPDF (withCodebar "123" cafe) 0 0 emptyCache)
    = (items jsPDF ++ before
       ++ [ImageAt (pngOfSample "123") "PNG" (0 + LABEL_WIDTH - padding - 30)%Q
             (0 + padding + 4)%Q 30 6;
           TextAt "123"
             (0 + LABEL_WIDTH - padding - 30
              + (30 - widthOfSample (helvetica "normal" 6) "123") / 2)%Q
             (0 + padding + 4 + 6 + 3)%Q (helvetica "normal" 6) (RGB 0 0 0)]
       ++ after)%list.
Proof.
  assert (Hbad : code128Valid (Product.codebar cafe) = false) by reflexivity.
  assert (Hgood : code128Valid "123" = true) by reflexivity.
  split; [exact Hbad|]. split; [exact Hgood|].
  destruct (branded_barcode_failure_isolated unit sizeOfSample sizeOfSample
              widthOfSample canvasOfSample pngOfSample jsPDF cafe 0 0 emptyCache
              (Product.codebar cafe) "123" Hbad Hgood)
    as (before & after & H1 & H2 & _).
  exists before, after. split; [exact H1 | exact H2].
Defined.



(** X21. On the branded label the reference is drawn from 2 mm before the
    right border of the label rightwards, 15 mm after the place of its
    caption: a reference wider than 2 mm in its font runs over the border of
    its label. *)
Theorem branded_reference_runs_over (HTMLImageElement : Type)
    (imageWidth imageHeight : HTMLImageElement -> Q)
    (stringWidth : Font -> string -> Q)
    (canvasToJPEG : HTMLImageElement -> Q -> Q -> Q -> Q -> CanvasResult)
    (barcodePNG : string -> string) (pdf : Pdf) (product : Product.t) (x y : Q)
    (imageCache : string -> option HTMLImageElement) :
  (2 < stringWidth (helvetica "bold" 7) (Product.reference product))%Q ->
  exists captionX referenceX,
    In (TextAt "Ref:" captionX (y + padding + 4)%Q (helvetica "normal" 7) (RGB 0 0 0))
       (items (Branded.drawLabelToPDF HTMLImageElement imageWidth imageHeight
                 stringWidth canvasToJPEG barcodePNG pdf product x y imageCache)) /\
    In (TextAt (Product.reference product) referenceX (y + padding + 4)%Q
          (helvetica "bold" 7) (RGB 0 0 0))
       (items (Branded.drawLabelToPDF HTMLImageElement imageWidth imageHeight
                 stringWidth canvasToJPEG barcodePNG pdf product x y imageCache)) /\
    (referenceX == captionX + 15)%Q /\
    (referenceX == x + LABEL_WIDTH - 2)%Q /\
    (x + LABEL_WIDTH
     < referenceX + stringWidth (helvetica "bold" 7) (Product.reference product))%Q.
Proof.
  intros Hwide.
  exists (x + LABEL_WIDTH - padding - 15)%Q, (x + LABEL_WIDTH - padding)%Q.
  rewrite items_branded_label.
  assert (B : forall item,
            In item [TextAt "Ref:" (x + LABEL_WIDTH - padding - 15)%Q
                       (y + padding + 4)%Q (helvetica "normal" 7) Branded.black;
                     TextAt (Product.reference product) (x + LABEL_WIDTH - padding)%Q
                       (y + padding + 4)%Q (helvetica "bold" 7) Branded.black]%list ->
            In item
              (items pdf
               ++ Branded.beforeBarcode HTMLImageElement imageWidth imageHeight
                    stringWidth canvasToJPEG product x y imageCache
               ++ (if code128Valid (Product.codebar product)
                   then Branded.barcodeItems stringWidth barcodePNG
                          (Product.codebar product) x y
                   else [])
               ++ Branded.afterBarcode stringWidth product x y)%list).
  { intros item H. apply in_or_app. right. apply in_or_app. left.
    unfold Branded.beforeBarcode. apply in_or_app. right.
    apply in_or_app. now right. }
  split; [apply B; left; reflexivity|].
  split; [apply B; right; left; reflexivity|].
  unfold padding, LABEL_WIDTH in *. repeat split; lra.
Qed.

Lemma branded_reference_runs_over_witness :
  (2 < widthOfSample (helvetica "bold" 7) (Product.reference cafe))%Q /\
  exists referenceX,
    In (TextAt (Product.reference cafe) referenceX (0 + padding + 4)%Q
          (helvetica "bold" 7) (RGB 0 0 0))
       (items (Branded.drawLabelToPDF unit sizeOfSample sizeOfSample widthOfSample
                 canvasOfSample pngOfSample jsPDF cafe 0 0 emptyCache)) /\
    (0 + LABEL_WIDTH
     < referenceX + widthOfSample (helvetica "bold" 7) (Product.reference cafe))%Q.
Proof.
  assert (Hwide : (2 < widthOfSample (helvetica "bold" 7) (Product.reference cafe))%Q)
    by reflexivity.
  split; [exact Hwide|].
  destruct (branded_reference_runs_over unit sizeOfSample sizeOfSample widthOfSample
              canvasOfSample pngOfSample jsPDF cafe 0 0 emptyCache Hwide)
    as (captionX & referenceX & _ & H2 & _ & _ & H5).
  exists referenceX. split; [exact H2 | exact H5].
Defined.

(** ** The branded document *)

Lemma list_sum_plus {A : Type} (f g : A -> nat) (l : list A) :
  list_sum (map (fun a => f a + g a) l) = list_sum (map f l) + list_sum (map g l).
Proof. induction l as [|a l IH]; simpl; [reflexivity | rewrite IH; lia]. Qed.

Lemma list_sum_scale {A : Type} (c : nat) (f : A -> nat) (l : list A) :
  list_sum (map (fun a => c * f a) l) = c * list_sum (map f l).
Proof. induction l as [|a l IH]; simpl; [lia | rewrite IH; lia]. Qed.

(** The items of a document whose labels are drawn by any function that
    only adds items. *)
Section DocumentOfLabels.

Variable drawLabel : Pdf -> Product.t -> Q -> Q -> Pdf.
Variable itemsOfLabel : Product.t -> Q -> Q -> list Item.
Hypothesis drawLabel_items :
  forall pdf product x y,
    items (drawLabel pdf product x y) = (items pdf ++ itemsOfLabel product x y)%list.

Lemma items_fold_labels (placements : list (Placement.t Product.t)) (pdf : Pdf) :
  items
    (fold_left
       (fun pdf placement =>
          drawLabel pdf (Placement.product placement) (Placement.x placement)
            (Placement.y placement))
       placements pdf)
  = (items pdf ++
     List.concat
       (map (fun placement =>
               itemsOfLabel (Placement.product placement) (Placement.x placement)
                 (Placement.y placement))
          placements))%list.
Proof.
  revert pdf. induction placements as [|placement placements IH]; intros pdf; simpl.
  - now rewrite app_nil_r.
  - rewrite IH, drawLabel_items. now rewrite <- app_assoc.
Qed.

Lemma items_fold_pages (products : list Product.t) (pages : list nat) (pdf : Pdf) :
  items
    (fold_left
       (fun pdf page =>
          let pdf := if 0 <? page then addPage pdf else pdf in
          fold_left
            (fun pdf placement =>
               drawLabel pdf (Placement.product placement) (Placement.x placement)
                 (Placement.y placement))
            (placePage (pageProducts products page)) pdf)
       pages pdf)
  = (items pdf ++
     List.concat
       (map (fun page =>
               (if 0 <? page then [NewPage] else []) ++
               List.concat
                 (map (fun placement =>
                         itemsOfLabel (Placement.product placement)
                           (Placement.x placement) (Placement.y placement))
                    (placePage (pageProducts products page))))
          pages))%list.
Proof.
  revert pdf. induction pages as [|page pages IH]; intros pdf; simpl.
  - now rewrite app_nil_r.
  - rewrite IH, items_fold_labels.
    destruct (0 <? page); simpl; repeat rewrite <- app_assoc; reflexivity.
Qed.

Lemma count_in_pages (kind : Item -> bool) (c : nat) (products : list Product.t) :
  (forall product x y, countItems kind (itemsOfLabel product x y) = c) ->
  countItems kind
    (List.concat
       (map (fun page =>
               (if 0 <? page then [NewPage] else []) ++
               List.concat
                 (map (fun placement =>
                         itemsOfLabel (Placement.product placement)
                           (Placement.x placement) (Placement.y placement))
                    (placePage (pageProducts products page))))
          (seq 0 (totalPages products))))%list
  = c * List.length products
    + (if kind NewPage then (List.length products + 23) / 24 - 1 else 0).
Proof.
  intros Hc. rewrite countItems_concat_map.
  rewrite (map_ext _ (fun page =>
                        (if kind NewPage then if 0 <? page then 1 else 0 else 0)
                        + c * List.length (pageProducts products page))).
  2:{ intros page. rewrite countItems_app, countItems_concat_map.
      rewrite (list_sum_const c) by (intros placement; apply Hc).
      rewrite length_placePage.
      destruct (0 <? page); unfold countItems; simpl;
        destruct (kind NewPage); reflexivity. }
  rewrite list_sum_plus, list_sum_scale, length_all_pages.
  destruct (kind NewPage).
  - rewrite page_breaks_upto, totalPages_nat. lia.
  - rewrite (list_sum_const 0) by reflexivity. lia.
Qed.

End DocumentOfLabels.

(** X22. The branded document has the make of the compact one: one label
    border for each product, one page break less than it has pages of
    labels, and the saving under the name price-labels.pdf as the last thing
    done; and with no image in the cache it holds one placeholder for each
    product and no product image. *)
Theorem branded_document_structure (HTMLImageElement : Type)
    (imageWidth imageHeight : HTMLImageElement -> Q)
    (stringWidth : Font -> string -> Q)
    (canvasToJPEG : HTMLImageElement -> Q -> Q -> Q -> Q -> CanvasResult)
    (barcodePNG : string -> string) (products : list Product.t)
    (imageCache : string -> option HTMLImageElement) :
  countItems isBorderItem
    (items (Branded.generatePDF HTMLImageElement imageWidth imageHeight stringWidth
              canvasToJPEG barcodePNG products imageCache))
  = List.length products /\
  countItems isPageBreak
    (items (Branded.generatePDF HTMLImageElement imageWidth imageHeight stringWidth
              canvasToJPEG barcodePNG products imageCache))
  = (List.length products + 23) / 24 - 1 /\
  last
    (items (Branded.generatePDF HTMLImageElement imageWidth imageHeight stringWidth
              canvasToJPEG barcodePNG products imageCache)) NewPage
  = SavedAs "price-labels.pdf" /\
  countItems isProductImage
    (items (Branded.generatePDF HTMLImageElement imageWidth imageHeight stringWidth
              canvasToJPEG barcodePNG products (fun _ => None)))
  = 0 /\
  countItems isPlaceholder
    (items (Branded.generatePDF HTMLImageElement imageWidth imageHeight stringWidth
              canvasToJPEG barcodePNG products (fun _ => None)))
  = List.length products.
Proof.
  pose (L := fun (cache : string -> option HTMLImageElement) product x y =>
               (Branded.beforeBarcode HTMLImageElement imageWidth imageHeight
                  stringWidth canvasToJPEG product x y cache
                ++ (if code128Valid (Product.codebar product)
                    then Branded.barcodeItems stringWidth barcodePNG
                           (Product.codebar product) x y
                    else [])
                ++ Branded.afterBarcode stringWidth product x y)%list).
  assert (D : forall cache,
            items (Branded.generatePDF HTMLImageElement imageWidth imageHeight
                     stringWidth canvasToJPEG barcodePNG products cache)
            = ((items jsPDF ++
                List.concat
                  (map (fun page =>
                          (if 0 <? page then [NewPage] else []) ++
                          List.concat
                            (map (fun placement =>
                                    L cache (Placement.product placement)
                                      (Placement.x placement) (Placement.y placement))
                               (placePage (pageProducts products page))))
                     (seq 0 (totalPages products))))
               ++ [SavedAs "price-labels.pdf"])%list).
  { intros cache. unfold Branded.generatePDF, save, draw. cbn [items].
    f_equal.
    apply (items_fold_pages
             (fun pdf product x y =>
                Branded.drawLabelToPDF HTMLImageElement imageWidth imageHeight
                  stringWidth canvasToJPEG barcodePNG pdf product x y cache)
             (L cache)).
    intros pdf product x y. apply items_branded_label. }
  assert (K : forall cache product x y,
            countItems isBorderItem (L cache product x y) = 1 /\
            countItems isPageBreak (L cache product x y) = 0).
  { intros cache product x y.
    unfold L, Branded.beforeBarcode, Branded.afterBarcode, Branded.barcodeItems,
      Branded.imageItems.
    destruct (code128Valid (Product.codebar product));
      destruct (cache (Product.reference product)) as [productImage|];
      try destruct (Branded.productImageData _ _ _ _ productImage);
      destruct (hasDecimal (Product.prix product));
      destruct (1 <? Product.qte product)%Z; split; reflexivity. }
  assert (N : forall product x y,
            countItems isProductImage (L (fun _ => None) product x y) = 0 /\
            countItems isPlaceholder (L (fun _ => None) product x y) = 1).
  { intros product x y.
    unfold L, Branded.beforeBarcode, Branded.afterBarcode, Branded.barcodeItems,
      Branded.imageItems.
    destruct (code128Valid (Product.codebar product));
      destruct (hasDecimal (Product.prix product));
      destruct (1 <? Product.qte product)%Z; split; reflexivity. }
  rewrite !D. split; [|split; [|split; [|split]]].
  - rewrite !countItems_app, (count_in_pages (L imageCache) isBorderItem 1)
      by (intros; apply K).
    unfold countItems. simpl. lia.
  - rewrite !countItems_app, (count_in_pages (L imageCache) isPageBreak 0)
      by (intros; apply K).
    unfold countItems. simpl. lia.
  - apply last_last.
  - rewrite !countItems_app, (count_in_pages (L (fun _ => None)) isProductImage 0)
      by (intros; apply N).
    unfold countItems. simpl. lia.
  - rewrite !countItems_app, (count_in_pages (L (fun _ => None)) isPlaceholder 1)
      by (intros; apply N).
    unfold countItems. simpl. lia.
Qed.

(** ** The product image on its canvas *)




(** ** The preview on the canvas *)

Section PreviewOfTheLabel.

Variable Image : Type.
Variable imageWidth imageHeight : Image -> Q.
Variable loadImage : string -> option Image.
Variable measureText : string -> string -> Q.
Variable barcodeURL : string -> string.

Lemma cache_after_drawLabel (product : Product.t) (imageCache : string -> option Image) :
  snd (Preview.drawLabel Image imageWidth imageHeight loadImage measureText barcodeURL
         true (Some product) imageCache)
  = snd (Preview.productImageOf Image loadImage product imageCache).
Proof.
  unfold Preview.drawLabel.
  destruct (Preview.productImageOf Image loadImage product imageCache); reflexivity.
Qed.

End PreviewOfTheLabel.

(** X24. In the preview the barcode text is always the last thing drawn: a
    barcode text that cannot be encoded costs the barcode image only, all
    that is drawn before it being what the same product gets with a barcode
    text that can be encoded; and with such a text the image is drawn just
    before the barcode text, or left out when it cannot be loaded. *)
Theorem preview_keeps_caption (Image : Type) (imageWidth imageHeight : Image -> Q)
    (loadImage : string -> option Image) (measureText : string -> string -> Q)
    (barcodeURL : string -> string) (product : Product.t)
    (imageCache : string -> option Image) (bad good : string) :
  code128Valid bad = false ->
  code128Valid good = true ->
  exists body,
    fst (Preview.drawLabel Image imageWidth imageHeight loadImage measureText
           barcodeURL true (Some (withCodebar bad product)) imageCache)
    = Some (body ++
            [Preview.FillText bad (Preview.width / 2)%Q (Preview.height - 2)%Q
               "8px Arial" "#374151" "center"])%list /\
    (fst (Preview.drawLabel Image imageWidth imageHeight loadImage measureText
            barcodeURL true (Some (withCodebar good product)) imageCache)
     = Some (body ++
             [Preview.FillText good (Preview.width / 2)%Q (Preview.height - 2)%Q
                "8px Arial" "#374151" "center"])%list \/
     exists barcodeImg,
       fst (Preview.drawLabel Image imageWidth imageHeight loadImage measureText
              barcodeURL true (Some (withCodebar good product)) imageCache)
       = Some (body ++
               [Preview.DrawImage barcodeImg 8 (Preview.height - 25 - 8)%Q
                  (Preview.width - 16)%Q 25;
                Preview.FillText good (Preview.width / 2)%Q (Preview.height - 2)%Q
                  "8px Arial" "#374151" "center"])%list).
Proof.
  intros Hbad Hgood.
  assert (E : forall codebar,
            Preview.productImageOf Image loadImage (withCodebar codebar product)
              imageCache
            = Preview.productImageOf Image loadImage product imageCache)
    by reflexivity.
  unfold Preview.drawLabel, Preview.generateBarcode. rewrite !E.
  cbn [withCodebar Product.codebar Product.qte Product.prix Product.designation
       Product.reference].
  rewrite Hbad, Hgood.
  destruct (Preview.productImageOf Image loadImage product imageCache)
    as [[productImage|] cache];
    destruct (1 <? Product.qte product)%Z;
    destruct (negb (String.eqb (barcodeURL good) ""));
    try destruct (loadImage (barcodeURL good)) as [barcodeImg|];
    cbv beta iota zeta; cbn [fst negb String.eqb];
    eexists; (split; [reflexivity|]);
    first [left; reflexivity
          | right; exists barcodeImg; rewrite <- app_assoc; reflexivity].
Qed.

Lemma preview_keeps_caption_witness :
  code128Valid (Product.codebar cafe) = false /\
  code128Valid "123" = true /\
  exists body,
    fst (Preview.drawLabel unit sizeOfSample sizeOfSample (fun _ => Some tt)
           (fun font s => ofNat (String.length s)) pngOfSample true
           (Some (withCodebar (Product.codebar cafe) cafe)) emptyCache)
    = Some (body ++
            [Preview.FillText (Product.codebar cafe) (Preview.width / 2)%Q
               (Preview.height - 2)%Q "8px Arial" "#374151" "center"])%list.
Proof.
  assert (Hbad : code128Valid (Product.codebar cafe) = false) by reflexivity.
  assert (Hgood : code128Valid "123" = true) by reflexivity.
  split; [exact Hbad|]. split; [exact Hgood|].
  destruct (preview_keeps_caption unit sizeOfSample sizeOfSample (fun _ => Some tt)
              (fun font s => ofNat (String.length s)) pngOfSample cafe emptyCache
              (Product.codebar cafe) "123" Hbad Hgood) as (body & H & _).
  exists body. exact H.
Defined.

(** X25. A draw of the preview changes the image cache at most at the
    reference of its product, and only when it loaded the image because the
    cache of its render had none for that reference; what it then sets is
    the image it drew, whatever the state holds by then. When the state is
    still the cache of the render, no entry is replaced or removed; and
    once the image was found in the cache or loaded, a draw rendered with
    the cache that results updates nothing, so that the redrawing on cache
    changes comes to rest. *)
Theorem preview_cache_settles (Image : Type) (imageWidth imageHeight : Image -> Q)
    (loadImage : string -> option Image) (measureText : string -> string -> Q)
    (barcodeURL : string -> string) (product : Product.t)
    (imageCache : string -> option Image) :
  (forall prev reference,
     reference <> Product.reference product ->
     snd (Preview.drawLabel Image imageWidth imageHeight loadImage measureText
            barcodeURL true (Some product) imageCache) prev reference
     = prev reference) /\
  (forall prev,
     (forall reference,
        snd (Preview.drawLabel Image imageWidth imageHeight loadImage measureText
               barcodeURL true (Some product) imageCache) prev reference
        = prev reference) \/
     (exists image,
        imageCache (Product.reference product) = None /\
        fst (Preview.productImageOf Image loadImage product imageCache) = Some image /\
        snd (Preview.drawLabel Image imageWidth imageHeight loadImage measureText
               barcodeURL true (Some product) imageCache) prev
          (Product.reference product)
        = Some image)) /\
  (forall reference image,
     imageCache reference = Some image ->
     snd (Preview.drawLabel Image imageWidth imageHeight loadImage measureText
            barcodeURL true (Some product) imageCache) imageCache reference
     = Some image) /\
  (forall image,
     fst (Preview.productImageOf Image loadImage product imageCache) = Some image ->
     snd (Preview.drawLabel Image imageWidth imageHeight loadImage measureText
            barcodeURL true (Some product) imageCache) imageCache
       (Product.reference product)
     = Some image /\
     forall prev reference,
       snd (Preview.drawLabel Image imageWidth imageHeight loadImage measureText
              barcodeURL true (Some product)
              (snd (Preview.drawLabel Image imageWidth imageHeight loadImage
                      measureText barcodeURL true (Some product) imageCache)
                 imageCache))
         prev reference
       = prev reference).
Proof.
  rewrite !cache_after_drawLabel. unfold Preview.productImageOf.
  destruct (truthy _).
  2:{ cbn [fst snd].
      split; [reflexivity|]. split; [intros prev; now left|].
      split; [intros; assumption | discriminate]. }
  destruct (imageCache (Product.reference product)) as [cached|] eqn:C.
  { cbn [fst snd]. rewrite C. cbn [snd].
    split; [reflexivity|]. split; [intros prev; now left|].
    split; [intros; assumption|].
    intros image H. injection H as <-. split; reflexivity. }
  destruct (loadImage _) as [loaded|].
  2:{ cbn [fst snd]. rewrite C. cbn [snd].
      split; [reflexivity|]. split; [intros prev; now left|].
      split; [intros; assumption | discriminate]. }
  cbn [fst snd]. rewrite !String.eqb_refl. cbn [snd].
  split; [|split; [|split]].
  - intros prev reference H. apply String.eqb_neq in H. now rewrite H.
  - intros prev. right. exists loaded. repeat split; reflexivity.
  - intros reference image H.
    destruct (String.eqb reference (Product.reference product)) eqn:E; [|exact H].
    apply String.eqb_eq in E. subst reference. congruence.
  - intros image H. injection H as <-. split; reflexivity.
Qed.

(** A draw rendered with an older cache replaces what the state holds by the
    time its image is loaded: the entry another draw has set for the
    reference gives way to the image loaded. *)
Remark preview_older_draw_replaces :
  cacheByThen (Product.reference pictured) = Some 1 /\
  snd (Preview.drawLabel nat (fun _ => 1%Q) (fun _ => 1%Q) (fun _ => Some 2)
         (fun font s => ofNat (String.length s)) pngOfSample true (Some pictured)
         cacheOfOlderRender) cacheByThen (Product.reference pictured)
  = Some 2.
Proof. split; [reflexivity|]. rewrite cache_after_drawLabel. reflexivity. Qed.
